(** * EzBrowser: presence registry, heartbeat supervisor and launch orchestrator

    A shallow embedding of [server.py] (the Flask registry) and of the
    heartbeat / launch methods of [JacintoLobbyBrowser] in [ez_browser.py],
    together with the properties of the design document that concern them.

    Conventions of the embedding:
    - a request body is the JSON object Flask hands to the handler; a Python
      [dict] with string keys is a [gmap string json];
    - JSON numbers and [time.time()] readings are exact rationals ([Q]);
      rounding, NaN and infinities of IEEE floats are outside the model;
    - an uncaught Python exception is the [Raise] result;
    - a handler is a function from the global [servers] list to its result
      and the list it leaves behind. *)

From Stdlib Require Import QArith Lqa Ascii DecimalString.
From stdpp Require Import gmap strings list fin_maps pretty.

Open Scope string_scope.
Open Scope list_scope.

(** ** JSON values and Python equality *)

#[local] Set Warnings "-register-all".
Inductive json : Type :=
| JNull
| JBool (b : bool)
| JNum (q : Q)
| JStr (s : string)
| JArr (l : list json)
| JObj (o : list (string * json)).

Abbreviation record := (gmap string json).

(** Python treats [True]/[False] as the integers 1/0 in arithmetic and in
    comparisons with numbers. *)
Definition as_num (v : json) : option Q :=
  match v with
  | JBool b => Some (if b then 1%Q else 0%Q)
  | JNum q => Some q
  | _ => None
  end.

Fixpoint assoc (k : string) (o : list (string * json)) : option json :=
  match o with
  | [] => None
  | (k', v) :: o' => if String.eqb k k' then Some v else assoc k o'
  end.

(** [a == b] on values built by [json.loads]. *)
Fixpoint py_eq (a b : json) : bool :=
  match a, b with
  | JNull, JNull => true
  | JStr s, JStr t => String.eqb s t
  | JArr l, JArr m =>
      (fix elems (l m : list json) : bool :=
         match l, m with
         | [], [] => true
         | x :: l', y :: m' => py_eq x y && elems l' m'
         | _, _ => false
         end) l m
  | JObj o, JObj p =>
      Nat.eqb (length o) (length p) &&
      (fix entries (o : list (string * json)) : bool :=
         match o with
         | [] => true
         | (k, v) :: o' =>
             match assoc k p with
             | Some w => py_eq v w
             | None => false
             end && entries o'
         end) o
  | _, _ =>
      match as_num a, as_num b with
      | Some x, Some y => Qeq_bool x y
      | _, _ => false
      end
  end.

Definition Qltb (x y : Q) : bool := negb (Qle_bool y x).

(** ** Exceptions *)

Inductive exn : Type :=
| KeyError (k : string)
| TypeError
| IndexError.

Inductive result (A : Type) : Type :=
| Ok (a : A)
| Raise (e : exn).
Arguments Ok {A} a.
Arguments Raise {A} e.

Global Instance result_ret : MRet result := λ A a, Ok a.
Global Instance result_bind : MBind result := λ A B f r,
  match r with
  | Ok a => f a
  | Raise e => Raise e
  end.

(** ** The registry service ([server.py]) *)

Module Server.

Inductive body : Type :=
| JsonObject (o : record)
| JsonList (l : list record).

(** What a view function returns: [jsonify(...)] and the status code. *)
Record response : Type := Response { payload : body; status_code : Z }.

Definition missing_fields : response :=
  Response (JsonObject {[ "error" := JStr "Missing required server fields" ]}) 400.

Definition registered : response :=
  Response (JsonObject {[ "status" := JStr "Server registered/updated" ]}) 200.

Definition required_fields : list string := ["name"; "public_ip"; "port"; "map"].

(** [d[k]] *)
Definition getitem (d : record) (k : string) : result json :=
  match d !! k with
  | Some v => Ok v
  | None => Raise (KeyError k)
  end.

(** [d.get(k, dflt)] *)
Definition get (d : record) (k : string) (dflt : json) : json :=
  default dflt (d !! k).

(** [k in d] *)
Definition contains (d : record) (k : string) : bool :=
  bool_decide (is_Some (d !! k)).

(** [s["public_ip"] == data["public_ip"] and s["port"] == data["port"]] *)
Definition same_endpoint (s data : record) : result bool :=
  a ← getitem s "public_ip";
  b ← getitem data "public_ip";
  if py_eq a b then
    c ← getitem s "port";
    d ← getitem data "port";
    mret (py_eq c d)
  else mret false.

(** [s.update(data); s["last_seen"] = time.time()] *)
Definition refresh (now : Q) (data s : record) : record :=
  <[ "last_seen" := JNum now ]> (data ∪ s).

(** The [for s in servers] loop: [Some l] when a record matched and was
    updated in place (the loop breaks there), [None] when none did. *)
Fixpoint update_existing (now : Q) (data : record) (servers : list record)
  : result (option (list record)) :=
  match servers with
  | [] => Ok None
  | s :: rest =>
      hit ← same_endpoint s data;
      if (hit : bool) then Ok (Some (refresh now data s :: rest))
      else r ← update_existing now data rest; mret (option_map (cons s) r)
  end.

Definition add_server (now : Q) (data : record) (servers : list record)
  : result response * list record :=
  if forallb (contains data) required_fields then
    match update_existing now data servers with
    | Raise e => (Raise e, servers)
    | Ok (Some servers') => (Ok registered, servers')
    | Ok None => (Ok registered, (servers ++ [<[ "last_seen" := JNum now ]> data])%list)
    end
  else (Ok missing_fields, servers).

(** [now - s.get("last_seen", 0) < 60] *)
Definition fresh (now : Q) (s : record) : result bool :=
  match as_num (get s "last_seen" (JNum 0)) with
  | Some t => Ok (Qltb (now - t) 60)
  | None => Raise TypeError
  end.

(** [[s for s in servers if ...]] *)
Fixpoint fresh_servers (now : Q) (servers : list record) : result (list record) :=
  match servers with
  | [] => Ok []
  | s :: rest =>
      keep ← fresh now s;
      l ← fresh_servers now rest;
      mret (if (keep : bool) then s :: l else l)
  end.

Definition get_servers (now : Q) (servers : list record)
  : result response * list record :=
  (l ← fresh_servers now servers; mret (Response (JsonList l) 200), servers).

End Server.

(** ** Hosted-server configuration ([Host] dataclass of [ez_browser.py]) *)

Module Host.

Record t : Type := Build {
  id : string;
  name : string;
  public_ip : string;
  local_ip : string;
  port : Z;
  map : string;
  password : string;
  exe_path : string
}.

(** [h.exe_path = exe] *)
Definition set_exe_path (exe : string) (h : t) : t :=
  Build (id h) (name h) (public_ip h) (local_ip h) (port h) (map h) (password h) exe.

End Host.

(** ** The browser window ([JacintoLobbyBrowser]) *)

Module Browser.

Definition HEARTBEAT_INTERVAL : Q := 5.

Inductive icon : Type := Information | Critical | Warning.

(** A [QMessageBox] shown to the user. *)
Record message : Type := Message { box_icon : icon; title : string; text : string }.

(** Where a [_hb_loop] thread stands:
    [Checking] at the [while] guard, [Posting] inside [requests.post],
    [Waiting since] inside [stop_event.wait] entered at time [since],
    [Finished] once the guard has failed. *)
Inductive phase : Type :=
| Checking
| Posting
| Waiting (since : Q)
| Finished.

Record thread : Type := Thread {
  host : Host.t;          (* args[0] *)
  stop_event : nat;       (* args[1]: address of the Event object *)
  failures : Z;
  at_phase : phase
}.

(** The part of the window object and of its surroundings the launch and
    heartbeat methods read or write. [threading.Event] objects live in
    [events], addressed by position, so that the table and the threads
    share them. *)
Record window : Type := Window {
  hb_threads : gmap string nat;           (* self.hb_threads *)
  events : list bool;                     (* flag of each Event object *)
  threads : list thread;                  (* started _hb_loop threads *)
  hb_color : list string;                 (* hb_color_signal emissions, newest last *)
  boxes : list message;                   (* message boxes shown, newest last *)
  posts : list (nat * Q * record);        (* POST /add_server issued: thread, time, json *)
  clock : Q;                              (* time.time() *)
  processes : list (Q * list string);     (* subprocess.Popen started: time, argv *)
  hosts_db : list Host.t                  (* what load_hosts() reads from hosts.json *)
}.

Definition set_hb_threads (f : gmap string nat → gmap string nat) (w : window) : window :=
  Window (f (hb_threads w)) (events w) (threads w) (hb_color w) (boxes w) (posts w)
         (clock w) (processes w) (hosts_db w).
Definition set_events (f : list bool → list bool) (w : window) : window :=
  Window (hb_threads w) (f (events w)) (threads w) (hb_color w) (boxes w) (posts w)
         (clock w) (processes w) (hosts_db w).
Definition set_threads (f : list thread → list thread) (w : window) : window :=
  Window (hb_threads w) (events w) (f (threads w)) (hb_color w) (boxes w) (posts w)
         (clock w) (processes w) (hosts_db w).
Definition set_posts (f : list (nat * Q * record) → list (nat * Q * record)) (w : window)
  : window :=
  Window (hb_threads w) (events w) (threads w) (hb_color w) (boxes w) (f (posts w))
         (clock w) (processes w) (hosts_db w).
Definition set_clock (f : Q → Q) (w : window) : window :=
  Window (hb_threads w) (events w) (threads w) (hb_color w) (boxes w) (posts w)
         (f (clock w)) (processes w) (hosts_db w).
Definition set_hosts_db (f : list Host.t → list Host.t) (w : window) : window :=
  Window (hb_threads w) (events w) (threads w) (hb_color w) (boxes w) (posts w)
         (clock w) (processes w) (f (hosts_db w)).

(** [self.hb_color_signal.emit(color)] *)
Definition emit (color : string) (w : window) : window :=
  Window (hb_threads w) (events w) (threads w) (hb_color w ++ [color]) (boxes w) (posts w)
         (clock w) (processes w) (hosts_db w).

(** [QMessageBox.information/critical/warning(self, title, text)] *)
Definition show (i : icon) (title text : string) (w : window) : window :=
  Window (hb_threads w) (events w) (threads w) (hb_color w) (boxes w ++ [Message i title text])
         (posts w) (clock w) (processes w) (hosts_db w).

(** A process started by [subprocess.Popen(argv)]. *)
Definition started (argv : list string) (w : window) : window :=
  Window (hb_threads w) (events w) (threads w) (hb_color w) (boxes w) (posts w)
         (clock w) (processes w ++ [(clock w, argv)]) (hosts_db w).

(** [time.sleep(secs)] *)
Definition sleep (secs : Q) (w : window) : window := set_clock (λ t, t + secs)%Q w.

Definition load_hosts (w : window) : list Host.t := hosts_db w.
Definition save_hosts (items : list Host.t) (w : window) : window :=
  set_hosts_db (λ _, items) w.

(** *** Launch / join *)

(** What the user and the operating system answer during one call of
    [launch_selected]. *)
Record answers : Type := Answers {
  my_row : Z;                               (* self.my_list.currentRow() *)
  available_row : Z;                        (* self.available_list.currentRow() *)
  available_text : string;                  (* self.available_list.currentItem().text() *)
  path_exists : string → bool;              (* os.path.exists *)
  open_file : string;                       (* QFileDialog.getOpenFileName: "" if dismissed *)
  get_text : string * bool;                 (* QInputDialog.getText: (pw, ok) *)
  popen_error : list string → option string (* str(e) if Popen(argv) raises *)
}.

Definition truthy (s : string) : bool := negb (String.eqb s "").

Definition choose_exe_path (env : answers) (w : window) : option string * window :=
  let path := open_file env in
  if negb (truthy path) then (None, w)
  else if negb (path_exists env path) then
    (None, show Critical "Error" "Selected path does not exist." w)
  else (Some path, w).

(** The [for i, h in enumerate(hosts)] loop of [_ensure_host_exe]. *)
Fixpoint assign_exe (id exe : string) (hosts : list Host.t) : list Host.t :=
  match hosts with
  | [] => []
  | h :: rest =>
      if String.eqb (Host.id h) id then Host.set_exe_path exe h :: rest
      else h :: assign_exe id exe rest
  end.

Definition _ensure_host_exe (env : answers) (host : Host.t) (w : window)
  : option string * window :=
  if truthy (Host.exe_path host) && path_exists env (Host.exe_path host) then
    (Some (Host.exe_path host), w)
  else
    match choose_exe_path env w with
    | (None, w) => (None, w)
    | (Some exe, w) =>
        let hosts := load_hosts w in
        (Some exe, save_hosts (assign_exe (Host.id host) exe hosts) w)
    end.

(** [subprocess.Popen(argv)]: [Some e] when it raises. *)
Definition Popen (env : answers) (argv : list string) (w : window)
  : option string * window :=
  match popen_error env argv with
  | Some e => (Some e, w)
  | None => (None, started argv w)
  end.

Definition server_argv (exe : string) (cfg : Host.t) : list string :=
  [exe; "server"; Host.map cfg +:+ ".gear?game=koth?MaxPlayers=10?bots=6?";
   "-port=" +:+ pretty (Host.port cfg); "-useallavailablecores"; "-log"].

Definition endpoint (ip : string) (port : Z) : string := ip +:+ ":" +:+ pretty port.

(** [text.split(sep, 1)[1]] for a non-empty [sep]; [None] is the
    [IndexError] of a text without [sep]. *)
Fixpoint after_first (sep s : string) : option string :=
  if String.prefix sep s then Some (String.substring (String.length sep)
                                      (String.length s - String.length sep) s)
  else match s with
       | EmptyString => None
       | String _ s' => after_first sep s'
       end.

Definition launch_selected (env : answers) (w : window) : result unit * window :=
  let idx := my_row env in
  if (0 <=? idx)%Z then
    let hosts := load_hosts w in
    match hosts !! Z.to_nat idx with
    | None => (Raise IndexError, w)
    | Some cfg =>
        match _ensure_host_exe env cfg w with
        | (None, w) =>
            (Ok (), show Critical "Error" "Executable is required for this server." w)
        | (Some exe, w) =>
            let '(pw, ok) := get_text env in
            if ok && String.eqb pw (Host.password cfg) then
              match Popen env (server_argv exe cfg) w with
              | (Some e, w) => (Ok (), show Critical "Launch Error" e w)
              | (None, w) =>
                  let w := sleep 10 w in
                  match Popen env [exe; endpoint (Host.local_ip cfg) (Host.port cfg)] w with
                  | (Some e, w) => (Ok (), show Critical "Launch Error" e w)
                  | (None, w) => (Ok (), w)
                  end
              end
            else
              match Popen env [exe; endpoint (Host.public_ip cfg) (Host.port cfg)] w with
              | (Some e, w) => (Ok (), show Critical "Launch Error" e w)
              | (None, w) => (Ok (), w)
              end
        end
    end
  else
    let aidx := available_row env in
    if (aidx <? 0)%Z then
      (Ok (), show Information "Select" "Select a server to launch/join." w)
    else
      match after_first " - " (available_text env) with
      | None =>
          (Ok (), show Critical "Parse Error" "Could not parse selected server endpoint." w)
      | Some endpoint =>
          match choose_exe_path env w with
          | (None, w) => (Ok (), w)
          | (Some exe, w) =>
              match Popen env [exe; endpoint] w with
              | (Some e, w) => (Ok (), show Critical "Launch Error" e w)
              | (None, w) => (Ok (), w)
              end
          end
      end.

(** *** Heartbeat supervisor *)

(** [ev.is_set()] *)
Definition is_set (ev : nat) (w : window) : bool :=
  bool_decide (events w !! ev = Some true).

(** [ev.set()] *)
Definition ev_set (ev : nat) (w : window) : window :=
  set_events (<[ev := true]>) w.

(** [threading.Event()]: a new object, flag cleared. *)
Definition new_event (w : window) : nat * window :=
  (length (events w), set_events (λ l, l ++ [false]) w).

(** [host.id in self.hb_threads and not self.hb_threads[host.id].is_set()] *)
Definition already_running (id : string) (w : window) : bool :=
  match hb_threads w !! id with
  | Some ev => negb (is_set ev w)
  | None => false
  end.

(** [idx] is [self.my_list.currentRow()]. *)
Definition manual_start_heartbeat (idx : Z) (w : window) : result unit * window :=
  if (idx <? 0)%Z then
    (Ok (), show Information "Select" "Select a server in 'My Servers' to heartbeat." w)
  else
    let hosts := load_hosts w in
    match hosts !! Z.to_nat idx with
    | None => (Raise IndexError, w)
    | Some host =>
        if already_running (Host.id host) w then
          (Ok (), show Information "Already Running"
                    "Heartbeat already running for this server." w)
        else
          let '(stop_event, w) := new_event w in
          let w := set_hb_threads (<[Host.id host := stop_event]>) w in
          let w := emit "#ffaa00" w in
          (Ok (), set_threads (λ l, l ++ [Thread host stop_event 0 Checking]) w)
    end.

(** Body of the [for ev in list(self.hb_threads.values())] loop. *)
Definition stop_if_running (acc : bool * window) (ev : nat) : bool * window :=
  let '(any_running, w) := acc in
  if negb (is_set ev w) then (true, ev_set ev w) else (any_running, w).

Definition manual_stop_heartbeat (w : window) : window :=
  let '(any_running, w) :=
    foldl stop_if_running (false, w) (map_to_list (hb_threads w)).*2 in
  let w := set_hb_threads (λ _, ∅) w in
  if (any_running : bool) then
    show Information "Stopped" "All heartbeats stopped." (emit "red" w)
  else
    show Information "No Active Heartbeat" "No heartbeat is currently running." w.

(** The heartbeat part of [closeEvent]. *)
Definition closeEvent (w : window) : window :=
  foldl (λ w ev, ev_set ev w) w (map_to_list (hb_threads w)).*2.

(** *** Heartbeat client ([_hb_loop]) *)

(** How one [requests.post] ends: a response, or an exception (timeout,
    connection error). *)
Inductive attempt : Type :=
| Responded (status_code : Z)
| Raised.

Definition payload (host : Host.t) : record :=
  {[ "name" := JStr (Host.name host);
     "public_ip" := JStr (Host.public_ip host);
     "port" := JNum (inject_Z (Host.port host));
     "map" := JStr (Host.map host) ]}.

(** From the end of the request to the call of [stop_event.wait]: the new
    failure count and the colours emitted. *)
Definition settle (a : attempt) (failures : Z) : Z * list string :=
  let '(failures, lit) :=
    match a with
    | Responded code =>
        if (200 <=? code)%Z && (code <? 300)%Z then (0%Z, ["lime"])
        else ((failures + 1)%Z, [])
    | Raised => ((failures + 1)%Z, [])
    end in
  (failures, lit ++ (if (2 <=? failures)%Z then ["red"] else [])).

(** The loop of one thread, for as long as its event stays clear, on the
    outcomes of its successive requests: the failure count it ends with and
    the colours it has emitted. *)
Definition _hb_loop (outcomes : list attempt) : Z * list string :=
  foldl (λ '(failures, colors) a,
           let '(failures, more) := settle a failures in (failures, colors ++ more))
        (0%Z, []) outcomes.

Definition at_thread (i : nat) (t : thread) (w : window) : window :=
  set_threads (<[i := t]>) w.

(** Thread [i] evaluates [while not stop_event.is_set()]; if the flag is
    clear it builds the payload and issues the request. *)
Definition guard (i : nat) (w : window) : option window :=
  match threads w !! i with
  | Some (Thread host ev failures Checking) =>
      if is_set ev w then Some (at_thread i (Thread host ev failures Finished) w)
      else
        Some (set_posts (λ l, l ++ [(i, clock w, payload host)])
                (at_thread i (Thread host ev failures Posting) w))
  | _ => None
  end.

(** The request of thread [i] ends with [a]; the thread counts, reports
    and enters [stop_event.wait(HEARTBEAT_INTERVAL)]. *)
Definition reply (i : nat) (a : attempt) (w : window) : option window :=
  match threads w !! i with
  | Some (Thread host ev failures Posting) =>
      let '(failures, colors) := settle a failures in
      Some (foldl (λ w c, emit c w)
              (at_thread i (Thread host ev failures (Waiting (clock w))) w) colors)
  | _ => None
  end.

(** [stop_event.wait(HEARTBEAT_INTERVAL)] of thread [i] returns: the flag
    is set, or the interval has elapsed. *)
Definition wake (i : nat) (w : window) : option window :=
  match threads w !! i with
  | Some (Thread host ev failures (Waiting since)) =>
      if is_set ev w || Qle_bool (since + HEARTBEAT_INTERVAL) (clock w) then
        Some (at_thread i (Thread host ev failures Checking) w)
      else None
  | _ => None
  end.

(** What can happen next to a window and its heartbeat threads. *)
Inductive action : Type :=
| Tick (d : Q)                       (* time passes *)
| EditHosts (hosts : list Host.t)    (* hosts.json is rewritten *)
| StartHeartbeat (idx : Z)           (* menu: Start (selected in My Servers) *)
| StopAll                            (* menu: Stop All *)
| Close                              (* the window is closed *)
| Guard (i : nat)
| Reply (i : nat) (a : attempt)
| Wake (i : nat).

Definition step (a : action) (w : window) : option window :=
  match a with
  | Tick d => if Qle_bool 0 d then Some (set_clock (λ t, t + d)%Q w) else None
  | EditHosts hosts => Some (save_hosts hosts w)
  | StartHeartbeat idx => Some (manual_start_heartbeat idx w).2
  | StopAll => Some (manual_stop_heartbeat w)
  | Close => Some (closeEvent w)
  | Guard i => guard i w
  | Reply i a => reply i a w
  | Wake i => wake i w
  end.

Fixpoint run (acts : list action) (w : window) : option window :=
  match acts with
  | [] => Some w
  | a :: acts => w' ← step a w; run acts w'
  end.

(** The window as [__init__] leaves it, at time [t0], with [hosts] on disk. *)
Definition initial (t0 : Q) (hosts : list Host.t) : window :=
  Window ∅ [] [] [] [] [] t0 [] hosts.

End Browser.


(** ** Vocabulary of the registry properties *)




(** A record whose endpoint fields have the wire types: a string address
    and a numeric port. *)
Definition keyed (s : record) : Prop :=
  ∃ ip port, s !! "public_ip" = Some (JStr ip) ∧ s !! "port" = Some (JNum port).

(** A valid announce: the four required fields, endpoint fields of the
    wire types. *)
Definition valid_announce (data : record) : Prop :=
  Forall (λ field, is_Some (data !! field)) Server.required_fields ∧ keyed data.

(** The record carries a server-side timestamp. *)
Definition stamped (s : record) : Prop :=
  ∃ t, s !! "last_seen" = Some (JNum t).

(** The record is the one of endpoint ([ip], [port]), compared as the
    handler compares. *)
Definition at_endpoint (ip : string) (port : Q) (s : record) : bool :=
  match s !! "public_ip", s !! "port" with
  | Some a, Some b => py_eq a (JStr ip) && py_eq b (JNum port)
  | _, _ => false
  end.

(** A sequence of announce calls, each with the clock reading it sees. *)
Definition announce_all (calls : list (Q * record)) (servers : list record) : list record :=
  foldl (λ servers '(now, data), (Server.add_server now data servers).2) servers calls.

(** The stores the service can be in after valid announces, starting from
    the empty list of the module. *)
Inductive reachable_store : list record → Prop :=
| reachable_empty : reachable_store []
| reachable_announce now data servers :
    reachable_store servers → valid_announce data →
    reachable_store (Server.add_server now data servers).2.

(** [ListLive(now)] as the design document words it: the stored records
    with [now - last_seen < 60]. *)
Definition within_window (now : Q) (s : record) : bool :=
  match s !! "last_seen" with
  | Some (JNum t) => Qltb (now - t) 60
  | _ => false
  end.

Inductive request : Type :=
| Announce (now : Q) (data : record)
| List (now : Q).

Definition handle (r : request) (servers : list record)
  : result Server.response * list record :=
  match r with
  | Announce now data => Server.add_server now data servers
  | List now => Server.get_servers now servers
  end.

(** The store after a sequence of requests. *)
Definition serve (reqs : list request) (servers : list record) : list record :=
  foldl (λ servers r, (handle r servers).2) servers reqs.

Definition is_announce (r : request) : bool :=
  match r with
  | Announce _ _ => true
  | List _ => false
  end.

(** Sample payloads: the announce of the design document's scenario, ... *)
Definition announced (name : string) (port : Q) : record :=
  {[ "name" := JStr name; "public_ip" := JStr "1.2.3.4";
     "port" := JNum port; "map" := JStr "District" ]}.


(** ... one that brings a [last_seen] field of its own, ... *)
Definition self_stamped_payload : record :=
  <[ "last_seen" := JStr "yesterday" ]> (announced "Alpha" 7777).

(** ... and one with a field the service does not know. *)
Definition extended_payload : record :=
  <[ "mode" := JStr "koth" ]> (announced "Alpha" 7777).

Definition seen_at (t : Q) : record :=
  {[ "name" := JStr "Alpha"; "public_ip" := JStr "1.2.3.4"; "port" := JNum 7777;
     "map" := JStr "District"; "last_seen" := JNum t ]}.


(** The endpoint of a record with wire-typed endpoint fields. *)
Definition key_of (s : record) : option (string * Q) :=
  match s !! "public_ip", s !! "port" with
  | Some (JStr ip), Some (JNum port) => Some (ip, port)
  | _, _ => None
  end.

(** The handler's comparison of two records, on their endpoints. *)
Definition coincide (s d : record) : bool :=
  match key_of s, key_of d with
  | Some (a, p), Some (b, q) => String.eqb a b && Qeq_bool p q
  | _, _ => false
  end.

(** No two records of the list have the same endpoint. *)
Fixpoint distinct (servers : list record) : Prop :=
  match servers with
  | [] => True
  | s :: rest => Forall (λ s', coincide s s' = false) rest ∧ distinct rest
  end.

(** What every store built by valid announces satisfies. *)
Definition store_ok (servers : list record) : Prop :=
  Forall keyed servers ∧ Forall stamped servers ∧ distinct servers.

(** The record has both endpoint fields, of whatever JSON type. *)
Definition endpointed (s : record) : Prop :=
  is_Some (s !! "public_ip") ∧ is_Some (s !! "port").

(** The payload announces the endpoint ([ip], [port]). *)
Definition carries (ip : string) (port : Q) (data : record) : Prop :=
  data !! "public_ip" = Some (JStr ip) ∧ data !! "port" = Some (JNum port).

(** ** Vocabulary of the heartbeat and launch properties *)

(** A request that counts as a failure: an exception, or a response
    outside the success range. *)
Definition failed (a : Browser.attempt) : Prop :=
  match a with
  | Browser.Responded code => ¬ (200 ≤ code < 300)%Z
  | Browser.Raised => True
  end.

Definition succeeded (a : Browser.attempt) : Prop :=
  match a with
  | Browser.Responded code => (200 ≤ code < 300)%Z
  | Browser.Raised => False
  end.

(** The colours of the heartbeat LED: amber on start, lime when healthy,
    red when degraded (and when stopped). *)
Definition starting : string := "#ffaa00".
Definition healthy : string := "lime".
Definition degraded : string := "red".

(** A configuration whose stored password is ["abc"], and answers of a user
    who selects it and types [pw]. *)
Definition sample_host : Host.t :=
  Host.Build "h1" "Alpha" "1.2.3.4" "192.168.0.2" 7777 "District" "abc" "C:\game.exe".

Definition typing (pw : string) : Browser.answers :=
  Browser.Answers 0 (-1) "" (λ _, true) "" (pw, true) (λ _, None).

(** The windows the application can be in: what some sequence of actions
    makes of the window [__init__] builds. *)
Definition reachable (w : Browser.window) : Prop :=
  ∃ t0 hosts acts, Browser.run acts (Browser.initial t0 hosts) = Some w.

(** The times at which thread [i] has issued an announce, oldest first. *)
Definition post_times (i : nat) (w : Browser.window) : list Q :=
  (λ p, p.1.2) <$> List.filter (λ p, Nat.eqb p.1.1 i) (Browser.posts w).

(** Consecutive times are at least one heartbeat interval apart. *)
Definition spaced (ts : list Q) : Prop :=
  ∀ j a b, ts !! j = Some a → ts !! S j = Some b → (a + Browser.HEARTBEAT_INTERVAL <= b)%Q.

(** The heartbeat loops of identity [id] that have not been cancelled. *)
Definition running_loops (id : string) (w : Browser.window) : nat :=
  length (List.filter
            (λ t, String.eqb (Host.id (Browser.host t)) id
                  && negb (Browser.is_set (Browser.stop_event t) w))
            (Browser.threads w)).

(** [ev.set()] for every [ev] of a list. *)
Definition set_all (refs : list nat) (events : list bool) : list bool :=
  foldl (λ events ev, <[ev := true]> events) events refs.

(** How the session table, the events and the threads hang together:
    thread [i] was started with event [i]; a tracked event belongs to a
    thread of the identity it is tracked under; a thread whose event is
    clear is the one tracked under its identity. *)
Record sup_ok (w : Browser.window) : Prop := SupOk {
  events_threads : length (Browser.events w) = length (Browser.threads w);
  thread_event :
    ∀ i t, Browser.threads w !! i = Some t → Browser.stop_event t = i;
  tracked_owner :
    ∀ id ev, Browser.hb_threads w !! id = Some ev →
             ∃ t, Browser.threads w !! ev = Some t ∧ Host.id (Browser.host t) = id;
  live_tracked :
    ∀ i t, Browser.threads w !! i = Some t → Browser.is_set i w = false →
           Browser.hb_threads w !! Host.id (Browser.host t) = Some i
}.

(** How the announces of thread [i] relate to the clock and to where the
    thread stands. *)
Definition on_time (w : Browser.window) (i : nat) (t : Browser.thread) : Prop :=
  Forall (λ a, (a <= Browser.clock w)%Q) (post_times i w)
  ∧ spaced (post_times i w)
  ∧ ∀ tp, last (post_times i w) = Some tp →
      match Browser.at_phase t with
      | Browser.Checking =>
          Browser.is_set (Browser.stop_event t) w = true
          ∨ (tp + Browser.HEARTBEAT_INTERVAL <= Browser.clock w)%Q
      | Browser.Waiting since => (tp <= since)%Q
      | _ => True
      end.

Definition second_host : Host.t :=
  Host.Build "h2" "Beta" "1.2.3.4" "192.168.0.2" 7778 "District" "" "".

(** Every announce in the log was issued by a started thread. *)
Definition posts_ok (w : Browser.window) : Prop :=
  Forall (λ p, p.1.1 < length (Browser.threads w)) (Browser.posts w).

(** The invariant of the application. *)
Definition window_ok (w : Browser.window) : Prop :=
  sup_ok w ∧ posts_ok w ∧ ∀ i t, Browser.threads w !! i = Some t → on_time w i t.

(** Two windows with the same table, events, threads, log and clock. *)
Definition same_core (w w' : Browser.window) : Prop :=
  Browser.hb_threads w' = Browser.hb_threads w
  ∧ Browser.events w' = Browser.events w
  ∧ Browser.threads w' = Browser.threads w
  ∧ Browser.posts w' = Browser.posts w
  ∧ Browser.clock w' = Browser.clock w.

(** The message boxes of the supervisor. *)
Definition already_running_box : Browser.message :=
  Browser.Message Browser.Information "Already Running"
    "Heartbeat already running for this server.".

Definition stopped_box : Browser.message :=
  Browser.Message Browser.Information "Stopped" "All heartbeats stopped.".

Definition nothing_running_box : Browser.message :=
  Browser.Message Browser.Information "No Active Heartbeat"
    "No heartbeat is currently running.".

(** A window with two heartbeats running, one with a single one that has
    announced once and is waiting. *)
Definition two_sessions : Browser.window :=
  (Browser.manual_start_heartbeat 1
     (Browser.manual_start_heartbeat 0
        (Browser.initial 0 [sample_host; second_host])).2).2.

Definition one_waiting : Browser.window :=
  default (Browser.initial 0 [sample_host])
    (Browser.run [Browser.StartHeartbeat 0; Browser.Guard 0;
                  Browser.Reply 0 (Browser.Responded 200)]
       (Browser.initial 0 [sample_host])).

(** ** Vocabulary of the further properties *)

(** The answers to a sequence of requests, in order. *)
Fixpoint replies (reqs : list request) (servers : list record)
  : list (result Server.response) :=
  match reqs with
  | [] => []
  | r :: reqs => (handle r servers).1 :: replies reqs (handle r servers).2
  end.

(** The answer is a JSON response with status 200 or 400. *)
Definition answered (r : result Server.response) : Prop :=
  ∃ resp, r = Ok resp
          ∧ (Server.status_code resp = 200%Z ∨ Server.status_code resp = 400%Z).

(** The request did not end in a response of the success range. *)
Definition is_failure (a : Browser.attempt) : bool :=
  match a with
  | Browser.Responded code => negb ((200 <=? code)%Z && (code <? 300)%Z)
  | Browser.Raised => true
  end.

(** The number of failures at the head of a list of outcomes, and at its
    end. *)
Fixpoint leading_failures (outcomes : list Browser.attempt) : nat :=
  match outcomes with
  | a :: outcomes => if is_failure a then S (leading_failures outcomes) else 0
  | [] => 0
  end.

Definition trailing_failures (outcomes : list Browser.attempt) : nat :=
  leading_failures (rev outcomes).

(** Two requests in a row failed somewhere in the list. *)
Definition two_in_a_row (outcomes : list Browser.attempt) : Prop :=
  ∃ i a b, outcomes !! i = Some a ∧ outcomes !! S i = Some b
           ∧ is_failure a = true ∧ is_failure b = true.

(** Every logged announce is the payload of the host its thread was
    started with. *)
Definition posts_of_hosts (w : Browser.window) : Prop :=
  ∀ i t p, (i, t, p) ∈ Browser.posts w →
           ∃ th, Browser.threads w !! i = Some th ∧ p = Browser.payload (Browser.host th).

(** The character occurs in the string. *)
Fixpoint has_char (c : Ascii.ascii) (s : string) : bool :=
  match s with
  | EmptyString => false
  | String c' s' => Ascii.eqb c c' || has_char c s'
  end.

(** The box of a failed launch. *)
Definition launch_error_box (e : string) : Browser.message :=
  Browser.Message Browser.Critical "Launch Error" e.

(** Answers of a user who selects the first of "My Servers" and types its
    password, on a system where starting the dedicated server fails. *)
Definition server_fails : Browser.answers :=
  Browser.Answers 0 (-1) "" (λ _, true) "" ("abc", true)
    (λ argv, if bool_decide (argv !! 1 = Some "server") then Some "not found" else None).

(** Answers of a user who selects a row of "Available Servers" showing
    [text] and picks [exe] in the file dialog. *)
Definition joining (text exe : string) : Browser.answers :=
  Browser.Answers (-1) 0 text (λ _, true) exe ("", false) (λ _, None).

(** Answers of a user who selects the first of "My Servers" and picks [exe]
    in the file dialog. *)
Definition picking (exe : string) : Browser.answers :=
  Browser.Answers 0 (-1) "" (λ _, true) exe ("", false) (λ _, None).

(** ** "My Servers": adding, editing and removing configurations *)

Module Crud.

(** What the user answers during one call of [add_server] or
    [edit_or_remove]. *)
Record dialogs : Type := Dialogs {
  action_text : string * bool;        (* getText of "Edit or Remove": (text, ok) *)
  prompt_text : nat → string * bool;  (* getText of the n-th entry of prompts *)
  password_text : string * bool;      (* getText of "Password" *)
  uuid4 : string;                     (* str(uuid.uuid4()) *)
  files : Browser.answers             (* currentRow, file dialog, os.path.exists *)
}.

(** The window together with the rows of its [my_list] widget. *)
Record page : Type := Page {
  window : Browser.window;
  my_list : list string
}.

(** [h.id = id] *)
Definition set_id (id : string) (h : Host.t) : Host.t :=
  Host.Build id (Host.name h) (Host.public_ip h) (Host.local_ip h) (Host.port h)
             (Host.map h) (Host.password h) (Host.exe_path h).

(** The text of a row of [my_list]. *)
Definition row (h : Host.t) : string :=
  let note := if Browser.truthy (Host.exe_path h) then " (EXE set)" else " (EXE not set)" in
  Host.name h +:+ " - " +:+ Host.public_ip h +:+ ":" +:+ pretty (Host.port h)
    +:+ " (map=" +:+ Host.map h +:+ ")" +:+ note.

Definition _refresh_mine (p : page) : page :=
  Page (window p) (row <$> Browser.load_hosts (window p)).

(** [any(h.public_ip == new_host.public_ip and h.port == new_host.port ...)] *)
Definition same_address (new_host h : Host.t) : bool :=
  String.eqb (Host.public_ip h) (Host.public_ip new_host)
  && (Host.port h =? Host.port new_host)%Z.

Section Builtins.

(** [str.strip], [str.lower] and [int] of a string ([None]: [ValueError]). *)
Variable strip lower : string → string.
Variable int : string → option Z.

(** The [for title, msg in prompts] loop of [from_prompt], from the [n]-th
    prompt on, [count] prompts being left. *)
Fixpoint ask (d : dialogs) (n count : nat) : option (list string) :=
  match count with
  | O => Some []
  | S count =>
      let '(text, ok) := prompt_text d n in
      if negb ok || negb (Browser.truthy (strip text)) then None
      else vals ← ask d (S n) count; Some (strip text :: vals)
  end.

Definition from_prompt (d : dialogs) (w : Browser.window) : option Host.t * Browser.window :=
  match ask d 0 5 with
  | Some [name; public_ip; local_ip; port_text; map] =>
      let '(pw, ok) := password_text d in
      if negb ok then (None, w)
      else
        match int port_text with
        | None => (None, Browser.show Browser.Critical "Error" "Port must be an integer." w)
        | Some port =>
            match Browser.choose_exe_path (files d) w with
            | (None, w) => (None, w)
            | (Some exe, w) =>
                (Some (Host.Build (uuid4 d) name public_ip local_ip port map pw exe), w)
            end
        end
  | _ => (None, w)
  end.

Definition add_server (d : dialogs) (p : page) : page :=
  match from_prompt d (window p) with
  | (None, w) => Page w (my_list p)
  | (Some new_host, w) =>
      let hosts := Browser.load_hosts w in
      if existsb (same_address new_host) hosts then
        Page (Browser.show Browser.Warning "Duplicate"
                "A server with the same public IP and port already exists." w)
             (my_list p)
      else
        _refresh_mine (Page (Browser.save_hosts (hosts ++ [new_host]) w) (my_list p))
  end.

Definition edit_or_remove (d : dialogs) (p : page) : result unit * page :=
  let idx := Browser.my_row (files d) in
  let w := window p in
  if (idx <? 0)%Z then
    (Ok (), Page (Browser.show Browser.Information "Select"
                    "Select a server in 'My Servers' first." w) (my_list p))
  else
    let hosts := Browser.load_hosts w in
    match hosts !! Z.to_nat idx with
    | None => (Raise IndexError, p)
    | Some host =>
        let '(action, ok) := action_text d in
        if negb ok then (Ok (), p)
        else
          let action := lower (strip action) in
          if String.eqb action "remove" then
            (Ok (), _refresh_mine
                      (Page (Browser.save_hosts (delete (Z.to_nat idx) hosts) w) (my_list p)))
          else if String.eqb action "path" then
            match Browser.choose_exe_path (files d) w with
            | (None, w) => (Ok (), Page w (my_list p))
            | (Some exe, w) =>
                (Ok (), _refresh_mine
                          (Page (Browser.save_hosts
                                   (<[Z.to_nat idx := Host.set_exe_path exe host]> hosts) w)
                                (my_list p)))
            end
          else if negb (String.eqb action "edit") then
            (Ok (), Page (Browser.show Browser.Information "No Change" "Cancelled." w)
                         (my_list p))
          else
            match from_prompt d w with
            | (None, w) => (Ok (), Page w (my_list p))
            | (Some edited, w) =>
                (Ok (), _refresh_mine
                          (Page (Browser.save_hosts
                                   (<[Z.to_nat idx := set_id (Host.id host) edited]> hosts) w)
                                (my_list p)))
            end
    end.

(** What the user can do with the page: the three buttons and the two
    entries of the heartbeat menu. *)
Inductive click : Type :=
| Add (d : dialogs)
| Edit (d : dialogs)
| Launch (env : Browser.answers)
| Start (idx : Z)
| Stop.

(** The row of [my_list] the handler of a click reads, if it reads one. *)
Definition current_row (c : click) : option Z :=
  match c with
  | Add _ | Stop => None
  | Edit d => Some (Browser.my_row (files d))
  | Launch env => Some (Browser.my_row env)
  | Start idx => Some idx
  end.

Definition press (c : click) (p : page) : result unit * page :=
  match c with
  | Add d => (Ok (), add_server d p)
  | Edit d => edit_or_remove d p
  | Launch env =>
      let '(r, w) := Browser.launch_selected env (window p) in (r, Page w (my_list p))
  | Start idx =>
      let '(r, w) := Browser.manual_start_heartbeat idx (window p) in (r, Page w (my_list p))
  | Stop => (Ok (), Page (Browser.manual_stop_heartbeat (window p)) (my_list p))
  end.

(** The outcomes of the handlers of a sequence of clicks, and the page it
    leaves. *)
Fixpoint outcomes (cs : list click) (p : page) : list (result unit) :=
  match cs with
  | [] => []
  | c :: cs => (press c p).1 :: outcomes cs (press c p).2
  end.

Definition after (cs : list click) (p : page) : page :=
  foldl (λ p c, (press c p).2) p cs.

End Builtins.

(** The page as [__init__] leaves it. *)
Definition opened (w : Browser.window) : page := _refresh_mine (Page w []).

End Crud.

(** The row shows the configuration, up to the note on its executable. *)
Definition shown (r : string) (h : Host.t) : Prop :=
  ∃ exe, r = Crud.row (Host.set_exe_path exe h).

(** Every row of "My Servers" shows the stored configuration at its
    position. *)
Definition in_step (p : Crud.page) : Prop :=
  Forall2 shown (Crud.my_list p) (Browser.hosts_db (Crud.window p)).

(** No two stored configurations have the same public address and port. *)
Definition address (h : Host.t) : string * Z := (Host.public_ip h, Host.port h).

Definition addresses_distinct (hosts : list Host.t) : Prop := NoDup (address <$> hosts).

(** The answers [from_prompt] makes a configuration of: the five prompts
    confirmed and not blank, the password dialog confirmed, a port text
    that [int] reads, and a selected file that exists. *)
Definition accepted (strip : string → string) (int : string → option Z)
           (d : Crud.dialogs) : Prop :=
  (∀ n, (n < 5)%nat →
        (Crud.prompt_text d n).2 = true ∧ strip (Crud.prompt_text d n).1 ≠ "")
  ∧ (Crud.password_text d).2 = true
  ∧ is_Some (int (strip (Crud.prompt_text d 3).1))
  ∧ Browser.open_file (Crud.files d) ≠ ""
  ∧ Browser.path_exists (Crud.files d) (Browser.open_file (Crud.files d)) = true.

(** Every click that reads the selected row of "My Servers" finds it among
    the rows displayed at that moment. *)
Fixpoint selectable (strip lower : string → string) (int : string → option Z)
         (cs : list Crud.click) (p : Crud.page) : Prop :=
  match cs with
  | [] => True
  | c :: cs =>
      (∀ idx, Crud.current_row c = Some idx → (idx < Z.of_nat (length (Crud.my_list p)))%Z)
      ∧ selectable strip lower int cs (Crud.press strip lower int c p).2
  end.

(** [int] on decimal texts, and dialogs of a user who selects row [idx],
    types [action], then a name, [ip], a local address, [port] and a map,
    and picks a file. *)
Definition decimal (s : string) : option Z := Z.of_int <$> NilEmpty.int_of_string s.

Definition filling (idx : Z) (action ip port : string) : Crud.dialogs :=
  Crud.Dialogs (action, true)
    (λ n, (match n with
           | 0 => "Gamma" | 1 => ip | 2 => "192.168.0.9" | 3 => port | _ => "Depot"
           end, true))
    ("pw", true) "h9"
    (Browser.Answers idx (-1) "" (λ _, true) "C:\new.exe" ("", false) (λ _, None)).

(** Two windows with the same heartbeat sessions, announces, clock,
    processes and status colours: they differ at most in the boxes shown and
    the configurations stored. *)
Definition same_sessions (w w' : Browser.window) : Prop :=
  same_core w w'
  ∧ Browser.processes w' = Browser.processes w
  ∧ Browser.hb_color w' = Browser.hb_color w.

(** The box of a rejected duplicate. *)
Definition duplicate_box : Browser.message :=
  Browser.Message Browser.Warning "Duplicate"
    "A server with the same public IP and port already exists.".

(** The configuration [from_prompt] builds from accepted answers whose port
    text reads as [port]. *)
Definition prompted (strip : string → string) (d : Crud.dialogs) (port : Z) : Host.t :=
  Host.Build (Crud.uuid4 d)
    (strip (Crud.prompt_text d 0).1) (strip (Crud.prompt_text d 1).1)
    (strip (Crud.prompt_text d 2).1) port (strip (Crud.prompt_text d 4).1)
    (Crud.password_text d).1 (Browser.open_file (Crud.files d)).
(** * Properties *)

(** ** Registry *)

Lemma Qltb_lt (x y : Q) : Qltb x y = true ↔ (x < y)%Q.
Proof.
  unfold Qltb. rewrite negb_true_iff, <- not_true_iff_false, Qle_bool_iff.
  split; [apply Qnot_le_lt | apply Qlt_not_le].
Qed.

Lemma contains_spec (d : record) (k : string) :
  Server.contains d k = true ↔ is_Some (d !! k).
Proof. unfold Server.contains. apply bool_decide_eq_true. Qed.

Lemma required_present (d : record) :
  forallb (Server.contains d) Server.required_fields = true
  ↔ Forall (λ field, is_Some (d !! field)) Server.required_fields.
Proof.
  rewrite forallb_forall, Forall_forall.
  split; intros H k Hk; [apply contains_spec | apply contains_spec]; apply H;
    by apply list_elem_of_In.
Qed.




Lemma fresh_stamped (now t : Q) (s : record) :
  s !! "last_seen" = Some (JNum t) → Server.fresh now s = Ok (Qltb (now - t) 60).
Proof. intros H. unfold Server.fresh, Server.get. by rewrite H. Qed.

Lemma fresh_within_window (now : Q) (s : record) :
  stamped s → Server.fresh now s = Ok (within_window now s).
Proof.
  intros [t Ht]. rewrite (fresh_stamped now t s Ht). unfold within_window. by rewrite Ht.
Qed.

Lemma fresh_servers_filter (now : Q) (servers : list record) :
  Forall stamped servers →
  Server.fresh_servers now servers = Ok (List.filter (within_window now) servers).
Proof.
  induction 1 as [|s rest Hs _ IH]; [done|].
  simpl. rewrite (fresh_within_window now s Hs). simpl. rewrite IH. simpl.
  by destruct (within_window now s).
Qed.

Lemma within_window_lt (now t : Q) (s : record) :
  s !! "last_seen" = Some (JNum t) → within_window now s = true ↔ (now - t < 60)%Q.
Proof. intros H. unfold within_window. rewrite H. apply Qltb_lt. Qed.

Lemma get_servers_stamped (now : Q) (servers : list record) :
  Forall stamped servers →
  (Server.get_servers now servers).1
  = Ok (Server.Response (Server.JsonList (List.filter (within_window now) servers)) 200).
Proof.
  intros Hst. unfold Server.get_servers. simpl.
  by rewrite (fresh_servers_filter now servers Hst).
Qed.

Lemma within_window_elem (now t : Q) (s : record) (servers : list record) :
  s ∈ servers → s !! "last_seen" = Some (JNum t) →
  s ∈ List.filter (within_window now) servers ↔ (now - t < 60)%Q.
Proof.
  intros Hin Ht.
  rewrite list_elem_of_In, filter_In, <- list_elem_of_In, (within_window_lt now t s Ht).
  tauto.
Qed.

(** C2: a list request at time [now] answers with exactly the stored
    records whose [now - last_seen] is strictly below 60: a record seen 61
    seconds ago is absent, one seen 59 seconds ago is present, one seen
    exactly 60 seconds ago is absent. *)
Theorem list_live_strict_window (now : Q) (servers : list record) :
  Forall stamped servers →
  (Server.get_servers now servers).1
  = Ok (Server.Response (Server.JsonList (List.filter (within_window now) servers)) 200)
  ∧ ∀ (s : record) (t : Q),
      s ∈ servers → s !! "last_seen" = Some (JNum t) →
      (s ∈ List.filter (within_window now) servers ↔ (now - t < 60)%Q)
      ∧ ((t == now - 61)%Q → s ∉ List.filter (within_window now) servers)
      ∧ ((t == now - 59)%Q → s ∈ List.filter (within_window now) servers)
      ∧ ((t == now - 60)%Q → s ∉ List.filter (within_window now) servers).
Proof.
  intros Hst. split; [by apply get_servers_stamped|].
  intros s t Hin Ht. pose proof (within_window_elem now t s servers Hin Ht) as Hiff.
  split; [exact Hiff|]. rewrite Hiff.
  repeat split; intros Heq; rewrite Heq; lra.
Qed.

Lemma list_live_strict_window_witness :
  (Server.get_servers 1000 [seen_at 939; seen_at 941; seen_at 940]).1
  = Ok (Server.Response (Server.JsonList [seen_at 941]) 200).
Proof.
  refine (eq_trans (proj1 (list_live_strict_window 1000
                             [seen_at 939; seen_at 941; seen_at 940] _)) _).
  - repeat constructor; eexists; reflexivity.
  - reflexivity.
Defined.

(** C9: a list request leaves the store exactly as it found it, so no
    record (and no [last_seen]) changes; however list requests are
    interleaved with announces, the store ends as if they had not been
    made. *)
Theorem list_is_read_only (now : Q) (servers : list record) :
  (Server.get_servers now servers).2 = servers
  ∧ (∀ (i : nat) (s : record),
       servers !! i = Some s →
       (Server.get_servers now servers).2 !! i = Some s
       ∧ ((Server.get_servers now servers).2 !! i ≫= (.!! "last_seen")) = s !! "last_seen")
  ∧ ∀ reqs : list request,
      serve reqs servers = serve (List.filter is_announce reqs) servers.
Proof.
  split; [done|]. split.
  - intros i s Hi. simpl. rewrite Hi. done.
  - intros reqs. revert servers. induction reqs as [|r reqs IH]; intros servers; [done|].
    destruct r as [t d|t]; simpl.
    + apply IH.
    + apply IH.
Qed.

(** The scenario of the design document: Alpha announces on port 7777 at
    time 100 and on port 7778 at time 130; a list at 140 shows both records,
    a list at 165 only the second. *)
Example scenario_two_ports_then_expiry :
  let servers :=
    announce_all [(100%Q, announced "Alpha" 7777); (130%Q, announced "Alpha" 7778)] [] in
  (Server.get_servers 140 servers).1
  = Ok (Server.Response
          (Server.JsonList [<["last_seen" := JNum 100]> (announced "Alpha" 7777);
                            <["last_seen" := JNum 130]> (announced "Alpha" 7778)]) 200)
  ∧ (Server.get_servers 165 servers).1
    = Ok (Server.Response
            (Server.JsonList [<["last_seen" := JNum 130]> (announced "Alpha" 7778)]) 200).
Proof. split; reflexivity. Qed.

(** *** One record per endpoint *)

Lemma keyed_key_of (s : record) : keyed s ↔ is_Some (key_of s).
Proof.
  unfold keyed, key_of. split.
  - intros (ip & port & -> & ->). eauto.
  - intros [[ip port] H].
    destruct (s !! "public_ip") as [[]|]; try discriminate.
    destruct (s !! "port") as [[]|]; try discriminate. eauto.
Qed.

Lemma key_of_Some (s : record) (ip : string) (port : Q) :
  key_of s = Some (ip, port)
  ↔ s !! "public_ip" = Some (JStr ip) ∧ s !! "port" = Some (JNum port).
Proof.
  unfold key_of. split.
  - destruct (s !! "public_ip") as [[]|]; try discriminate.
    destruct (s !! "port") as [[]|]; try discriminate. by intros [= -> ->].
  - by intros [-> ->].
Qed.

Lemma same_endpoint_keyed (s d : record) :
  keyed s → keyed d → Server.same_endpoint s d = Ok (coincide s d).
Proof.
  intros (a & p & Ha & Hp) (b & q & Hb & Hq).
  unfold Server.same_endpoint, Server.getitem, coincide.
  rewrite (proj2 (key_of_Some s a p)), (proj2 (key_of_Some d b q)) by done.
  rewrite Ha, Hb. simpl. destruct (String.eqb a b); simpl; [|done].
  by rewrite Hp, Hq.
Qed.

Lemma coincide_refl (s : record) : keyed s → coincide s s = true.
Proof.
  intros [[a p] H]%keyed_key_of. unfold coincide. rewrite H.
  by rewrite String.eqb_refl, Qeq_bool_refl.
Qed.

Lemma coincide_sym (s d : record) : coincide s d = coincide d s.
Proof.
  unfold coincide. destruct (key_of s) as [[a p]|], (key_of d) as [[b q]|]; try done.
  by rewrite String.eqb_sym, Qeq_bool_comm.
Qed.

Lemma coincide_trans (s d e : record) :
  coincide s d = true → coincide d e = true → coincide s e = true.
Proof.
  unfold coincide.
  destruct (key_of s) as [[a p]|], (key_of d) as [[b q]|], (key_of e) as [[c r]|];
    try done.
  rewrite !andb_true_iff, !String.eqb_eq.
  intros [-> Hpq] [-> Hqr]. split; [done|]. by eapply Qeq_bool_trans.
Qed.

(** Records with the same endpoint compare alike with every third one. *)
Lemma coincide_congr (s d x : record) :
  coincide s d = true → coincide s x = coincide d x.
Proof.
  intros H. destruct (coincide d x) eqn:Hd.
  - by eapply coincide_trans.
  - destruct (coincide s x) eqn:Hs; [|done].
    rewrite <- Hd. symmetry. eapply coincide_trans; [|exact Hs].
    by rewrite coincide_sym.
Qed.

Lemma coincide_key (s d d' : record) :
  key_of d = key_of d' → coincide s d = coincide s d'.
Proof. unfold coincide. by intros ->. Qed.

Lemma at_endpoint_coincide (ip : string) (port : Q) (s d : record) :
  keyed s → key_of d = Some (ip, port) → at_endpoint ip port s = coincide s d.
Proof.
  intros (a & p & Ha & Hp) Hd. unfold at_endpoint, coincide.
  rewrite (proj2 (key_of_Some s a p)), Hd by done. by rewrite Ha, Hp.
Qed.

Lemma key_of_stamp (now : Q) (d : record) :
  key_of (<["last_seen" := JNum now]> d) = key_of d.
Proof. unfold key_of. by rewrite !lookup_insert_ne. Qed.

Lemma lookup_refresh_payload (now : Q) (data s : record) (k : string) :
  k ≠ "last_seen" → is_Some (data !! k) → Server.refresh now data s !! k = data !! k.
Proof.
  intros Hk [v Hv]. unfold Server.refresh.
  rewrite lookup_insert_ne by done. rewrite Hv. by apply lookup_union_Some_l.
Qed.

Lemma lookup_refresh_kept (now : Q) (data s : record) (k : string) :
  k ≠ "last_seen" → data !! k = None → Server.refresh now data s !! k = s !! k.
Proof.
  intros Hk Hv. unfold Server.refresh.
  rewrite lookup_insert_ne by done. by apply lookup_union_r.
Qed.

Lemma lookup_refresh_last_seen (now : Q) (data s : record) :
  Server.refresh now data s !! "last_seen" = Some (JNum now).
Proof. unfold Server.refresh. apply lookup_insert_eq. Qed.

Lemma key_of_refresh (now : Q) (data s : record) :
  keyed data → key_of (Server.refresh now data s) = key_of data.
Proof.
  intros (a & p & Ha & Hp). unfold key_of.
  rewrite !lookup_refresh_payload by (done || eauto). done.
Qed.

Lemma keyed_endpointed (s : record) : keyed s → endpointed s.
Proof. intros (a & p & Ha & Hp). split; eauto. Qed.

Lemma required_endpointed (d : record) :
  Forall (λ field, is_Some (d !! field)) Server.required_fields → endpointed d.
Proof.
  rewrite Forall_forall. intros H.
  split; apply H; unfold Server.required_fields; set_solver.
Qed.

Lemma same_endpoint_total (s d : record) :
  endpointed s → endpointed d → ∃ b, Server.same_endpoint s d = Ok b.
Proof.
  intros [[a Ha] [p Hp]] [[b Hb] [q Hq]].
  unfold Server.same_endpoint, Server.getitem. rewrite Ha, Hb, Hp, Hq. simpl.
  destruct (py_eq a b); simpl; eauto.
Qed.

(** The loop of [add_server] either finds no record of the payload's
    endpoint, or rewrites the first one in place. *)
Lemma update_existing_cases (now : Q) (d : record) (servers : list record) :
  Forall endpointed servers → endpointed d →
  (Server.update_existing now d servers = Ok None
   ∧ Forall (λ x, Server.same_endpoint x d = Ok false) servers)
  ∨ ∃ pre s post,
      servers = pre ++ s :: post
      ∧ Forall (λ x, Server.same_endpoint x d = Ok false) pre
      ∧ Server.same_endpoint s d = Ok true
      ∧ Server.update_existing now d servers
        = Ok (Some (pre ++ Server.refresh now d s :: post)).
Proof.
  intros Hall Hd. induction Hall as [|s rest Hs _ IH]; [left; by split|].
  destruct (same_endpoint_total s d Hs Hd) as [[|] Hb].
  - right. exists [], s, rest. simpl. rewrite Hb. by repeat split.
  - destruct IH as [[Hnone Hrest]|(pre & s' & post & -> & Hpre & Hhit & Hupd)].
    + left. simpl. rewrite Hb. simpl. rewrite Hnone. split; [done|]. by constructor.
    + right. exists (s :: pre), s', post. simpl. rewrite Hb. simpl. rewrite Hupd.
      repeat split; try done. by constructor.
Qed.

Lemma add_server_accepts (now : Q) (d : record) (servers : list record) :
  Forall endpointed servers →
  Forall (λ field, is_Some (d !! field)) Server.required_fields →
  (Server.add_server now d servers
   = (Ok Server.registered, servers ++ [<["last_seen" := JNum now]> d])
   ∧ Forall (λ x, Server.same_endpoint x d = Ok false) servers)
  ∨ ∃ pre s post,
      servers = pre ++ s :: post
      ∧ Forall (λ x, Server.same_endpoint x d = Ok false) pre
      ∧ Server.same_endpoint s d = Ok true
      ∧ Server.add_server now d servers
        = (Ok Server.registered, pre ++ Server.refresh now d s :: post).
Proof.
  intros Hall Hreq. unfold Server.add_server.
  rewrite (proj2 (required_present d) Hreq).
  destruct (update_existing_cases now d servers Hall (required_endpointed d Hreq))
    as [[-> Hrest]|(pre & s & post & -> & Hpre & Hhit & ->)].
  - left. by split.
  - right. exists pre, s, post. by repeat split.
Qed.

Lemma endpointed_stamp (now : Q) (d : record) :
  endpointed d → endpointed (<["last_seen" := JNum now]> d).
Proof. unfold endpointed. by rewrite !lookup_insert_ne. Qed.

Lemma endpointed_refresh (now : Q) (d s : record) :
  endpointed d → endpointed (Server.refresh now d s).
Proof.
  intros [Ha Hp]. unfold endpointed.
  rewrite !lookup_refresh_payload by done. by split.
Qed.

Lemma stamped_stamp (now : Q) (d : record) : stamped (<["last_seen" := JNum now]> d).
Proof. exists now. apply lookup_insert_eq. Qed.

Lemma stamped_refresh (now : Q) (d s : record) : stamped (Server.refresh now d s).
Proof. exists now. apply lookup_refresh_last_seen. Qed.

(** Whatever is announced, stored records keep both endpoint fields and a
    numeric timestamp. *)
Lemma add_server_shape (now : Q) (d : record) (servers : list record) :
  Forall endpointed servers → Forall stamped servers →
  Forall endpointed (Server.add_server now d servers).2
  ∧ Forall stamped (Server.add_server now d servers).2.
Proof.
  intros He Hs.
  destruct (forallb (Server.contains d) Server.required_fields) eqn:Hreq.
  - apply required_present in Hreq.
    destruct (add_server_accepts now d servers He Hreq)
      as [[-> _]|(pre & s & post & -> & _ & _ & ->)]; simpl.
    + split; apply Forall_app; split; try done; apply Forall_singleton.
      * by apply endpointed_stamp, required_endpointed.
      * apply stamped_stamp.
    + apply Forall_app in He as [He1 He2]. apply Forall_app in Hs as [Hs1 Hs2].
      apply Forall_cons in He2 as [_ He2]. apply Forall_cons in Hs2 as [_ Hs2].
      split; apply Forall_app; split; try done; constructor; try done.
      * by apply endpointed_refresh, required_endpointed.
      * apply stamped_refresh.
  - unfold Server.add_server. rewrite Hreq. by split.
Qed.

Lemma distinct_app (l1 l2 : list record) :
  distinct (l1 ++ l2)
  ↔ distinct l1 ∧ distinct l2 ∧ Forall (λ x, Forall (λ y, coincide x y = false) l2) l1.
Proof.
  induction l1 as [|s l1 IH]; simpl.
  - split; [intros H; repeat split; done | tauto].
  - rewrite IH, Forall_app, Forall_cons. tauto.
Qed.

Lemma filter_none {A} (f : A → bool) (l : list A) :
  Forall (λ x, f x = false) l → List.filter f l = [].
Proof. induction 1 as [|x l Hx _ IH]; simpl; [done|]. by rewrite Hx. Qed.

Lemma filter_comm {A} (f g : A → bool) (l : list A) :
  List.filter f (List.filter g l) = List.filter g (List.filter f l).
Proof.
  induction l as [|x l IH]; simpl; [done|].
  destruct (g x) eqn:Hg, (f x) eqn:Hf; simpl; rewrite ?Hg, ?Hf, IH; done.
Qed.

Lemma filter_ext_Forall {A} (f g : A → bool) (l : list A) :
  Forall (λ x, f x = g x) l → List.filter f l = List.filter g l.
Proof. induction 1 as [|x l Hx _ IH]; simpl; [done|]. by rewrite Hx, IH. Qed.

(** In a store without duplicates at most one record has a given endpoint. *)
Lemma distinct_filter_le_1 (d : record) (servers : list record) :
  distinct servers → (length (List.filter (λ s, coincide s d) servers) ≤ 1)%nat.
Proof.
  induction servers as [|s rest IH]; simpl; [lia|].
  intros [Hs Hrest]. destruct (coincide s d) eqn:Hsd; [|by apply IH].
  simpl. rewrite filter_none; [simpl; lia|].
  eapply Forall_impl; [exact Hs|]. intros x Hx. simpl in Hx.
  rewrite coincide_sym, <- (coincide_congr s d x Hsd). done.
Qed.

(** A valid announce keeps the store well formed and leaves exactly one
    record at its endpoint: the payload's fields under a fresh timestamp. *)
Lemma add_server_valid (now : Q) (d : record) (servers : list record) :
  store_ok servers → valid_announce d →
  ∃ r,
    (Server.add_server now d servers).1 = Ok Server.registered
    ∧ store_ok (Server.add_server now d servers).2
    ∧ List.filter (λ s, coincide s d) (Server.add_server now d servers).2 = [r]
    ∧ (∀ k, k ≠ "last_seen" → is_Some (d !! k) → r !! k = d !! k)
    ∧ r !! "last_seen" = Some (JNum now).
Proof.
  intros (Hk & Hst & Hdis) [Hreq Hkd].
  assert (Forall endpointed servers) as He.
  { eapply Forall_impl; [exact Hk|]. apply keyed_endpointed. }
  assert (∀ x, keyed x → Server.same_endpoint x d = Ok false → coincide x d = false) as Hno.
  { intros x Hx. rewrite (same_endpoint_keyed x d Hx Hkd). congruence. }
  destruct (add_server_accepts now d servers He Hreq)
    as [[-> Hrest]|(pre & s & post & -> & Hpre & Hhit & ->)]; simpl.
  - assert (Forall (λ x, coincide x d = false) servers) as Hrest'.
    { rewrite Forall_forall in *. intros x Hx. apply Hno; auto. }
    pose proof (key_of_stamp now d) as Hkey.
    assert (keyed (<["last_seen" := JNum now]> d)) as Hkd'.
    { apply keyed_key_of. rewrite Hkey. by apply keyed_key_of. }
    exists (<["last_seen" := JNum now]> d). split; [done|]. split; [|split; [|split]].
    + split; [|split].
      * apply Forall_app. split; [done|]. by apply Forall_singleton.
      * apply Forall_app. split; [done|]. apply Forall_singleton, stamped_stamp.
      * apply distinct_app. split; [done|]. split; [simpl; by split|].
        eapply Forall_impl; [exact Hrest'|]. intros x Hx. simpl in Hx.
        apply Forall_singleton. by rewrite (coincide_key x _ d Hkey).
    + rewrite List.filter_app, (filter_none _ servers Hrest'). simpl.
      rewrite coincide_sym, (coincide_key d _ d Hkey), coincide_refl by done. done.
    + intros k Hkne _. by rewrite lookup_insert_ne.
    + apply lookup_insert_eq.
  - apply Forall_app in Hk as [Hk1 Hk2]. apply Forall_cons in Hk2 as [Hks Hk2].
    apply Forall_app in Hst as [Hst1 Hst2]. apply Forall_cons in Hst2 as [_ Hst2].
    apply distinct_app in Hdis as (Hd1 & [Hds Hd2] & Hcross).
    rewrite (same_endpoint_keyed s d Hks Hkd) in Hhit. injection Hhit as Hsd.
    assert (Forall (λ x, coincide x d = false) pre) as Hpre'.
    { rewrite Forall_forall in *. intros x Hx. apply Hno; auto. }
    pose proof (key_of_refresh now d s Hkd) as Hkey.
    assert (keyed (Server.refresh now d s)) as Hkr.
    { apply keyed_key_of. rewrite Hkey. by apply keyed_key_of. }
    assert (∀ x, coincide (Server.refresh now d s) x = coincide s x) as Hsame.
    { intros x. rewrite (coincide_sym _ x), (coincide_key x _ d Hkey), (coincide_sym x d).
      symmetry. by apply coincide_congr. }
    exists (Server.refresh now d s). split; [done|]. split; [|split; [|split]].
    + split; [|split].
      * apply Forall_app. split; [done|]. by constructor.
      * apply Forall_app. split; [done|]. constructor; [apply stamped_refresh | done].
      * apply distinct_app. split; [done|]. split.
        -- simpl. split; [|done]. eapply Forall_impl; [exact Hds|].
           intros x Hx. simpl in Hx. by rewrite Hsame.
        -- eapply Forall_impl; [exact Hcross|]. intros x Hx. simpl in Hx.
           apply Forall_cons in Hx as [Hxs Hx]. constructor; [|done].
           by rewrite coincide_sym, Hsame, coincide_sym.
    + rewrite List.filter_app, (filter_none _ pre Hpre'). simpl.
      rewrite Hsame, Hsd.
      rewrite filter_none; [done|]. eapply Forall_impl; [exact Hds|].
      intros x Hx. simpl in Hx.
      by rewrite coincide_sym, <- (coincide_congr s d x Hsd).
    + intros k Hkne Hin. by apply lookup_refresh_payload.
    + apply lookup_refresh_last_seen.
Qed.

Lemma reachable_store_ok (servers : list record) :
  reachable_store servers → store_ok servers.
Proof.
  induction 1 as [|now data servers _ IH Hv].
  - by repeat split.
  - by destruct (add_server_valid now data servers IH Hv) as (r & _ & Hok & _).
Qed.

Lemma announce_all_snoc (calls : list (Q * record)) (t : Q) (d : record)
      (servers : list record) :
  announce_all (calls ++ [(t, d)]) servers
  = (Server.add_server t d (announce_all calls servers)).2.
Proof. unfold announce_all. by rewrite foldl_app. Qed.

Lemma announce_all_ok (calls : list (Q * record)) (servers : list record) :
  store_ok servers → Forall (λ c, valid_announce c.2) calls →
  store_ok (announce_all calls servers).
Proof.
  intros Hok Hall. revert servers Hok.
  induction Hall as [|[t d] calls Hd _ IH]; intros servers Hok; [done|].
  simpl. apply IH.
  by destruct (add_server_valid t d servers Hok Hd) as (r & _ & Hok' & _).
Qed.

Lemma at_endpoint_filter (ip : string) (port : Q) (d : record) (servers : list record) :
  Forall keyed servers → carries ip port d →
  List.filter (at_endpoint ip port) servers = List.filter (λ s, coincide s d) servers.
Proof.
  intros Hk Hd. apply filter_ext_Forall.
  eapply Forall_impl; [exact Hk|]. intros x Hx. simpl.
  apply at_endpoint_coincide; [done|]. by apply key_of_Some.
Qed.

(** C1: from any store the service can be in, a run of valid announces that
    all carry the endpoint ([ip], [port]) keeps at most one record of that
    endpoint after every call, and a list request made within the window
    of the last call returns exactly one record of that endpoint, with the
    [name], [map] and timestamp of the last call. *)
Theorem same_endpoint_announces_one_record
        (ip : string) (port : Q) (servers : list record)
        (calls : list (Q * record)) (t : Q) (d : record) (now : Q) :
  reachable_store servers →
  Forall (λ c, valid_announce c.2 ∧ carries ip port c.2) (calls ++ [(t, d)]) →
  (∀ pre, pre `prefix_of` calls ++ [(t, d)] →
      (length (List.filter (at_endpoint ip port) (announce_all pre servers)) ≤ 1)%nat)
  ∧ ((now - t < 60)%Q →
     ∃ l r,
       (Server.get_servers now (announce_all (calls ++ [(t, d)]) servers)).1
       = Ok (Server.Response (Server.JsonList l) 200)
       ∧ List.filter (at_endpoint ip port) l = [r]
       ∧ r !! "name" = d !! "name"
       ∧ r !! "map" = d !! "map"
       ∧ r !! "last_seen" = Some (JNum t)).
Proof.
  intros Hreach Hall.
  pose proof (reachable_store_ok servers Hreach) as Hok.
  assert (valid_announce d ∧ carries ip port d) as [Hvd Hcd].
  { apply Forall_app in Hall as [_ Hd]. rewrite Forall_singleton in Hd. exact Hd. }
  split.
  - intros pre [suf Hpre].
    assert (store_ok (announce_all pre servers)) as (Hk & _ & Hdis).
    { apply announce_all_ok; [done|]. rewrite Hpre in Hall.
      apply Forall_app in Hall as [Hall _].
      eapply Forall_impl; [exact Hall|]. intros c [Hc _]. exact Hc. }
    rewrite (at_endpoint_filter ip port d _ Hk Hcd). by apply distinct_filter_le_1.
  - intros Hnow. rewrite announce_all_snoc.
    assert (store_ok (announce_all calls servers)) as Hok'.
    { apply announce_all_ok; [done|]. apply Forall_app in Hall as [Hall _].
      eapply Forall_impl; [exact Hall|]. intros c [Hc _]. exact Hc. }
    destruct (add_server_valid t d _ Hok' Hvd) as (r & _ & (Hk & Hst & _) & Hone & Hpay & Hls).
    pose proof (get_servers_stamped now _ Hst) as Hget.
    exists (List.filter (within_window now) (Server.add_server t d (announce_all calls servers)).2), r.
    split; [exact Hget|]. destruct Hvd as [Hreq _]. rewrite Forall_forall in Hreq.
    split; [|split; [|split]].
    + rewrite filter_comm, (at_endpoint_filter ip port d _ Hk Hcd), Hone. simpl.
      by rewrite (proj2 (within_window_lt now t r Hls) Hnow).
    + apply Hpay; [done|]. apply Hreq. unfold Server.required_fields. set_solver.
    + apply Hpay; [done|]. apply Hreq. unfold Server.required_fields. set_solver.
    + done.
Qed.

Lemma same_endpoint_announces_one_record_witness :
  ∃ l r,
    (Server.get_servers 120
       (announce_all ([(100%Q, announced "Alpha" 7777)] ++ [(110%Q, announced "Beta" 7777)]) [])).1
    = Ok (Server.Response (Server.JsonList l) 200)
    ∧ List.filter (at_endpoint "1.2.3.4" 7777) l = [r]
    ∧ r !! "name" = announced "Beta" 7777 !! "name"
    ∧ r !! "map" = announced "Beta" 7777 !! "map"
    ∧ r !! "last_seen" = Some (JNum 110).
Proof.
  refine (proj2 (same_endpoint_announces_one_record "1.2.3.4" 7777%Q []
                   [(100%Q, announced "Alpha" 7777)] 110%Q (announced "Beta" 7777) 120%Q
                   reachable_empty _) _).
  - repeat constructor; simpl; try (eexists; reflexivity).
    + exists "1.2.3.4", 7777%Q. by split.
    + exists "1.2.3.4", 7777%Q. by split.
  - reflexivity.
Defined.

(** *** Extra payload fields *)

(** C10 (as amended): an announce with the four required fields is accepted
    whatever else it carries; the record stored for it holds every payload
    field other than [last_seen] verbatim and the server clock as
    [last_seen]; when it overwrites a record, the fields of the old record
    that the payload does not mention are kept; and a list request within
    the window returns that record as stored, extra fields and [last_seen]
    included. *)
Theorem announce_stores_payload_fields (now : Q) (d : record) (servers : list record) :
  Forall endpointed servers → Forall stamped servers →
  Forall (λ field, is_Some (d !! field)) Server.required_fields →
  ∃ r,
    (Server.add_server now d servers).1 = Ok Server.registered
    ∧ ((Server.add_server now d servers).2 = servers ++ [r]
         ∧ r = <["last_seen" := JNum now]> d
       ∨ ∃ pre old post,
           servers = pre ++ old :: post
           ∧ (Server.add_server now d servers).2 = pre ++ r :: post
           ∧ r = <["last_seen" := JNum now]> (d ∪ old)
           ∧ ∀ k, k ≠ "last_seen" → d !! k = None → r !! k = old !! k)
    ∧ (∀ k, k ≠ "last_seen" → is_Some (d !! k) → r !! k = d !! k)
    ∧ r !! "last_seen" = Some (JNum now)
    ∧ ∀ now', (now' - now < 60)%Q →
        ∃ l, (Server.get_servers now' (Server.add_server now d servers).2).1
             = Ok (Server.Response (Server.JsonList l) 200)
             ∧ r ∈ l.
Proof.
  intros He Hst Hreq.
  destruct (add_server_shape now d servers He Hst) as [_ Hst'].
  assert (∀ r now', r ∈ (Server.add_server now d servers).2 →
                    r !! "last_seen" = Some (JNum now) → (now' - now < 60)%Q →
            ∃ l, (Server.get_servers now' (Server.add_server now d servers).2).1
                 = Ok (Server.Response (Server.JsonList l) 200) ∧ r ∈ l) as Hlist.
  { intros r now' Hin Hls Hnow.
    eexists. split; [by apply get_servers_stamped|].
    by apply (within_window_elem now' now r _ Hin Hls). }
  destruct (add_server_accepts now d servers He Hreq)
    as [[Hadd _]|(pre & s & post & Hsplit & _ & _ & Hadd)].
  - exists (<["last_seen" := JNum now]> d). rewrite Hadd in Hlist |- *. simpl in *.
    split; [done|]. split; [by left|].
    split; [intros k Hk _; by rewrite lookup_insert_ne|].
    split; [apply lookup_insert_eq|].
    intros now' Hnow. apply Hlist; [set_solver | apply lookup_insert_eq | done].
  - exists (Server.refresh now d s). rewrite Hadd in Hlist |- *. simpl in *.
    split; [done|]. split.
    { right. exists pre, s, post. repeat split; try done.
      intros k Hk Hnone. by apply lookup_refresh_kept. }
    split; [intros k Hk Hin; by apply lookup_refresh_payload|].
    split; [apply lookup_refresh_last_seen|].
    intros now' Hnow. apply Hlist; [set_solver | apply lookup_refresh_last_seen | done].
Qed.

Lemma announce_stores_payload_fields_witness :
  ∃ r,
    (Server.add_server 110 extended_payload [seen_at 100]).1 = Ok Server.registered
    ∧ (Server.add_server 110 extended_payload [seen_at 100]).2 = [r]
    ∧ r !! "mode" = Some (JStr "koth")
    ∧ r !! "last_seen" = Some (JNum 110).
Proof.
  assert (Forall endpointed [seen_at 100]) as He.
  { apply Forall_singleton. split; eexists; reflexivity. }
  assert (Forall stamped [seen_at 100]) as Hst.
  { apply Forall_singleton. eexists; reflexivity. }
  assert (Forall (λ field, is_Some (extended_payload !! field)) Server.required_fields)
    as Hreq.
  { repeat constructor; eexists; reflexivity. }
  destruct (announce_stores_payload_fields 110 extended_payload [seen_at 100] He Hst Hreq)
    as (r & Hresp & Hstore & Hpay & Hls & _).
  exists r. split; [exact Hresp|]. split; [|split; [|exact Hls]].
  - destruct Hstore as [[Hs _]|(pre & old & post & Hsplit & Hs & _)].
    + vm_compute in Hs. discriminate.
    + rewrite Hs. destruct pre as [|x [|y pre]]; try discriminate.
      injection Hsplit as _ <-. done.
  - rewrite Hpay; [reflexivity | done | eexists; reflexivity].
Defined.

(** C10 (as stated) fails on a payload that has a [last_seen] field: no
    stored record holds all its fields verbatim, the timestamp replaces
    the field. *)
Lemma announce_replaces_payload_last_seen :
  ¬ ∃ r, r ∈ (Server.add_server 0 self_stamped_payload []).2
         ∧ ∀ k, is_Some (self_stamped_payload !! k) → r !! k = self_stamped_payload !! k.
Proof.
  intros (r & Hin & Hall).
  assert ((Server.add_server 0 self_stamped_payload []).2
          = [<["last_seen" := JNum 0]> self_stamped_payload]) as Hs by reflexivity.
  rewrite Hs in Hin. apply list_elem_of_singleton in Hin as ->.
  specialize (Hall "last_seen"). rewrite lookup_insert_eq in Hall.
  unfold self_stamped_payload in Hall. rewrite lookup_insert_eq in Hall.
  by specialize (Hall (ltac:(eauto))).
Qed.

(** ** Heartbeat client: health reporting *)

Lemma settle_failed (a : Browser.attempt) (failures : Z) :
  failed a →
  Browser.settle a failures
  = ((failures + 1)%Z, if (2 <=? failures + 1)%Z then [degraded] else []).
Proof.
  unfold Browser.settle. destruct a as [code|]; simpl; [|done]. intros Hc.
  destruct ((200 <=? code)%Z && (code <? 300)%Z) eqn:E; [|done].
  apply andb_true_iff in E as [?%Z.leb_le ?%Z.ltb_lt]. lia.
Qed.

Lemma settle_succeeded (a : Browser.attempt) (failures : Z) :
  succeeded a → Browser.settle a failures = (0%Z, [healthy]).
Proof.
  unfold Browser.settle. destruct a as [code|]; simpl; [|done]. intros [H1 H2].
  apply Z.leb_le in H1. apply Z.ltb_lt in H2. by rewrite H1, H2.
Qed.

Lemma hb_loop_snoc (outcomes : list Browser.attempt) (a : Browser.attempt) :
  Browser._hb_loop (outcomes ++ [a])
  = ((Browser.settle a (Browser._hb_loop outcomes).1).1,
     (Browser._hb_loop outcomes).2 ++ (Browser.settle a (Browser._hb_loop outcomes).1).2).
Proof.
  unfold Browser._hb_loop. rewrite foldl_app. simpl.
  destruct (foldl _ _ outcomes) as [f colors]. simpl.
  by destruct (Browser.settle a f).
Qed.

Lemma settle_nonneg (a : Browser.attempt) (failures : Z) :
  (0 ≤ failures)%Z → (0 ≤ (Browser.settle a failures).1)%Z.
Proof.
  intros H. unfold Browser.settle. destruct a as [code|]; simpl; [|lia].
  destruct ((200 <=? code)%Z && (code <? 300)%Z); simpl; lia.
Qed.

Lemma hb_loop_nonneg (outcomes : list Browser.attempt) :
  (0 ≤ (Browser._hb_loop outcomes).1)%Z.
Proof.
  induction outcomes as [|a outcomes IH] using rev_ind; [done|].
  rewrite hb_loop_snoc. simpl. by apply settle_nonneg.
Qed.

(** C4: whatever happened before, once two requests in a row have failed
    the last colour the loop has emitted is the degraded one, and a
    success right after resets the failure count to 0 and makes the
    healthy colour the last one emitted. *)
Theorem two_failures_degraded_then_success_healthy
        (history : list Browser.attempt) (a1 a2 a3 : Browser.attempt) :
  failed a1 → failed a2 →
  (2 ≤ (Browser._hb_loop (history ++ [a1; a2])).1)%Z
  ∧ last (Browser._hb_loop (history ++ [a1; a2])).2 = Some degraded
  ∧ (succeeded a3 →
     (Browser._hb_loop (history ++ [a1; a2; a3])).1 = 0%Z
     ∧ last (Browser._hb_loop (history ++ [a1; a2; a3])).2 = Some healthy).
Proof.
  intros H1 H2.
  pose proof (hb_loop_nonneg history) as Hnn.
  assert (Browser._hb_loop (history ++ [a1; a2])
          = (((Browser._hb_loop history).1 + 1 + 1)%Z,
             ((Browser._hb_loop history).2
                ++ (if (2 <=? (Browser._hb_loop history).1 + 1)%Z then [degraded] else []))
               ++ [degraded])) as Htwo.
  { replace (history ++ [a1; a2]) with ((history ++ [a1]) ++ [a2])
      by (by rewrite <- app_assoc).
    rewrite !hb_loop_snoc. simpl.
    rewrite (settle_failed a1 _ H1). simpl. rewrite (settle_failed a2 _ H2). simpl.
    destruct (2 <=? (Browser._hb_loop history).1 + 1 + 1)%Z eqn:E; [done|].
    apply Z.leb_gt in E. lia. }
  split; [rewrite Htwo; simpl; lia|].
  split; [rewrite Htwo; simpl; apply last_snoc|].
  intros H3.
  replace (history ++ [a1; a2; a3]) with ((history ++ [a1; a2]) ++ [a3])
    by (by rewrite <- app_assoc).
  rewrite hb_loop_snoc, (settle_succeeded a3 _ H3). simpl.
  split; [done|]. apply last_snoc.
Qed.

Lemma two_failures_degraded_then_success_healthy_witness :
  last (Browser._hb_loop ([Browser.Responded 200]
                             ++ [Browser.Raised; Browser.Responded 503])).2
  = Some degraded
  ∧ (Browser._hb_loop ([Browser.Responded 200]
                          ++ [Browser.Raised; Browser.Responded 503; Browser.Responded 204])).1
    = 0%Z
  ∧ last (Browser._hb_loop ([Browser.Responded 200]
                               ++ [Browser.Raised; Browser.Responded 503;
                                   Browser.Responded 204])).2
    = Some healthy.
Proof.
  assert (failed Browser.Raised) as H1 by exact I.
  assert (failed (Browser.Responded 503)) as H2 by (simpl; lia).
  assert (succeeded (Browser.Responded 204)) as H3 by (simpl; lia).
  destruct (two_failures_degraded_then_success_healthy
              [Browser.Responded 200] Browser.Raised (Browser.Responded 503)
              (Browser.Responded 204) H1 H2) as (_ & Hd & Hs).
  split; [exact Hd|]. exact (Hs H3).
Defined.

(** ** Launch orchestrator *)

Lemma choose_exe_path_frame (env : Browser.answers) (w : Browser.window) :
  Browser.processes (Browser.choose_exe_path env w).2 = Browser.processes w
  ∧ Browser.clock (Browser.choose_exe_path env w).2 = Browser.clock w.
Proof.
  unfold Browser.choose_exe_path.
  destruct (negb (Browser.truthy _)); [done|].
  by destruct (negb (Browser.path_exists _ _)).
Qed.

(** Resolving the executable starts no process and takes no time. *)
Lemma ensure_host_exe_frame (env : Browser.answers) (cfg : Host.t) (w : Browser.window) :
  Browser.processes (Browser._ensure_host_exe env cfg w).2 = Browser.processes w
  ∧ Browser.clock (Browser._ensure_host_exe env cfg w).2 = Browser.clock w.
Proof.
  unfold Browser._ensure_host_exe.
  destruct (Browser.truthy _ && Browser.path_exists _ _); [done|].
  pose proof (choose_exe_path_frame env w) as H.
  by destruct (Browser.choose_exe_path env w) as [[exe|] w'].
Qed.



(** ** Heartbeat supervisor *)

Lemma set_all_length (refs : list nat) (events : list bool) :
  length (set_all refs events) = length events.
Proof.
  revert events. induction refs as [|ev refs IH]; intros events; [done|].
  simpl. change (length (set_all refs (<[ev:=true]> events)) = length events).
  by rewrite IH, length_insert.
Qed.

Lemma set_all_keeps (refs : list nat) (events : list bool) (e : nat) :
  events !! e = Some true → set_all refs events !! e = Some true.
Proof.
  revert events. induction refs as [|ev refs IH]; intros events H; [done|].
  simpl. apply IH. destruct (decide (ev = e)) as [->|Hne].
  - rewrite list_lookup_insert_eq; [done|]. by eapply lookup_lt_Some.
  - by rewrite list_lookup_insert_ne.
Qed.

Lemma set_all_sets (refs : list nat) (events : list bool) (e : nat) :
  e ∈ refs → e < length events → set_all refs events !! e = Some true.
Proof.
  revert events. induction refs as [|ev refs IH]; intros events Hin Hlt.
  - by apply elem_of_nil in Hin.
  - simpl. change (set_all refs (<[ev:=true]> events) !! e = Some true).
    destruct (decide (e = ev)) as [->|Hne].
    + apply set_all_keeps. by rewrite list_lookup_insert_eq.
    + apply elem_of_cons in Hin as [Heq|Hin]; [done|].
      apply IH; [done | by rewrite length_insert].
Qed.

Lemma set_all_other (refs : list nat) (events : list bool) (e : nat) :
  e ∉ refs → set_all refs events !! e = events !! e.
Proof.
  revert events. induction refs as [|ev refs IH]; intros events Hin; [done|].
  simpl. change (set_all refs (<[ev:=true]> events) !! e = events !! e).
  rewrite IH by set_solver. apply list_lookup_insert_ne. set_solver.
Qed.

Lemma is_set_true (ev : nat) (w : Browser.window) :
  Browser.is_set ev w = true ↔ Browser.events w !! ev = Some true.
Proof. unfold Browser.is_set. apply bool_decide_eq_true. Qed.

Lemma is_set_false_valid (ev : nat) (w : Browser.window) :
  ev < length (Browser.events w) →
  Browser.is_set ev w = false ↔ Browser.events w !! ev = Some false.
Proof.
  intros Hlt. unfold Browser.is_set. rewrite bool_decide_eq_false.
  destruct (lookup_lt_is_Some_2 _ _ Hlt) as [[|] Hb]; rewrite Hb; split; congruence.
Qed.

(** The loop of [manual_stop_heartbeat]: every event of the list ends set,
    nothing else changes, and the flag tells whether one was still clear. *)
Lemma stop_loop (refs : list nat) (any_running : bool) (w : Browser.window) :
  foldl Browser.stop_if_running (any_running, w) refs
  = (any_running || existsb (λ ev, negb (Browser.is_set ev w)) refs,
     Browser.set_events (set_all refs) w).
Proof.
  revert any_running w. induction refs as [|ev refs IH]; intros b w.
  - simpl. rewrite orb_false_r. by destruct w.
  - simpl. destruct (Browser.is_set ev w) eqn:Hset; simpl.
    + rewrite IH. f_equal. unfold Browser.set_events. f_equal.
      unfold set_all at 2. simpl. apply is_set_true in Hset.
      by rewrite (list_insert_id _ _ _ Hset).
    + rewrite IH. simpl. by rewrite orb_true_r.
Qed.

Lemma close_loop (refs : list nat) (w : Browser.window) :
  foldl (λ w ev, Browser.ev_set ev w) w refs = Browser.set_events (set_all refs) w.
Proof.
  revert w. induction refs as [|ev refs IH]; intros w; [by destruct w|].
  simpl. by rewrite IH.
Qed.

Lemma tracked_refs (w : Browser.window) (ev : nat) :
  ev ∈ (map_to_list (Browser.hb_threads w)).*2
  ↔ ∃ id, Browser.hb_threads w !! id = Some ev.
Proof.
  rewrite list_elem_of_fmap. split.
  - intros ([id ev'] & Heq & Hin). simpl in Heq. subst ev'.
    exists id. by apply elem_of_map_to_list.
  - intros [id Hid]. exists (id, ev). split; [done|]. by apply elem_of_map_to_list.
Qed.

Lemma manual_stop_heartbeat_unfold (w : Browser.window) :
  Browser.manual_stop_heartbeat w
  = let refs := (map_to_list (Browser.hb_threads w)).*2 in
    let w' := Browser.set_hb_threads (λ _, ∅) (Browser.set_events (set_all refs) w) in
    if existsb (λ ev, negb (Browser.is_set ev w)) refs then
      Browser.show Browser.Information "Stopped" "All heartbeats stopped."
        (Browser.emit "red" w')
    else
      Browser.show Browser.Information "No Active Heartbeat"
        "No heartbeat is currently running." w'.
Proof. unfold Browser.manual_stop_heartbeat. by rewrite stop_loop. Qed.

Lemma stop_events (w : Browser.window) :
  Browser.events (Browser.manual_stop_heartbeat w)
  = set_all (map_to_list (Browser.hb_threads w)).*2 (Browser.events w).
Proof. rewrite manual_stop_heartbeat_unfold. simpl. by destruct (existsb _ _). Qed.

Lemma stop_frame (w : Browser.window) :
  Browser.hb_threads (Browser.manual_stop_heartbeat w) = ∅
  ∧ Browser.threads (Browser.manual_stop_heartbeat w) = Browser.threads w
  ∧ Browser.posts (Browser.manual_stop_heartbeat w) = Browser.posts w
  ∧ Browser.clock (Browser.manual_stop_heartbeat w) = Browser.clock w.
Proof. rewrite manual_stop_heartbeat_unfold. simpl. by destruct (existsb _ _). Qed.

Lemma is_set_core (w w' : Browser.window) (ev : nat) :
  Browser.events w' = Browser.events w → Browser.is_set ev w' = Browser.is_set ev w.
Proof. unfold Browser.is_set. by intros ->. Qed.

Lemma post_times_core (w w' : Browser.window) (i : nat) :
  Browser.posts w' = Browser.posts w → post_times i w' = post_times i w.
Proof. unfold post_times. by intros ->. Qed.

Lemma sup_ok_core (w w' : Browser.window) :
  Browser.hb_threads w' = Browser.hb_threads w →
  Browser.events w' = Browser.events w →
  Browser.threads w' = Browser.threads w →
  sup_ok w → sup_ok w'.
Proof.
  intros Hh He Ht [H1 H2 H3 H4].
  split; rewrite ?Hh, ?He, ?Ht; try done.
  intros i t Hi. rewrite (is_set_core w w' i He). by apply H4.
Qed.

Lemma window_ok_core (w w' : Browser.window) :
  same_core w w' → window_ok w → window_ok w'.
Proof.
  intros (Hh & He & Ht & Hp & Hc) (Hs & Hpo & Hon). split; [|split].
  - by apply (sup_ok_core w w').
  - unfold posts_ok. by rewrite Hp, Ht.
  - intros i t. rewrite Ht. intros Hi. specialize (Hon i t Hi).
    unfold on_time in *. rewrite (post_times_core w w' i Hp), Hc.
    by rewrite (is_set_core w w' _ He).
Qed.

Lemma window_ok_initial (t0 : Q) (hosts : list Host.t) :
  window_ok (Browser.initial t0 hosts).
Proof.
  split; [|split].
  - split; simpl.
    + done.
    + intros i t Hi. by rewrite lookup_nil in Hi.
    + intros id ev H. by rewrite lookup_empty in H.
    + intros i t Hi. by rewrite lookup_nil in Hi.
  - by constructor.
  - intros i t Hi. simpl in Hi. by rewrite lookup_nil in Hi.
Qed.

(** A start request either changes nothing but the message boxes, or
    creates one event, tracks it and starts one thread on it. *)
Lemma start_cases (idx : Z) (w : Browser.window) :
  same_core w (Browser.manual_start_heartbeat idx w).2
  ∨ ∃ host,
      Browser.load_hosts w !! Z.to_nat idx = Some host
      ∧ Browser.already_running (Host.id host) w = false
      ∧ (Browser.manual_start_heartbeat idx w).2
        = Browser.Window
            (<[Host.id host := length (Browser.events w)]> (Browser.hb_threads w))
            (Browser.events w ++ [false])
            (Browser.threads w
               ++ [Browser.Thread host (length (Browser.events w)) 0 Browser.Checking])
            (Browser.hb_color w ++ [starting]) (Browser.boxes w) (Browser.posts w)
            (Browser.clock w) (Browser.processes w) (Browser.hosts_db w).
Proof.
  unfold Browser.manual_start_heartbeat.
  destruct (idx <? 0)%Z; [left; by repeat split|].
  destruct (Browser.load_hosts w !! Z.to_nat idx) as [host|] eqn:Hh;
    [|left; by repeat split].
  destruct (Browser.already_running (Host.id host) w) eqn:Hrun; [left; by repeat split|].
  right. exists host. by repeat split.
Qed.

Lemma is_set_app (w : Browser.window) (ev : nat) (events' : list bool) :
  Browser.is_set ev w = true →
  Browser.events w !! ev = Some true ∧ (Browser.events w ++ events') !! ev = Some true.
Proof.
  intros H%is_set_true. split; [done|]. by apply lookup_app_l_Some.
Qed.

Lemma sup_ok_start (idx : Z) (w : Browser.window) :
  sup_ok w → sup_ok (Browser.manual_start_heartbeat idx w).2.
Proof.
  intros Hok.
  destruct (start_cases idx w) as [(Hh & He & Ht & _)|(host & Hhost & Hrun & ->)].
  { by apply (sup_ok_core w). }
  destruct Hok as [Hlen Hev Hown Hlive].
  split; simpl.
  - rewrite !length_app. simpl. lia.
  - intros i t Hi. apply lookup_app_Some in Hi as [Hi|[Hge Hi]]; [by apply Hev|].
    rewrite <- Hlen in Hi. apply list_lookup_singleton_Some in Hi as [Hi <-]. simpl. lia.
  - intros id ev Hid. apply lookup_insert_Some in Hid as [[<- <-]|[Hne Hid]].
    + exists (Browser.Thread host (length (Browser.events w)) 0 Browser.Checking).
      split; [|done]. rewrite Hlen. by rewrite lookup_app_r, Nat.sub_diag.
    + destruct (Hown id ev Hid) as (t & Ht & Hidt). exists t. split; [|done].
      by apply lookup_app_l_Some.
  - intros i t Hi Hset. apply lookup_app_Some in Hi as [Hi|[Hge Hi]].
    + assert (Browser.is_set i w = false) as Hset'.
      { destruct (Browser.is_set i w) eqn:E; [|done].
        apply (is_set_app w i [false]) in E as [_ E].
        unfold Browser.is_set in Hset. simpl in Hset.
        by rewrite bool_decide_eq_false in Hset. }
      pose proof (Hlive i t Hi Hset') as Htr.
      destruct (decide (Host.id host = Host.id (Browser.host t))) as [Heq|Hne].
      * unfold Browser.already_running in Hrun. rewrite Heq, Htr, Hset' in Hrun.
        discriminate.
      * by rewrite lookup_insert_ne.
    + rewrite <- Hlen in Hi. apply list_lookup_singleton_Some in Hi as [Hi <-]. simpl.
      replace i with (length (Browser.events w)) by lia. apply lookup_insert_eq.
Qed.

Lemma sup_ok_stop (w : Browser.window) : sup_ok w → sup_ok (Browser.manual_stop_heartbeat w).
Proof.
  intros [Hlen Hev Hown Hlive].
  destruct (stop_frame w) as (Hh & Ht & _). pose proof (stop_events w) as He.
  split.
  - by rewrite He, set_all_length, Ht.
  - by rewrite Ht.
  - rewrite Hh. intros id ev H. by rewrite lookup_empty in H.
  - rewrite Ht. intros i t Hi Hset. exfalso.
    apply not_true_iff_false in Hset. apply Hset, is_set_true. rewrite He.
    destruct (Browser.is_set i w) eqn:E.
    + apply set_all_keeps. by apply is_set_true.
    + apply set_all_sets.
      * apply tracked_refs. eexists. by apply (Hlive i t).
      * rewrite Hlen. by eapply lookup_lt_Some.
Qed.

Lemma close_events (w : Browser.window) :
  Browser.closeEvent w
  = Browser.set_events (set_all (map_to_list (Browser.hb_threads w)).*2) w.
Proof. unfold Browser.closeEvent. apply close_loop. Qed.

Lemma sup_ok_close (w : Browser.window) : sup_ok w → sup_ok (Browser.closeEvent w).
Proof.
  intros [Hlen Hev Hown Hlive]. rewrite close_events.
  split; simpl; try done.
  - by rewrite set_all_length.
  - intros i t Hi Hset. apply Hlive; [done|].
    destruct (Browser.is_set i w) eqn:E; [|done].
    apply is_set_true in E. apply not_true_iff_false in Hset. exfalso. apply Hset.
    apply is_set_true. simpl. by apply set_all_keeps.
Qed.

Lemma sup_ok_at_thread (i : nat) (t t' : Browser.thread) (w : Browser.window) :
  Browser.threads w !! i = Some t →
  Browser.host t' = Browser.host t → Browser.stop_event t' = Browser.stop_event t →
  sup_ok w → sup_ok (Browser.at_thread i t' w).
Proof.
  intros Hi Hh He [Hlen Hev Hown Hlive].
  assert (∀ j u, <[i:=t']> (Browser.threads w) !! j = Some u →
                 ∃ u0, Browser.threads w !! j = Some u0
                       ∧ Browser.host u = Browser.host u0
                       ∧ Browser.stop_event u = Browser.stop_event u0) as Hlk.
  { intros j u Hj. destruct (decide (i = j)) as [<-|Hne].
    - rewrite list_lookup_insert_eq in Hj by (by eapply lookup_lt_Some).
      injection Hj as <-. eauto.
    - rewrite list_lookup_insert_ne in Hj by done. eauto. }
  split; simpl.
  - by rewrite length_insert.
  - intros j u Hj. destruct (Hlk j u Hj) as (u0 & Hu0 & _ & ->). by apply Hev.
  - intros id ev Hid. destruct (Hown id ev Hid) as (u & Hu & Hidu).
    destruct (decide (i = ev)) as [<-|Hne].
    + exists t'. rewrite list_lookup_insert_eq by (by eapply lookup_lt_Some).
      split; [done|]. rewrite Hh. congruence.
    + exists u. by rewrite list_lookup_insert_ne.
  - intros j u Hj Hset. destruct (Hlk j u Hj) as (u0 & Hu0 & -> & _).
    by apply Hlive.
Qed.

(** ** Heartbeat client: the steps of a thread *)

Lemma guard_cases (i : nat) (w w' : Browser.window) :
  Browser.guard i w = Some w' →
  ∃ host ev failures,
    Browser.threads w !! i = Some (Browser.Thread host ev failures Browser.Checking)
    ∧ ((Browser.is_set ev w = true
        ∧ w' = Browser.at_thread i (Browser.Thread host ev failures Browser.Finished) w)
       ∨ (Browser.is_set ev w = false
          ∧ w' = Browser.set_posts (λ l, l ++ [(i, Browser.clock w, Browser.payload host)])
                   (Browser.at_thread i
                      (Browser.Thread host ev failures Browser.Posting) w))).
Proof.
  unfold Browser.guard. destruct (Browser.threads w !! i) as [[host ev f []]|]; try done.
  destruct (Browser.is_set ev w) eqn:E; intros [= <-]; exists host, ev, f; eauto.
Qed.

Lemma emit_all_core (colors : list string) (w : Browser.window) :
  same_core w (foldl (λ w c, Browser.emit c w) w colors).
Proof.
  revert w. induction colors as [|c colors IH]; intros w; [by repeat split|].
  simpl. destruct (IH (Browser.emit c w)) as (H1 & H2 & H3 & H4 & H5).
  by repeat split.
Qed.

Lemma reply_cases (i : nat) (a : Browser.attempt) (w w' : Browser.window) :
  Browser.reply i a w = Some w' →
  ∃ host ev failures,
    Browser.threads w !! i = Some (Browser.Thread host ev failures Browser.Posting)
    ∧ same_core
        (Browser.at_thread i
           (Browser.Thread host ev (Browser.settle a failures).1
              (Browser.Waiting (Browser.clock w))) w) w'.
Proof.
  unfold Browser.reply. destruct (Browser.threads w !! i) as [[host ev f []]|]; try done.
  destruct (Browser.settle a f) as [f' colors] eqn:Hsettle. intros [= <-].
  exists host, ev, f. split; [done|]. rewrite Hsettle. simpl. apply emit_all_core.
Qed.

Lemma wake_cases (i : nat) (w w' : Browser.window) :
  Browser.wake i w = Some w' →
  ∃ host ev failures since,
    Browser.threads w !! i
    = Some (Browser.Thread host ev failures (Browser.Waiting since))
    ∧ (Browser.is_set ev w = true
       ∨ (since + Browser.HEARTBEAT_INTERVAL <= Browser.clock w)%Q)
    ∧ w' = Browser.at_thread i (Browser.Thread host ev failures Browser.Checking) w.
Proof.
  unfold Browser.wake.
  destruct (Browser.threads w !! i) as [[host ev f [| |since|]]|]; try done.
  destruct (Browser.is_set ev w || Qle_bool _ _) eqn:E; [|done]. intros [= <-].
  exists host, ev, f, since. split; [done|]. split; [|done].
  apply orb_true_iff in E as [E|E]; [by left|right]. by apply Qle_bool_iff.
Qed.

Lemma post_times_snoc (i j : nat) (c : Q) (p : record) (w : Browser.window) :
  post_times j (Browser.set_posts (λ l, l ++ [(i, c, p)]) w)
  = post_times j w ++ (if decide (i = j) then [c] else []).
Proof.
  unfold post_times. simpl. rewrite List.filter_app, fmap_app. simpl.
  destruct (decide (i = j)) as [->|Hne].
  - by rewrite Nat.eqb_refl.
  - apply Nat.eqb_neq in Hne. by rewrite Hne.
Qed.

Lemma spaced_snoc (ts : list Q) (c : Q) :
  spaced ts →
  (∀ tp, last ts = Some tp → (tp + Browser.HEARTBEAT_INTERVAL <= c)%Q) →
  spaced (ts ++ [c]).
Proof.
  intros Hsp Hlast j a b Ha Hb.
  destruct (decide (S j < length ts)) as [Hlt|Hge].
  - rewrite lookup_app_l in Ha by lia. rewrite lookup_app_l in Hb by lia.
    by apply (Hsp j).
  - assert (S j = length ts) as Hj.
    { apply lookup_lt_Some in Hb. rewrite length_app in Hb. simpl in Hb. lia. }
    rewrite lookup_app_l in Ha by lia.
    rewrite lookup_app_r, Hj, Nat.sub_diag in Hb by lia. injection Hb as <-.
    apply Hlast. rewrite last_lookup. rewrite <- Hj. simpl. done.
Qed.

(** Time passing, flags being set and the steps of other threads do not
    disturb what holds of a thread's announces. *)
Lemma on_time_mono (w w' : Browser.window) (i : nat) (t : Browser.thread) :
  post_times i w' = post_times i w →
  (Browser.clock w <= Browser.clock w')%Q →
  (Browser.is_set (Browser.stop_event t) w = true →
   Browser.is_set (Browser.stop_event t) w' = true) →
  on_time w i t → on_time w' i t.
Proof.
  intros Hp Hc Hs (Hle & Hsp & Hph). unfold on_time. rewrite Hp.
  split; [|split; [done|]].
  - eapply Forall_impl; [exact Hle|]. intros a Ha. simpl in Ha. by eapply Qle_trans.
  - intros tp Htp. specialize (Hph tp Htp).
    destruct (Browser.at_phase t); try done.
    destruct Hph as [Hph|Hph]; [left; by apply Hs | right; by eapply Qle_trans].
Qed.

Lemma on_time_at_thread (i j : nat) (t' u : Browser.thread) (w : Browser.window) :
  on_time (Browser.at_thread i t' w) j u ↔ on_time w j u.
Proof. done. Qed.

Lemma window_ok_at_thread (i : nat) (t t' : Browser.thread) (w : Browser.window) :
  Browser.threads w !! i = Some t →
  Browser.host t' = Browser.host t → Browser.stop_event t' = Browser.stop_event t →
  window_ok w → on_time w i t' → window_ok (Browser.at_thread i t' w).
Proof.
  intros Hi Hh He (Hs & Hp & Hon) Ht'. split; [|split].
  - by apply (sup_ok_at_thread i t).
  - unfold posts_ok. simpl. by rewrite length_insert.
  - intros j u Hj. apply on_time_at_thread. simpl in Hj.
    destruct (decide (i = j)) as [<-|Hne].
    + rewrite list_lookup_insert_eq in Hj by (by eapply lookup_lt_Some).
      by injection Hj as <-.
    + rewrite list_lookup_insert_ne in Hj by done. by apply Hon.
Qed.

Lemma last_Forall {A} (P : A → Prop) (l : list A) (x : A) :
  Forall P l → last l = Some x → P x.
Proof.
  intros Hall Hlast. rewrite Forall_forall in Hall. apply Hall.
  apply last_Some in Hlast as [l' ->]. set_solver.
Qed.

Lemma is_set_set_all (refs : list nat) (w : Browser.window) (ev : nat) :
  Browser.is_set ev w = true →
  Browser.is_set ev (Browser.set_events (set_all refs) w) = true.
Proof. rewrite !is_set_true. simpl. apply set_all_keeps. Qed.

Lemma post_times_fresh (w : Browser.window) (i : nat) :
  posts_ok w → (length (Browser.threads w) ≤ i)%nat → post_times i w = [].
Proof.
  intros Hp Hi. unfold post_times. rewrite filter_none; [done|].
  eapply Forall_impl; [exact Hp|]. intros p Hlt. simpl in *.
  apply Nat.eqb_neq. lia.
Qed.

(** Every action keeps the invariant. *)
Lemma window_ok_step (a : Browser.action) (w w' : Browser.window) :
  window_ok w → Browser.step a w = Some w' → window_ok w'.
Proof.
  intros Hok Hstep. pose proof Hok as (Hs & Hp & Hon).
  destruct a as [d|hosts|idx| | |i|i a|i]; simpl in Hstep.
  - destruct (Qle_bool 0 d) eqn:Hd; [|done]. injection Hstep as <-.
    apply Qle_bool_iff in Hd. split; [|split].
    + by apply (sup_ok_core w).
    + done.
    + intros i t Hi. apply (on_time_mono w); try done; [|by apply Hon].
      simpl. lra.
  - injection Hstep as <-. by apply (window_ok_core w).
  - injection Hstep as <-.
    destruct (start_cases idx w) as [Hcore|(host & Hhost & Hrun & Heq)].
    { by apply (window_ok_core w). }
    split; [by apply sup_ok_start|]. rewrite Heq. split.
    + unfold posts_ok. simpl. eapply Forall_impl; [exact Hp|].
      intros p Hlt. simpl in *. rewrite length_app. lia.
    + intros i t Hi. simpl in Hi. apply lookup_app_Some in Hi as [Hi|[Hge Hi]].
      * apply (on_time_mono w); try done; [apply Qle_refl| |by apply Hon].
        intros Hset. apply (is_set_app w _ [false]) in Hset as [_ Hset].
        by apply is_set_true.
      * unfold on_time.
        replace (post_times i _) with (post_times i w) by done.
        rewrite (post_times_fresh w i Hp Hge). by repeat split.
  - injection Hstep as <-. destruct (stop_frame w) as (Hh & Ht & Hpo & Hc).
    split; [by apply sup_ok_stop|]. split.
    + unfold posts_ok. by rewrite Hpo, Ht.
    + rewrite Ht. intros i t Hi.
      apply (on_time_mono w); try done; [by apply post_times_core | rewrite Hc; apply Qle_refl | |by apply Hon].
      rewrite !is_set_true, stop_events. apply set_all_keeps.
  - injection Hstep as <-. rewrite close_events.
    split; [rewrite <- close_events; by apply sup_ok_close|]. split; [done|].
    intros i t Hi. simpl in Hi.
    apply (on_time_mono w); try done; [apply Qle_refl|apply is_set_set_all|by apply Hon].
  - destruct (guard_cases i w w' Hstep)
      as (host & ev & f & Hi & [[Hset ->]|[Hset ->]]).
    + apply (window_ok_at_thread i _ _ w Hi); try done.
      destruct (Hon i _ Hi) as (H1 & H2 & _). by repeat split.
    + destruct (Hon i _ Hi) as (H1 & H2 & H3). simpl in H3.
      split; [|split].
      * apply (sup_ok_core (Browser.at_thread i
                 (Browser.Thread host ev f Browser.Posting) w)); try done.
        by apply (sup_ok_at_thread i _ _ w Hi).
      * unfold posts_ok. simpl. rewrite length_insert. apply Forall_app. split; [done|].
        apply Forall_singleton. simpl. by eapply lookup_lt_Some.
      * intros j u Hj. simpl in Hj. unfold on_time. rewrite post_times_snoc.
        replace (post_times j (Browser.at_thread i _ w)) with (post_times j w) by done.
        destruct (decide (i = j)) as [<-|Hne].
        -- rewrite list_lookup_insert_eq in Hj by (by eapply lookup_lt_Some).
           injection Hj as <-. simpl. split; [|split; [|done]].
           ++ apply Forall_app. split; [done|]. apply Forall_singleton, Qle_refl.
           ++ apply spaced_snoc; [done|]. intros tp Htp.
              destruct (H3 tp Htp) as [E|E]; [congruence | done].
        -- rewrite list_lookup_insert_ne in Hj by done. rewrite app_nil_r.
           by apply Hon.
  - destruct (reply_cases i a w w' Hstep) as (host & ev & f & Hi & Hcore).
    eapply window_ok_core; [exact Hcore|].
    apply (window_ok_at_thread i _ _ w Hi); try done.
    destruct (Hon i _ Hi) as (H1 & H2 & _). split; [done|]. split; [done|].
    intros tp Htp. simpl. by apply (last_Forall _ _ _ H1).
  - destruct (wake_cases i w w' Hstep) as (host & ev & f & since & Hi & Hdue & ->).
    apply (window_ok_at_thread i _ _ w Hi); try done.
    destruct (Hon i _ Hi) as (H1 & H2 & H3). simpl in H3.
    split; [done|]. split; [done|]. intros tp Htp. simpl.
    destruct Hdue as [Hdue|Hdue]; [by left|right].
    specialize (H3 tp Htp). unfold Browser.HEARTBEAT_INTERVAL in *. lra.
Qed.

Lemma window_ok_run (acts : list Browser.action) (w w' : Browser.window) :
  window_ok w → Browser.run acts w = Some w' → window_ok w'.
Proof.
  revert w. induction acts as [|a acts IH]; intros w Hok Hrun; simpl in Hrun.
  - by injection Hrun as <-.
  - destruct (Browser.step a w) as [w1|] eqn:Hstep; [|done]. simpl in Hrun.
    apply (IH w1); [|done]. by apply (window_ok_step a w).
Qed.

Lemma reachable_ok (w : Browser.window) : reachable w → window_ok w.
Proof.
  intros (t0 & hosts & acts & Hrun).
  eapply window_ok_run; [apply window_ok_initial | exact Hrun].
Qed.

(** ** Supervisor properties *)

Lemma filter_unique {A} (f : A → bool) (l : list A) (i : nat) (x : A) :
  l !! i = Some x → f x = true →
  (∀ j y, l !! j = Some y → f y = true → j = i) →
  length (List.filter f l) = 1.
Proof.
  intros Hi Hx Huniq.
  rewrite <- (take_drop_middle l i x Hi), List.filter_app. simpl. rewrite Hx.
  assert (i < length l) as Hlt by (by eapply lookup_lt_Some).
  rewrite !filter_none; [done| |].
  - apply Forall_forall. intros y Hy.
    apply list_elem_of_lookup in Hy as [j Hj].
    destruct (f y) eqn:Hf; [|done]. rewrite lookup_drop in Hj.
    specialize (Huniq _ _ Hj Hf). lia.
  - apply Forall_forall. intros y Hy.
    apply list_elem_of_lookup in Hy as [j Hj].
    destruct (f y) eqn:Hf; [|done].
    apply lookup_take_Some in Hj as [Hj Hlt'].
    specialize (Huniq _ _ Hj Hf). lia.
Qed.

Lemma running_loops_core (w w' : Browser.window) (id : string) :
  Browser.events w' = Browser.events w → Browser.threads w' = Browser.threads w →
  running_loops id w' = running_loops id w.
Proof.
  intros He Ht. unfold running_loops. rewrite Ht. f_equal.
  apply filter_ext_Forall, Forall_forall. intros t _.
  by rewrite (is_set_core w w' _ He).
Qed.

(** A tracked session whose event is clear has exactly one loop. *)
Lemma tracked_running_one (w : Browser.window) (id : string) :
  sup_ok w → Browser.already_running id w = true → running_loops id w = 1.
Proof.
  intros [Hlen Hev Hown Hlive] Hrun. unfold Browser.already_running in Hrun.
  destruct (Browser.hb_threads w !! id) as [ev|] eqn:Hid; [|done].
  apply negb_true_iff in Hrun.
  destruct (Hown id ev Hid) as (t & Ht & Hidt).
  apply (filter_unique _ _ ev t Ht).
  - rewrite (Hev ev t Ht), Hrun, Hidt, String.eqb_refl. done.
  - intros j u Hj Hf. apply andb_true_iff in Hf as [Hju Hlive_u].
    apply String.eqb_eq in Hju. apply negb_true_iff in Hlive_u.
    rewrite (Hev j u Hj) in Hlive_u.
    pose proof (Hlive j u Hj Hlive_u) as Htr. rewrite Hju, Hid in Htr. congruence.
Qed.

Lemma start_selected (idx : Z) (w : Browser.window) (host : Host.t) :
  (0 ≤ idx)%Z → Browser.load_hosts w !! Z.to_nat idx = Some host →
  (Browser.already_running (Host.id host) w = true
   ∧ Browser.manual_start_heartbeat idx w
     = (Ok (), Browser.show Browser.Information "Already Running"
                 "Heartbeat already running for this server." w))
  ∨ (Browser.already_running (Host.id host) w = false
     ∧ Browser.already_running (Host.id host) (Browser.manual_start_heartbeat idx w).2
       = true
     ∧ Browser.load_hosts (Browser.manual_start_heartbeat idx w).2 = Browser.load_hosts w).
Proof.
  intros Hidx Hhost. unfold Browser.manual_start_heartbeat.
  rewrite (proj2 (Z.ltb_ge _ _) Hidx), Hhost.
  destruct (Browser.already_running (Host.id host) w) eqn:Hrun; [left; by split|].
  right. split; [done|]. split; [|done]. simpl.
  unfold Browser.already_running, Browser.is_set. simpl.
  rewrite lookup_insert_eq, lookup_app_r, Nat.sub_diag by done. done.
Qed.

(** C6: from any window the application can be in, starting the heartbeat
    of a selected server and then starting it again for a server of the same
    identity shows the second time the "Already Running" box and changes
    nothing else, and exactly one loop is running for that identity. *)
Theorem second_start_already_running
        (w : Browser.window) (idx idx' : Z) (host host' : Host.t) :
  reachable w →
  (0 ≤ idx)%Z → Browser.load_hosts w !! Z.to_nat idx = Some host →
  (0 ≤ idx')%Z → Browser.load_hosts w !! Z.to_nat idx' = Some host' →
  Host.id host' = Host.id host →
  let w1 := (Browser.manual_start_heartbeat idx w).2 in
  Browser.manual_start_heartbeat idx' w1
  = (Ok (), Browser.show Browser.Information "Already Running"
              "Heartbeat already running for this server." w1)
  ∧ same_core w1 (Browser.manual_start_heartbeat idx' w1).2
  ∧ Browser.hb_color (Browser.manual_start_heartbeat idx' w1).2 = Browser.hb_color w1
  ∧ Browser.boxes (Browser.manual_start_heartbeat idx' w1).2
    = Browser.boxes w1 ++ [already_running_box]
  ∧ running_loops (Host.id host) (Browser.manual_start_heartbeat idx' w1).2 = 1.
Proof.
  intros Hreach Hidx Hhost Hidx' Hhost' Hid w1.
  assert (sup_ok w1) as Hok1.
  { apply sup_ok_start. by destruct (reachable_ok w Hreach). }
  assert (Browser.already_running (Host.id host) w1 = true
          ∧ Browser.load_hosts w1 = Browser.load_hosts w) as [Hrun1 Hhosts1].
  { subst w1. destruct (start_selected idx w host Hidx Hhost) as [[Hrun ->]|(_ & Hrun & Hl)].
    - by split.
    - by split. }
  assert (Browser.load_hosts w1 !! Z.to_nat idx' = Some host') as Hhost1
      by (by rewrite Hhosts1).
  destruct (start_selected idx' w1 host' Hidx' Hhost1) as [[_ Heq]|[Hno _]].
  - rewrite Heq. simpl. split; [done|]. split; [by repeat split|].
    split; [done|]. split; [done|].
    rewrite (running_loops_core w1 _ (Host.id host)) by done.
    by apply tracked_running_one.
  - rewrite Hid in Hno. congruence.
Qed.

Lemma second_start_already_running_witness :
  let w1 := (Browser.manual_start_heartbeat 0 (Browser.initial 0 [sample_host])).2 in
  Browser.manual_start_heartbeat 0 w1
  = (Ok (), Browser.show Browser.Information "Already Running"
              "Heartbeat already running for this server." w1)
  ∧ running_loops "h1" (Browser.manual_start_heartbeat 0 w1).2 = 1.
Proof.
  assert (reachable (Browser.initial 0 [sample_host])) as Hreach.
  { exists 0%Q, [sample_host], []. reflexivity. }
  destruct (second_start_already_running (Browser.initial 0 [sample_host]) 0 0
              sample_host sample_host Hreach) as (H1 & _ & _ & _ & H5);
    try reflexivity; try lia.
  split; [exact H1 | exact H5].
Defined.

Lemma any_running_spec (w : Browser.window) :
  existsb (λ ev, negb (Browser.is_set ev w)) (map_to_list (Browser.hb_threads w)).*2 = true
  ↔ ∃ id ev, Browser.hb_threads w !! id = Some ev ∧ Browser.is_set ev w = false.
Proof.
  rewrite existsb_exists. split.
  - intros (ev & Hin & Hset). apply list_elem_of_In, tracked_refs in Hin as [id Hid].
    exists id, ev. split; [done|]. by apply negb_true_iff.
  - intros (id & ev & Hid & Hset). exists ev. split.
    + apply list_elem_of_In, tracked_refs. eauto.
    + by apply negb_true_iff.
Qed.

(** C7: from any window the application can be in, Stop All sets the event
    of every tracked session, empties the table and leaves no loop running;
    when no tracked session was still running it reports that nothing was,
    otherwise (also when only some were) it reports the stop and turns the
    LED red. *)
Theorem stop_all_cancels_and_clears (w : Browser.window) :
  reachable w →
  Browser.hb_threads (Browser.manual_stop_heartbeat w) = ∅
  ∧ (∀ id ev, Browser.hb_threads w !! id = Some ev →
              Browser.is_set ev (Browser.manual_stop_heartbeat w) = true)
  ∧ (∀ id, running_loops id (Browser.manual_stop_heartbeat w) = 0)
  ∧ ((∀ id ev, Browser.hb_threads w !! id = Some ev → Browser.is_set ev w = true) →
     Browser.boxes (Browser.manual_stop_heartbeat w) = Browser.boxes w ++ [nothing_running_box]
     ∧ Browser.hb_color (Browser.manual_stop_heartbeat w) = Browser.hb_color w)
  ∧ ((∃ id ev, Browser.hb_threads w !! id = Some ev ∧ Browser.is_set ev w = false) →
     Browser.boxes (Browser.manual_stop_heartbeat w) = Browser.boxes w ++ [stopped_box]
     ∧ Browser.hb_color (Browser.manual_stop_heartbeat w) = Browser.hb_color w ++ [degraded]).
Proof.
  intros Hreach. destruct (reachable_ok w Hreach) as (Hs & _ & _).
  pose proof (sup_ok_stop w Hs) as [Hlen' Hev' Hown' Hlive'].
  destruct Hs as [Hlen Hev Hown Hlive].
  destruct (stop_frame w) as (Hh & Ht & _).
  split; [done|]. split; [|split; [|split]].
  - intros id ev Hid. apply is_set_true. rewrite stop_events.
    apply set_all_sets; [apply tracked_refs; eauto|].
    destruct (Hown id ev Hid) as (t & Hev_t & _). rewrite Hlen.
    by eapply lookup_lt_Some.
  - intros id. unfold running_loops. rewrite filter_none; [done|].
    apply Forall_forall. intros t Hin. apply list_elem_of_lookup in Hin as [i Hi].
    apply andb_false_iff. right. apply negb_false_iff.
    destruct (Browser.is_set _ _) eqn:E; [done|]. exfalso.
    rewrite (Hev' i t Hi) in E. pose proof (Hlive' i t Hi E) as Htr.
    rewrite Hh in Htr. by rewrite lookup_empty in Htr.
  - intros Hall. rewrite manual_stop_heartbeat_unfold. simpl.
    destruct (existsb _ _) eqn:E; [|done].
    apply any_running_spec in E as (id & ev & Hid & Hset).
    rewrite (Hall id ev Hid) in Hset. discriminate.
  - intros Hex. apply any_running_spec in Hex.
    rewrite manual_stop_heartbeat_unfold. simpl. by rewrite Hex.
Qed.

Lemma stop_all_cancels_and_clears_witness :
  Browser.hb_threads (Browser.manual_stop_heartbeat two_sessions) = ∅
  ∧ Browser.is_set 0 (Browser.manual_stop_heartbeat two_sessions) = true
  ∧ Browser.is_set 1 (Browser.manual_stop_heartbeat two_sessions) = true
  ∧ Browser.boxes (Browser.manual_stop_heartbeat two_sessions)
    = Browser.boxes two_sessions ++ [stopped_box].
Proof.
  assert (reachable two_sessions) as Hreach.
  { exists 0%Q, [sample_host; second_host],
      [Browser.StartHeartbeat 0; Browser.StartHeartbeat 1]. reflexivity. }
  destruct (stop_all_cancels_and_clears two_sessions Hreach)
    as (H1 & H2 & _ & _ & H5).
  split; [exact H1|]. split; [|split].
  - apply (H2 "h1"). reflexivity.
  - apply (H2 "h2"). reflexivity.
  - apply H5. exists "h1", 0. split; reflexivity.
Defined.

(** ** Heartbeat client: cadence and cancellation *)






(** * Further properties *)

(** ** Registry *)

Lemma update_existing_none (now : Q) (d : record) (servers : list record) :
  Forall (λ x, Server.same_endpoint x d = Ok false) servers →
  Server.update_existing now d servers = Ok None.
Proof.
  induction 1 as [|s rest Hs _ IH]; [done|]. simpl. rewrite Hs. simpl. by rewrite IH.
Qed.

Lemma update_existing_first (now : Q) (d s : record) (pre post : list record) :
  Forall (λ x, Server.same_endpoint x d = Ok false) pre →
  Server.same_endpoint s d = Ok true →
  Server.update_existing now d (pre ++ s :: post)
  = Ok (Some (pre ++ Server.refresh now d s :: post)).
Proof.
  intros Hpre Hs. induction Hpre as [|x pre Hx _ IH]; simpl.
  - by rewrite Hs.
  - rewrite Hx. simpl. by rewrite IH.
Qed.

Lemma update_existing_length (now : Q) (d : record) (servers l : list record) :
  Server.update_existing now d servers = Ok (Some l) → length l = length servers.
Proof.
  revert l. induction servers as [|s rest IH]; intros l; simpl; [done|].
  destruct (Server.same_endpoint s d) as [[|]|e]; simpl; try done.
  - by intros [= <-].
  - destruct (Server.update_existing now d rest) as [[l'|]|e]; simpl; try done.
    intros [= <-]. simpl. by rewrite (IH l').
Qed.

Lemma add_server_length (now : Q) (d : record) (servers : list record) :
  (length servers ≤ length (Server.add_server now d servers).2
   ∧ length (Server.add_server now d servers).2 ≤ S (length servers))%nat.
Proof.
  unfold Server.add_server. destruct (forallb _ _); simpl; [|lia].
  destruct (Server.update_existing now d servers) as [[l|]|e] eqn:Hu; simpl.
  - rewrite (update_existing_length now d servers l Hu). lia.
  - rewrite length_app. simpl. lia.
  - lia.
Qed.

Lemma handle_shape (r : request) (servers : list record) :
  Forall endpointed servers → Forall stamped servers →
  answered (handle r servers).1
  ∧ Forall endpointed (handle r servers).2 ∧ Forall stamped (handle r servers).2.
Proof.
  intros He Hst. destruct r as [now d|now]; unfold handle.
  - split; [|by apply add_server_shape].
    destruct (forallb (Server.contains d) Server.required_fields) eqn:Hreq.
    + apply required_present in Hreq.
      destruct (add_server_accepts now d servers He Hreq)
        as [[-> _]|(pre & s & post & _ & _ & _ & ->)];
        exists Server.registered; split; try done; by left.
    + unfold Server.add_server. rewrite Hreq. exists Server.missing_fields.
      split; [done|by right].
  - split; [|done]. rewrite (get_servers_stamped now servers Hst).
    eexists. split; [done|by left].
Qed.

(** X1: started with its empty list, the service answers every announce
    (whatever JSON object it carries) and every list request with a 200 or
    400 response; no request sequence makes a handler raise. *)
Theorem service_never_raises (reqs : list request) :
  Forall answered (replies reqs []).
Proof.
  assert (∀ servers, Forall endpointed servers → Forall stamped servers →
                     Forall answered (replies reqs servers)) as H.
  { induction reqs as [|r reqs IH]; intros servers He Hst; simpl; [done|].
    destruct (handle_shape r servers He Hst) as (Ha & He' & Hst').
    constructor; [done|]. by apply IH. }
  by apply H.
Qed.

(** X2: no request removes a record: along any request sequence the store
    never gets shorter, and it grows by at most one record per announce. *)
Theorem store_never_shrinks (reqs : list request) (servers : list record) :
  (length servers ≤ length (serve reqs servers)
   ∧ length (serve reqs servers)
     ≤ length servers + length (List.filter is_announce reqs))%nat.
Proof.
  revert servers. induction reqs as [|r reqs IH]; intros servers; simpl; [lia|].
  specialize (IH (handle r servers).2).
  change (foldl (λ servers0 r0, (handle r0 servers0).2) (handle r servers).2 reqs)
    with (serve reqs (handle r servers).2).
  destruct r as [now d|now]; simpl in *.
  - pose proof (add_server_length now d servers). lia.
  - lia.
Qed.

Lemma filter_sublist {A} (f : A → bool) (l : list A) : List.filter f l `sublist_of` l.
Proof.
  induction l as [|x l IH]; simpl; [done|].
  destruct (f x); [by apply sublist_skip | by apply sublist_cons].
Qed.

Lemma filter_sublist_impl {A} (f g : A → bool) (l : list A) :
  (∀ x, f x = true → g x = true) → List.filter f l `sublist_of` List.filter g l.
Proof.
  intros Hfg. induction l as [|x l IH]; simpl; [done|].
  destruct (f x) eqn:Hf.
  - rewrite (Hfg x Hf). by apply sublist_skip.
  - destruct (g x); [by apply sublist_cons | done].
Qed.

Lemma within_window_later (now now' : Q) (s : record) :
  (now <= now')%Q → within_window now' s = true → within_window now s = true.
Proof.
  intros Hle. unfold within_window.
  destruct (s !! "last_seen") as [[| |t| | |]|]; try done.
  rewrite !Qltb_lt. lra.
Qed.

(** X3: with no announce in between, a later list request returns a
    sub-sequence of what an earlier one returned, which is itself a
    sub-sequence of the store in its order: records only drop out as time
    passes, none appears and none is reordered. *)
Theorem listing_only_loses_records (now now' : Q) (servers : list record) :
  Forall stamped servers → (now <= now')%Q →
  ∃ l l',
    (Server.get_servers now servers).1 = Ok (Server.Response (Server.JsonList l) 200)
    ∧ (Server.get_servers now' servers).1 = Ok (Server.Response (Server.JsonList l') 200)
    ∧ l' `sublist_of` l
    ∧ l `sublist_of` servers.
Proof.
  intros Hst Hle.
  exists (List.filter (within_window now) servers),
    (List.filter (within_window now') servers).
  split; [by apply get_servers_stamped|]. split; [by apply get_servers_stamped|].
  split; [|apply filter_sublist].
  apply filter_sublist_impl. intros s. by apply within_window_later.
Qed.

Lemma listing_only_loses_records_witness :
  ∃ l l',
    (Server.get_servers 150 [seen_at 100; seen_at 140]).1
    = Ok (Server.Response (Server.JsonList l) 200)
    ∧ (Server.get_servers 170 [seen_at 100; seen_at 140]).1
      = Ok (Server.Response (Server.JsonList l') 200)
    ∧ l' `sublist_of` l
    ∧ l `sublist_of` [seen_at 100; seen_at 140].
Proof.
  apply (listing_only_loses_records 150 170 [seen_at 100; seen_at 140]).
  - repeat constructor; eexists; reflexivity.
  - discriminate.
Defined.

Lemma refresh_refresh (t1 t2 : Q) (d s : record) :
  Server.refresh t2 d (Server.refresh t1 d s) = Server.refresh t2 d s.
Proof.
  unfold Server.refresh. apply map_eq. intros k.
  destruct (decide (k = "last_seen")) as [->|Hk]; [by rewrite !lookup_insert_eq|].
  rewrite !lookup_insert_ne by done.
  destruct (d !! k) as [v|] eqn:Hd.
  - by rewrite !(lookup_union_Some_l _ _ _ _ Hd).
  - rewrite !lookup_union_r by done. rewrite lookup_insert_ne by done.
    by rewrite lookup_union_r.
Qed.

Lemma refresh_stamp (t1 t2 : Q) (d : record) :
  Server.refresh t2 d (<["last_seen" := JNum t1]> d) = <["last_seen" := JNum t2]> d.
Proof.
  unfold Server.refresh. apply map_eq. intros k.
  destruct (decide (k = "last_seen")) as [->|Hk]; [by rewrite !lookup_insert_eq|].
  rewrite !lookup_insert_ne by done.
  destruct (d !! k) as [v|] eqn:Hd.
  - by rewrite (lookup_union_Some_l _ _ _ _ Hd).
  - rewrite lookup_union_r by done. by rewrite lookup_insert_ne.
Qed.

Lemma same_endpoint_key (s s' d : record) :
  key_of s = key_of s' → keyed s → keyed d →
  Server.same_endpoint s d = Server.same_endpoint s' d.
Proof.
  intros Hkey Hs Hd.
  assert (keyed s') as Hs'. { apply keyed_key_of. rewrite <- Hkey. by apply keyed_key_of. }
  rewrite !same_endpoint_keyed by done. unfold coincide. by rewrite Hkey.
Qed.

Lemma same_endpoint_refl (d : record) : keyed d → Server.same_endpoint d d = Ok true.
Proof. intros Hd. by rewrite same_endpoint_keyed, coincide_refl. Qed.

(** X4: announcing the same valid payload again only moves the timestamp:
    the store after two announces of a payload is the store the second one
    alone would have produced. *)
Theorem reannounce_only_moves_timestamp (t1 t2 : Q) (d : record) (servers : list record) :
  Forall keyed servers → valid_announce d →
  (Server.add_server t1 d servers).1 = Ok Server.registered
  ∧ Server.add_server t2 d (Server.add_server t1 d servers).2
    = Server.add_server t2 d servers.
Proof.
  intros Hk [Hreq Hkd].
  assert (Forall endpointed servers) as He.
  { eapply Forall_impl; [exact Hk|]. apply keyed_endpointed. }
  destruct (add_server_accepts t1 d servers He Hreq)
    as [[H1 Hrest]|(pre & s & post & -> & Hpre & Hhit & H1)]; rewrite H1; simpl.
  - split; [done|]. unfold Server.add_server.
    rewrite (proj2 (required_present d) Hreq).
    rewrite (update_existing_none t2 d servers Hrest).
    rewrite (update_existing_first t2 d _ servers [] Hrest).
    + by rewrite refresh_stamp.
    + rewrite (same_endpoint_key _ d d); [by apply same_endpoint_refl | | | done].
      * apply key_of_stamp.
      * apply keyed_key_of. rewrite key_of_stamp. by apply keyed_key_of.
  - split; [done|]. unfold Server.add_server.
    rewrite (proj2 (required_present d) Hreq).
    rewrite (update_existing_first t2 d s pre post Hpre Hhit).
    rewrite (update_existing_first t2 d _ pre post Hpre).
    + by rewrite refresh_refresh.
    + rewrite (same_endpoint_key _ d d); [by apply same_endpoint_refl | | | done].
      * by apply key_of_refresh.
      * apply keyed_key_of. rewrite key_of_refresh by done. by apply keyed_key_of.
Qed.

Lemma reannounce_only_moves_timestamp_witness :
  Server.add_server 105 (announced "Alpha" 7777)
    (Server.add_server 100 (announced "Alpha" 7777) [seen_at 90]).2
  = Server.add_server 105 (announced "Alpha" 7777) [seen_at 90].
Proof.
  apply (reannounce_only_moves_timestamp 100 105 (announced "Alpha" 7777) [seen_at 90]).
  - apply Forall_singleton. exists "1.2.3.4", 7777%Q. by split.
  - split.
    + repeat constructor; eexists; reflexivity.
    + exists "1.2.3.4", 7777%Q. by split.
Defined.

(** X5: a valid announce leaves the records of every other endpoint as
    they are, in their order. *)
Theorem announce_keeps_other_endpoints (now : Q) (d : record) (servers : list record) :
  Forall keyed servers → valid_announce d →
  List.filter (λ s, negb (coincide s d)) (Server.add_server now d servers).2
  = List.filter (λ s, negb (coincide s d)) servers.
Proof.
  intros Hk [Hreq Hkd].
  assert (Forall endpointed servers) as He.
  { eapply Forall_impl; [exact Hk|]. apply keyed_endpointed. }
  destruct (add_server_accepts now d servers He Hreq)
    as [[-> _]|(pre & s & post & -> & _ & Hhit & ->)]; simpl.
  - rewrite List.filter_app. simpl.
    rewrite coincide_sym, (coincide_key d _ d (key_of_stamp now d)), coincide_refl by done.
    simpl. apply app_nil_r.
  - apply Forall_app in Hk as [_ Hk]. apply Forall_cons in Hk as [Hks _].
    rewrite (same_endpoint_keyed s d Hks Hkd) in Hhit. injection Hhit as Hsd.
    rewrite !List.filter_app. simpl. rewrite Hsd.
    rewrite coincide_sym, (coincide_key d _ d (key_of_refresh now d s Hkd)), coincide_refl
      by done.
    done.
Qed.

Lemma announce_keeps_other_endpoints_witness :
  List.filter (λ s, negb (coincide s (announced "Beta" 7778)))
    (Server.add_server 110 (announced "Beta" 7778) [seen_at 100]).2
  = List.filter (λ s, negb (coincide s (announced "Beta" 7778))) [seen_at 100].
Proof.
  apply (announce_keeps_other_endpoints 110 (announced "Beta" 7778) [seen_at 100]).
  - apply Forall_singleton. exists "1.2.3.4", 7777%Q. by split.
  - split.
    + repeat constructor; eexists; reflexivity.
    + exists "1.2.3.4", 7778%Q. by split.
Defined.

Lemma payload_lookups (host : Host.t) :
  Browser.payload host !! "name" = Some (JStr (Host.name host))
  ∧ Browser.payload host !! "public_ip" = Some (JStr (Host.public_ip host))
  ∧ Browser.payload host !! "port" = Some (JNum (inject_Z (Host.port host)))
  ∧ Browser.payload host !! "map" = Some (JStr (Host.map host)).
Proof. by repeat split. Qed.

Lemma payload_valid (host : Host.t) :
  valid_announce (Browser.payload host)
  ∧ carries (Host.public_ip host) (inject_Z (Host.port host)) (Browser.payload host).
Proof.
  destruct (payload_lookups host) as (Hn & Hi & Hp & Hm).
  split; [split|by split].
  - unfold Server.required_fields. repeat constructor; eauto.
  - by exists (Host.public_ip host), (inject_Z (Host.port host)).
Qed.

(** X6: the registry accepts every payload a heartbeat thread posts: from
    any store the service can be in it answers 200, which the thread counts
    as a success (failures reset to 0, lime emitted), and the store then
    holds exactly one record at the host's public endpoint, with the
    host's name and map and the time of the request. *)
Theorem heartbeat_payload_registers
        (host : Host.t) (now : Q) (servers : list record) (failures : Z) :
  reachable_store servers →
  ∃ resp r,
    (Server.add_server now (Browser.payload host) servers).1 = Ok resp
    ∧ Browser.settle (Browser.Responded (Server.status_code resp)) failures
      = (0%Z, [healthy])
    ∧ List.filter (at_endpoint (Host.public_ip host) (inject_Z (Host.port host)))
        (Server.add_server now (Browser.payload host) servers).2 = [r]
    ∧ r !! "name" = Some (JStr (Host.name host))
    ∧ r !! "map" = Some (JStr (Host.map host))
    ∧ r !! "last_seen" = Some (JNum now).
Proof.
  intros Hreach. pose proof (reachable_store_ok servers Hreach) as Hok.
  destruct (payload_valid host) as [Hv Hc].
  destruct (payload_lookups host) as (Hn & _ & _ & Hm).
  destruct (add_server_valid now _ servers Hok Hv) as (r & Hresp & (Hk & _) & Hone & Hpay & Hls).
  exists Server.registered, r. split; [done|]. split; [done|].
  split; [by rewrite (at_endpoint_filter _ _ _ _ Hk Hc)|].
  split; [|split; [|done]].
  - rewrite <- Hn. apply Hpay; [done|by rewrite Hn].
  - rewrite <- Hm. apply Hpay; [done|by rewrite Hm].
Qed.

Lemma heartbeat_payload_registers_witness :
  ∃ resp r,
    (Server.add_server 100 (Browser.payload sample_host) []).1 = Ok resp
    ∧ Browser.settle (Browser.Responded (Server.status_code resp)) 3 = (0%Z, [healthy])
    ∧ List.filter (at_endpoint "1.2.3.4" (inject_Z 7777))
        (Server.add_server 100 (Browser.payload sample_host) []).2 = [r]
    ∧ r !! "name" = Some (JStr "Alpha")
    ∧ r !! "map" = Some (JStr "District")
    ∧ r !! "last_seen" = Some (JNum 100).
Proof. exact (heartbeat_payload_registers sample_host 100 [] 3 reachable_empty). Defined.

(** ** Heartbeat client and supervisor *)

Lemma settle_is_failure (a : Browser.attempt) (failures : Z) :
  Browser.settle a failures
  = if is_failure a
    then ((failures + 1)%Z, if (2 <=? failures + 1)%Z then [degraded] else [])
    else (0%Z, [healthy]).
Proof.
  unfold Browser.settle. destruct a as [code|]; simpl; [|done].
  destruct ((200 <=? code)%Z && (code <? 300)%Z); done.
Qed.

Lemma trailing_failures_snoc (outcomes : list Browser.attempt) (a : Browser.attempt) :
  trailing_failures (outcomes ++ [a])
  = if is_failure a then S (trailing_failures outcomes) else 0.
Proof. unfold trailing_failures. by rewrite rev_unit. Qed.

Lemma hb_loop_failures (outcomes : list Browser.attempt) :
  (Browser._hb_loop outcomes).1 = Z.of_nat (trailing_failures outcomes).
Proof.
  induction outcomes as [|a outcomes IH] using rev_ind; [done|].
  rewrite hb_loop_snoc, trailing_failures_snoc. simpl.
  rewrite settle_is_failure, IH. destruct (is_failure a); simpl; lia.
Qed.

(** X7: the failure counter of the loop is the number of failed requests
    since the last success (or since the start): a success sets it back to
    0 whatever it was, a failure adds one. *)
Theorem failures_count_since_last_success
        (outcomes : list Browser.attempt) (a : Browser.attempt) :
  (Browser._hb_loop outcomes).1 = Z.of_nat (trailing_failures outcomes)
  ∧ (Browser._hb_loop (outcomes ++ [a])).1
    = if is_failure a then ((Browser._hb_loop outcomes).1 + 1)%Z else 0%Z.
Proof.
  split; [apply hb_loop_failures|].
  rewrite hb_loop_snoc. simpl. rewrite settle_is_failure. by destruct (is_failure a).
Qed.

Lemma two_in_a_row_snoc (outcomes : list Browser.attempt) (a : Browser.attempt) :
  two_in_a_row (outcomes ++ [a])
  ↔ two_in_a_row outcomes
    ∨ (is_failure a = true ∧ (1 ≤ trailing_failures outcomes)%nat).
Proof.
  split.
  - intros (i & x & y & Hx & Hy & Hfx & Hfy).
    destruct (decide (S i < length outcomes)) as [Hlt|Hge].
    + left. exists i, x, y. rewrite lookup_app_l in Hx by lia.
      rewrite lookup_app_l in Hy by lia. done.
    + right. assert (S i = length outcomes) as Hi.
      { apply lookup_lt_Some in Hy. rewrite length_app in Hy. simpl in Hy. lia. }
      rewrite lookup_app_r, Hi, Nat.sub_diag in Hy by lia. injection Hy as <-.
      split; [done|]. rewrite lookup_app_l in Hx by lia.
      destruct outcomes as [|z outcomes _] using rev_ind; [done|].
      rewrite length_app in Hi. simpl in Hi.
      rewrite lookup_app_r in Hx by lia.
      replace (i - length outcomes) with 0 in Hx by lia. injection Hx as ->.
      rewrite trailing_failures_snoc, Hfx. lia.
  - intros [(i & x & y & Hx & Hy & Hfx & Hfy)|[Hfa Htr]].
    + exists i, x, y. repeat split; try done; by apply lookup_app_l_Some.
    + destruct outcomes as [|z outcomes _] using rev_ind;
        [unfold trailing_failures in Htr; simpl in Htr; lia|].
      rewrite trailing_failures_snoc in Htr.
      destruct (is_failure z) eqn:Hfz; [|lia].
      exists (length outcomes), z, a. repeat split; try done.
      * rewrite <- app_assoc. by rewrite lookup_app_r, Nat.sub_diag.
      * rewrite lookup_app_r; rewrite length_app; simpl; [|lia].
        by replace (S (length outcomes) - (length outcomes + 1)) with 0 by lia.
Qed.

(** X8: the loop emits the degraded colour exactly when two requests in a
    row have failed at some point; isolated failures between successes
    never turn the LED red. *)
Theorem degraded_iff_two_failures_in_a_row (outcomes : list Browser.attempt) :
  degraded ∈ (Browser._hb_loop outcomes).2 ↔ two_in_a_row outcomes.
Proof.
  induction outcomes as [|a outcomes IH] using rev_ind.
  - split; [by intros ?%elem_of_nil|]. by intros (i & x & y & Hx & _).
  - rewrite hb_loop_snoc, two_in_a_row_snoc. simpl.
    rewrite elem_of_app, IH, settle_is_failure, hb_loop_failures.
    destruct (is_failure a); simpl.
    + destruct (2 <=? Z.of_nat (trailing_failures outcomes) + 1)%Z eqn:E.
      * apply Z.leb_le in E. split; [|by right; left].
        intros _. right. split; [done|lia].
      * apply Z.leb_gt in E. split.
        -- intros [H|H]; [by left|by apply elem_of_nil in H].
        -- intros [H|[_ H]]; [by left|lia].
    + split.
      * intros [H|H]; [by left|].
        apply list_elem_of_singleton in H. discriminate.
      * intros [H|[H _]]; [by left|done].
Qed.

Lemma filter_at_most_one {A} (f : A → bool) (l : list A) :
  (∀ j y j' y', l !! j = Some y → f y = true → l !! j' = Some y' → f y' = true → j = j') →
  (length (List.filter f l) ≤ 1)%nat.
Proof.
  intros Huniq. destruct (List.filter f l) as [|x rest] eqn:Hf; [simpl; lia|].
  assert (In x (List.filter f l)) as Hin by (rewrite Hf; by left).
  apply filter_In in Hin as [Hin Hfx].
  apply list_elem_of_In, list_elem_of_lookup in Hin as [i Hi].
  rewrite <- Hf. rewrite (filter_unique f l i x Hi Hfx); [done|].
  intros j y Hj Hfy. by apply (Huniq j y i x).
Qed.

(** X9: in every window the application can be in, at most one heartbeat
    loop is running for any server identity. *)
Theorem at_most_one_loop_per_identity (w : Browser.window) (id : string) :
  reachable w → (running_loops id w ≤ 1)%nat.
Proof.
  intros Hreach. destruct (reachable_ok w Hreach) as ([Hlen Hev Hown Hlive] & _ & _).
  apply filter_at_most_one. intros j y j' y' Hj Hfy Hj' Hfy'.
  apply andb_true_iff in Hfy as [Hid%String.eqb_eq Hl%negb_true_iff].
  apply andb_true_iff in Hfy' as [Hid'%String.eqb_eq Hl'%negb_true_iff].
  rewrite (Hev j y Hj) in Hl. rewrite (Hev j' y' Hj') in Hl'.
  pose proof (Hlive j y Hj Hl) as H1. pose proof (Hlive j' y' Hj' Hl') as H2.
  rewrite Hid in H1. rewrite Hid' in H2. congruence.
Qed.

Lemma at_most_one_loop_per_identity_witness : (running_loops "h1" two_sessions ≤ 1)%nat.
Proof.
  apply at_most_one_loop_per_identity.
  exists 0%Q, [sample_host; second_host],
    [Browser.StartHeartbeat 0; Browser.StartHeartbeat 1]. reflexivity.
Defined.

(** What a step keeps: the events that are set, and every thread with its
    host and event; a finished thread is not touched. *)
Lemma step_keeps (a : Browser.action) (w w' : Browser.window) :
  Browser.step a w = Some w' →
  (∀ ev, Browser.is_set ev w = true → Browser.is_set ev w' = true)
  ∧ ∀ i t, Browser.threads w !! i = Some t →
           ∃ t', Browser.threads w' !! i = Some t'
                 ∧ Browser.host t' = Browser.host t
                 ∧ Browser.stop_event t' = Browser.stop_event t
                 ∧ (Browser.at_phase t = Browser.Finished → t' = t).
Proof.
  intros Hstep.
  assert (∀ j u (l : list Browser.thread),
            l !! j = Some u → Browser.at_phase u ≠ Browser.Finished →
            ∀ u', Browser.host u' = Browser.host u →
                  Browser.stop_event u' = Browser.stop_event u →
            ∀ i t, l !! i = Some t →
                   ∃ t', <[j := u']> l !! i = Some t'
                         ∧ Browser.host t' = Browser.host t
                         ∧ Browser.stop_event t' = Browser.stop_event t
                         ∧ (Browser.at_phase t = Browser.Finished → t' = t)) as Hupd.
  { intros j u l Hj Hph u' Hh He i t Hi. destruct (decide (j = i)) as [->|Hne].
    - exists u'. rewrite list_lookup_insert_eq by (by eapply lookup_lt_Some).
      rewrite Hi in Hj. injection Hj as ->. by repeat split.
    - exists t. by rewrite list_lookup_insert_ne. }
  destruct a as [d|hosts|idx| | |j|j a|j]; simpl in Hstep.
  - destruct (Qle_bool 0 d); [|done]. injection Hstep as <-. split; [done|]. eauto.
  - injection Hstep as <-. split; [done|]. eauto.
  - injection Hstep as <-.
    destruct (start_cases idx w) as [(Hh & He & Ht & Hp & Hc)|(host & _ & _ & ->)].
    + split; [intros ev; by rewrite (is_set_core w _ _ He)|]. rewrite Ht. eauto.
    + split.
      * intros ev Hset. apply is_set_true. simpl.
        by apply (is_set_app w _ [false]) in Hset as [_ Hset].
      * intros i t Hi. exists t. simpl. split; [by apply lookup_app_l_Some|done].
  - injection Hstep as <-. destruct (stop_frame w) as (_ & Ht & _). split.
    + intros ev Hset. apply is_set_true. rewrite stop_events.
      by apply set_all_keeps, is_set_true.
    + rewrite Ht. eauto.
  - injection Hstep as <-. rewrite close_events. split; [intros ev; apply is_set_set_all|].
    simpl. eauto.
  - destruct (guard_cases j w w' Hstep)
      as (host & ev & f & Hj & [[Hsetj ->]|[Hsetj ->]]);
      (split; [done|]); simpl; by apply (Hupd j _ _ Hj).
  - destruct (reply_cases j a w w' Hstep)
      as (host & ev & f & Hj & (Hh & He & Ht & Hp & Hc)).
    split; [intros ev'; by rewrite (is_set_core _ w' _ He)|].
    rewrite Ht. simpl. by apply (Hupd j _ _ Hj).
  - destruct (wake_cases j w w' Hstep) as (host & ev & f & since & Hj & _ & ->).
    split; [done|]. simpl. by apply (Hupd j _ _ Hj).
Qed.

(** X10: cancellation is permanent and threads are never replaced: along
    any run an event that is set stays set, every thread keeps its host
    data and its event (also when hosts.json is rewritten meanwhile), and a
    thread that has left its loop does nothing more. *)
Theorem cancellation_is_permanent (acts : list Browser.action) (w w' : Browser.window) :
  Browser.run acts w = Some w' →
  (∀ ev, Browser.is_set ev w = true → Browser.is_set ev w' = true)
  ∧ ∀ i t, Browser.threads w !! i = Some t →
           ∃ t', Browser.threads w' !! i = Some t'
                 ∧ Browser.host t' = Browser.host t
                 ∧ Browser.stop_event t' = Browser.stop_event t
                 ∧ (Browser.at_phase t = Browser.Finished → t' = t).
Proof.
  revert w. induction acts as [|a acts IH]; intros w Hrun; simpl in Hrun.
  - injection Hrun as <-. split; [done|]. eauto.
  - destruct (Browser.step a w) as [w1|] eqn:Hstep; [|done]. simpl in Hrun.
    destruct (step_keeps a w w1 Hstep) as [Hs1 Ht1].
    destruct (IH w1 Hrun) as [Hs2 Ht2]. split; [auto|].
    intros i t Hi. destruct (Ht1 i t Hi) as (t1 & Hi1 & Hh1 & He1 & Hf1).
    destruct (Ht2 i t1 Hi1) as (t2 & Hi2 & Hh2 & He2 & Hf2).
    exists t2. split; [done|]. split; [congruence|]. split; [congruence|].
    intros Hfin. specialize (Hf1 Hfin). subst t1. by apply Hf2.
Qed.

Lemma cancellation_is_permanent_witness :
  ∃ w', Browser.run [Browser.EditHosts []; Browser.Tick 7; Browser.StartHeartbeat 0]
          (Browser.manual_stop_heartbeat two_sessions) = Some w'
        ∧ Browser.is_set 0 w' = true ∧ Browser.is_set 1 w' = true.
Proof.
  eexists. split; [reflexivity|].
  match goal with
  | |- Browser.is_set _ ?w' = _ ∧ _ =>
      destruct (cancellation_is_permanent
                  [Browser.EditHosts []; Browser.Tick 7; Browser.StartHeartbeat 0]
                  (Browser.manual_stop_heartbeat two_sessions) w' eq_refl) as [H _]
  end.
  split; apply H; reflexivity.
Defined.

Lemma no_loop_running (w : Browser.window) (id : string) :
  (∀ i t, Browser.threads w !! i = Some t →
          Browser.is_set (Browser.stop_event t) w = true) →
  running_loops id w = 0.
Proof.
  intros Hall. unfold running_loops. rewrite filter_none; [done|].
  apply Forall_forall. intros t Hin. apply list_elem_of_lookup in Hin as [i Hi].
  by rewrite (Hall i t Hi), andb_false_r.
Qed.

(** X11: closing the window cancels every heartbeat loop: from any window
    the application can be in, after [closeEvent] no loop is running for
    any identity; the session table itself is left as it was. *)
Theorem close_cancels_every_loop (w : Browser.window) :
  reachable w →
  (∀ id, running_loops id (Browser.closeEvent w) = 0)
  ∧ Browser.hb_threads (Browser.closeEvent w) = Browser.hb_threads w
  ∧ Browser.threads (Browser.closeEvent w) = Browser.threads w.
Proof.
  intros Hreach. destruct (reachable_ok w Hreach) as ([Hlen Hev Hown Hlive] & _ & _).
  rewrite close_events. split; [|done].
  intros id. apply no_loop_running. simpl. intros i t Hi.
  apply is_set_true. simpl. rewrite (Hev i t Hi).
  destruct (Browser.is_set i w) eqn:E.
  - by apply set_all_keeps, is_set_true.
  - apply set_all_sets.
    + apply tracked_refs. eexists. by apply (Hlive i t).
    + rewrite Hlen. by eapply lookup_lt_Some.
Qed.

Lemma close_cancels_every_loop_witness :
  running_loops "h1" (Browser.closeEvent two_sessions) = 0
  ∧ running_loops "h2" (Browser.closeEvent two_sessions) = 0.
Proof.
  assert (reachable two_sessions) as Hreach.
  { exists 0%Q, [sample_host; second_host],
      [Browser.StartHeartbeat 0; Browser.StartHeartbeat 1]. reflexivity. }
  destruct (close_cancels_every_loop two_sessions Hreach) as [H _].
  split; apply H.
Defined.

Lemma is_set_new_event (ev : nat) (w : Browser.window) :
  bool_decide ((Browser.events w ++ [false]) !! ev = Some true) = Browser.is_set ev w.
Proof.
  unfold Browser.is_set. apply bool_decide_ext. split.
  - intros H. destruct (decide (ev < length (Browser.events w))) as [Hlt|Hge].
    + by rewrite lookup_app_l in H.
    + rewrite lookup_app_r in H by lia.
      by apply list_lookup_singleton_Some in H as [_ ?].
  - by apply lookup_app_l_Some.
Qed.

Lemma start_new (idx : Z) (w : Browser.window) (host : Host.t) :
  (0 ≤ idx)%Z → Browser.load_hosts w !! Z.to_nat idx = Some host →
  Browser.already_running (Host.id host) w = false →
  (Browser.manual_start_heartbeat idx w).2
  = Browser.Window
      (<[Host.id host := length (Browser.events w)]> (Browser.hb_threads w))
      (Browser.events w ++ [false])
      (Browser.threads w
         ++ [Browser.Thread host (length (Browser.events w)) 0 Browser.Checking])
      (Browser.hb_color w ++ [starting]) (Browser.boxes w) (Browser.posts w)
      (Browser.clock w) (Browser.processes w) (Browser.hosts_db w).
Proof.
  intros Hidx Hhost Hrun. unfold Browser.manual_start_heartbeat.
  by rewrite (proj2 (Z.ltb_ge _ _) Hidx), Hhost, Hrun.
Qed.

(** The loops running after a start that created a session. *)
Lemma running_loops_started (w : Browser.window) (host : Host.t) (id : string)
      (hb : gmap string nat) (colors : list string) :
  running_loops id
    (Browser.Window hb (Browser.events w ++ [false])
       (Browser.threads w
          ++ [Browser.Thread host (length (Browser.events w)) 0 Browser.Checking])
       colors (Browser.boxes w) (Browser.posts w) (Browser.clock w)
       (Browser.processes w) (Browser.hosts_db w))
  = running_loops id w + (if String.eqb (Host.id host) id then 1 else 0).
Proof.
  unfold running_loops. simpl. rewrite List.filter_app, length_app. f_equal.
  - f_equal. apply filter_ext_Forall, Forall_forall. intros u _.
    f_equal. f_equal. apply is_set_new_event.
  - simpl. unfold Browser.is_set at 1. simpl.
    rewrite lookup_app_r, Nat.sub_diag by done. simpl.
    by destruct (String.eqb (Host.id host) id).
Qed.

Lemma stop_hosts (w : Browser.window) :
  Browser.load_hosts (Browser.manual_stop_heartbeat w) = Browser.load_hosts w
  ∧ length (Browser.events (Browser.manual_stop_heartbeat w)) = length (Browser.events w).
Proof.
  split; [|by rewrite stop_events, set_all_length].
  rewrite manual_stop_heartbeat_unfold. simpl. by destruct (existsb _ _).
Qed.

Lemma stop_sets_every_thread (w : Browser.window) :
  sup_ok w →
  ∀ i t, Browser.threads (Browser.manual_stop_heartbeat w) !! i = Some t →
         Browser.is_set (Browser.stop_event t) (Browser.manual_stop_heartbeat w) = true.
Proof.
  intros Hs i t Hi. pose proof (sup_ok_stop w Hs) as [_ Hev' _ Hlive'].
  destruct (stop_frame w) as (Hh & _).
  rewrite (Hev' i t Hi). destruct (Browser.is_set i _) eqn:E; [done|].
  pose proof (Hlive' i t Hi E) as Htr. rewrite Hh in Htr. by rewrite lookup_empty in Htr.
Qed.

(** X12: Stop All followed by Start restarts cleanly: from any window the
    application can be in, stopping every heartbeat and then starting the
    selected server leaves exactly one loop running, the one of that
    server, tracked alone in the table under a new event, and the LED on
    the starting colour. *)
Theorem restart_after_stop (w : Browser.window) (idx : Z) (host : Host.t) :
  reachable w →
  (0 ≤ idx)%Z → Browser.load_hosts w !! Z.to_nat idx = Some host →
  let w2 := (Browser.manual_start_heartbeat idx (Browser.manual_stop_heartbeat w)).2 in
  (∀ id, running_loops id w2 = if String.eqb (Host.id host) id then 1 else 0)
  ∧ Browser.hb_threads w2 = {[ Host.id host := length (Browser.events w) ]}
  ∧ Browser.is_set (length (Browser.events w)) w2 = false
  ∧ last (Browser.hb_color w2) = Some starting.
Proof.
  intros Hreach Hidx Hhost. destruct (reachable_ok w Hreach) as (Hs & _ & _).
  destruct (stop_hosts w) as [Hhosts Hlen]. destruct (stop_frame w) as (Hh & _).
  assert (Browser.already_running (Host.id host) (Browser.manual_stop_heartbeat w) = false)
    as Hrun.
  { unfold Browser.already_running. by rewrite Hh, lookup_empty. }
  rewrite <- Hhosts in Hhost. simpl.
  rewrite (start_new idx _ host Hidx Hhost Hrun).
  split; [|split; [|split]].
  - intros id. rewrite running_loops_started.
    by rewrite (no_loop_running _ id (stop_sets_every_thread w Hs)).
  - simpl. by rewrite Hh, Hlen, insert_empty.
  - unfold Browser.is_set. simpl. rewrite <- Hlen.
    by rewrite lookup_app_r, Nat.sub_diag.
  - simpl. apply last_snoc.
Qed.

Lemma restart_after_stop_witness :
  let w2 := (Browser.manual_start_heartbeat 1
               (Browser.manual_stop_heartbeat two_sessions)).2 in
  running_loops "h2" w2 = 1 ∧ running_loops "h1" w2 = 0
  ∧ Browser.hb_threads w2 = {[ "h2" := 2 ]}.
Proof.
  assert (reachable two_sessions) as Hreach.
  { exists 0%Q, [sample_host; second_host],
      [Browser.StartHeartbeat 0; Browser.StartHeartbeat 1]. reflexivity. }
  destruct (restart_after_stop two_sessions 1 second_host Hreach) as (H1 & H2 & _);
    [lia | reflexivity |].
  split; [apply (H1 "h2")|]. split; [apply (H1 "h1")|exact H2].
Defined.

Lemma step_posts (a : Browser.action) (w w' : Browser.window) :
  Browser.step a w = Some w' →
  Browser.posts w' = Browser.posts w
  ∨ ∃ i th, Browser.threads w' !! i = Some th
            ∧ Browser.posts w'
              = Browser.posts w ++ [(i, Browser.clock w, Browser.payload (Browser.host th))].
Proof.
  intros Hstep. destruct a as [d|hosts|idx| | |j|j a|j]; simpl in Hstep.
  - destruct (Qle_bool 0 d); [|done]. injection Hstep as <-. by left.
  - injection Hstep as <-. by left.
  - injection Hstep as <-. left.
    by destruct (start_cases idx w) as [(_ & _ & _ & Hp & _)|(host & _ & _ & ->)].
  - injection Hstep as <-. left. by destruct (stop_frame w) as (_ & _ & Hp & _).
  - injection Hstep as <-. left. by rewrite close_events.
  - destruct (guard_cases j w w' Hstep)
      as (host & ev & f & Hj & [[Hsetj ->]|[Hsetj ->]]); [by left|].
    right. exists j, (Browser.Thread host ev f Browser.Posting). simpl.
    split; [|done]. apply list_lookup_insert_eq. by eapply lookup_lt_Some.
  - destruct (reply_cases j a w w' Hstep) as (host & ev & f & Hj & (_ & _ & _ & Hp & _)).
    left. by rewrite Hp.
  - destruct (wake_cases j w w' Hstep) as (host & ev & f & since & Hj & _ & ->). by left.
Qed.

Lemma run_posts_of_hosts (acts : list Browser.action) (w w' : Browser.window) :
  posts_of_hosts w → Browser.run acts w = Some w' →
  posts_of_hosts w' ∧ Browser.posts w `prefix_of` Browser.posts w'.
Proof.
  revert w. induction acts as [|a acts IH]; intros w Hinv Hrun; simpl in Hrun.
  - by injection Hrun as <-.
  - destruct (Browser.step a w) as [w1|] eqn:Hstep; [|done]. simpl in Hrun.
    destruct (step_keeps a w w1 Hstep) as [_ Hkeep].
    assert (posts_of_hosts w1 ∧ Browser.posts w `prefix_of` Browser.posts w1)
      as [Hinv1 Hpre1].
    { destruct (step_posts a w w1 Hstep) as [Hp|(j & th & Hj & Hp)]; rewrite Hp.
      - split; [|done]. intros i t p Hin. rewrite Hp in Hin.
        destruct (Hinv i t p Hin) as (u & Hu & ->).
        destruct (Hkeep i u Hu) as (u' & Hu' & Hh & _). exists u'. by rewrite Hh.
      - split; [|by apply prefix_app_r]. intros i t p Hin. rewrite Hp in Hin.
        apply elem_of_app in Hin as [Hin|Hin].
        + destruct (Hinv i t p Hin) as (u & Hu & ->).
          destruct (Hkeep i u Hu) as (u' & Hu' & Hh & _). exists u'. by rewrite Hh.
        + apply list_elem_of_singleton in Hin. injection Hin as -> -> ->. by exists th. }
    destruct (IH w1 Hinv1 Hrun) as [Hinv' Hpre']. split; [done|].
    by etrans.
Qed.

(** X13: every announce the application has ever issued is the payload
    of the host its thread was started with, hence a valid announce of that
    host's public endpoint (rewriting hosts.json does not change what a
    running thread announces), and the log of announces only grows. *)
Theorem announces_come_from_started_hosts (w : Browser.window) :
  reachable w →
  (∀ i t p, (i, t, p) ∈ Browser.posts w →
     ∃ th, Browser.threads w !! i = Some th
           ∧ p = Browser.payload (Browser.host th)
           ∧ valid_announce p
           ∧ carries (Host.public_ip (Browser.host th))
               (inject_Z (Host.port (Browser.host th))) p)
  ∧ ∀ acts w', Browser.run acts w = Some w' →
               Browser.posts w `prefix_of` Browser.posts w'.
Proof.
  intros (t0 & hosts & acts & Hrun).
  assert (posts_of_hosts (Browser.initial t0 hosts)) as H0.
  { intros i t p Hin. simpl in Hin. by apply elem_of_nil in Hin. }
  destruct (run_posts_of_hosts acts _ w H0 Hrun) as [Hinv _]. split.
  - intros i t p Hin. destruct (Hinv i t p Hin) as (th & Hth & ->).
    exists th. destruct (payload_valid (Browser.host th)) as [Hv Hc].
    split; [done|]. split; [done|]. by split.
  - intros acts' w' Hrun'. by destruct (run_posts_of_hosts acts' w w' Hinv Hrun').
Qed.

Lemma announces_come_from_started_hosts_witness :
  ∃ th, Browser.threads one_waiting !! 0 = Some th
        ∧ Browser.payload sample_host = Browser.payload (Browser.host th).
Proof.
  assert (reachable one_waiting) as Hreach.
  { exists 0%Q, [sample_host],
      [Browser.StartHeartbeat 0; Browser.Guard 0; Browser.Reply 0 (Browser.Responded 200)].
    reflexivity. }
  destruct (announces_come_from_started_hosts one_waiting Hreach) as [H _].
  destruct (H 0 0%Q (Browser.payload sample_host)) as (th & Hth & Hp & _).
  - apply list_elem_of_singleton. reflexivity.
  - by exists th.
Defined.

(** X14: starting a heartbeat touches no other identity: for every
    identity other than the selected server's, the loops running and the
    table entry are the same before and after. *)
Theorem start_leaves_other_identities (w : Browser.window) (idx : Z) (id : string) :
  (∀ host, Browser.load_hosts w !! Z.to_nat idx = Some host → Host.id host ≠ id) →
  running_loops id (Browser.manual_start_heartbeat idx w).2 = running_loops id w
  ∧ Browser.hb_threads (Browser.manual_start_heartbeat idx w).2 !! id
    = Browser.hb_threads w !! id.
Proof.
  intros Hother.
  destruct (start_cases idx w) as [(Hh & He & Ht & _)|(host & Hhost & _ & ->)].
  - split; [by apply running_loops_core | by rewrite Hh].
  - specialize (Hother host Hhost). split.
    + rewrite running_loops_started.
      apply String.eqb_neq in Hother. rewrite Hother. lia.
    + simpl. by rewrite lookup_insert_ne.
Qed.

Lemma start_leaves_other_identities_witness :
  running_loops "h1" (Browser.manual_start_heartbeat 1 two_sessions).2
  = running_loops "h1" two_sessions.
Proof.
  apply (start_leaves_other_identities two_sessions 1 "h1").
  intros host [= <-]. discriminate.
Defined.

(** ** Launch orchestrator *)

Lemma choose_exe_path_some (env : Browser.answers) (w : Browser.window) (exe : string) :
  (Browser.choose_exe_path env w).1 = Some exe →
  (Browser.choose_exe_path env w).2 = w
  ∧ exe = Browser.open_file env
  ∧ Browser.truthy exe = true ∧ Browser.path_exists env exe = true.
Proof.
  unfold Browser.choose_exe_path.
  destruct (Browser.truthy (Browser.open_file env)) eqn:Ht; simpl; [|done].
  destruct (Browser.path_exists env (Browser.open_file env)) eqn:Hp; simpl; [|done].
  by intros [= <-].
Qed.

Lemma choose_exe_path_none (env : Browser.answers) (w : Browser.window) :
  (Browser.choose_exe_path env w).1 = None →
  same_core w (Browser.choose_exe_path env w).2
  ∧ Browser.processes (Browser.choose_exe_path env w).2 = Browser.processes w
  ∧ Browser.hosts_db (Browser.choose_exe_path env w).2 = Browser.hosts_db w.
Proof.
  unfold Browser.choose_exe_path.
  destruct (negb (Browser.truthy _)); simpl; [by repeat split|].
  destruct (negb (Browser.path_exists _ _)); simpl; [by repeat split|done].
Qed.

Lemma ensure_host_exe_some (env : Browser.answers) (cfg : Host.t) (w : Browser.window)
      (exe : string) :
  (Browser._ensure_host_exe env cfg w).1 = Some exe →
  Browser.boxes (Browser._ensure_host_exe env cfg w).2 = Browser.boxes w
  ∧ Browser.truthy exe = true ∧ Browser.path_exists env exe = true.
Proof.
  unfold Browser._ensure_host_exe.
  destruct (Browser.truthy _ && Browser.path_exists _ _) eqn:E; simpl.
  - intros [= <-]. by apply andb_true_iff in E as [-> ->].
  - pose proof (choose_exe_path_some env w) as Hc.
    destruct (Browser.choose_exe_path env w) as [[p|] w1]; simpl in *; [|done].
    intros [= <-]. destruct (Hc p eq_refl) as (-> & _ & Ht & Hp). by repeat split.
Qed.

(** X15: when the selected server's password is typed and the dedicated
    server cannot be started, nothing is started and no warm-up wait is
    made: the client is not launched either, the failure is shown in one
    "Launch Error" box. When the server starts but the client cannot, the
    server process stays and the wait has been made. *)
Theorem launch_failure_paths
        (env : Browser.answers) (w : Browser.window) (cfg : Host.t) (exe e : string) :
  (0 ≤ Browser.my_row env)%Z →
  Browser.load_hosts w !! Z.to_nat (Browser.my_row env) = Some cfg →
  (Browser._ensure_host_exe env cfg w).1 = Some exe →
  Browser.get_text env = (Host.password cfg, true) →
  (Browser.popen_error env (Browser.server_argv exe cfg) = Some e →
   (Browser.launch_selected env w).1 = Ok ()
   ∧ Browser.processes (Browser.launch_selected env w).2 = Browser.processes w
   ∧ Browser.clock (Browser.launch_selected env w).2 = Browser.clock w
   ∧ Browser.boxes (Browser.launch_selected env w).2
     = Browser.boxes w ++ [launch_error_box e])
  ∧ (Browser.popen_error env (Browser.server_argv exe cfg) = None →
     Browser.popen_error env
       [exe; Browser.endpoint (Host.local_ip cfg) (Host.port cfg)] = Some e →
     (Browser.launch_selected env w).1 = Ok ()
     ∧ Browser.processes (Browser.launch_selected env w).2
       = Browser.processes w ++ [(Browser.clock w, Browser.server_argv exe cfg)]
     ∧ Browser.clock (Browser.launch_selected env w).2 = (Browser.clock w + 10)%Q
     ∧ Browser.boxes (Browser.launch_selected env w).2
       = Browser.boxes w ++ [launch_error_box e]).
Proof.
  intros Hrow Hcfg Hexe Htext.
  pose proof (ensure_host_exe_frame env cfg w) as [Hproc Hclock].
  pose proof (ensure_host_exe_some env cfg w exe Hexe) as (Hbox & _ & _).
  unfold Browser.launch_selected.
  rewrite (proj2 (Z.leb_le _ _) Hrow), Hcfg.
  destruct (Browser._ensure_host_exe env cfg w) as [o w'] eqn:He.
  simpl in Hexe, Hproc, Hclock, Hbox. subst o. rewrite Htext, String.eqb_refl. simpl.
  unfold Browser.Popen. split.
  - intros ->. simpl. by rewrite Hproc, Hclock, Hbox.
  - intros -> ->. simpl. by rewrite Hproc, Hclock, Hbox.
Qed.

Lemma launch_failure_paths_witness :
  Browser.processes
    (Browser.launch_selected server_fails (Browser.initial 0 [sample_host])).2 = []
  ∧ Browser.boxes
      (Browser.launch_selected server_fails (Browser.initial 0 [sample_host])).2
    = [] ++ [launch_error_box "not found"].
Proof.
  destruct (launch_failure_paths server_fails (Browser.initial 0 [sample_host])
              sample_host "C:\game.exe" "not found") as [H _];
    try reflexivity; try (simpl; lia).
  destruct (H eq_refl) as (_ & Hp & _ & Hb). by split.
Defined.

(** Closes a leaf of the case analysis of [launch_selected]: the process
    log has grown by at most two entries, nothing was raised, the heartbeat
    fields are those of the window before. *)
Ltac launch_leaf :=
  simpl;
  repeat match goal with H : _ = _ |- _ => rewrite H end;
  split;
  [ first
      [ by (exists []; rewrite app_nil_r; split; [reflexivity | simpl; lia])
      | by (eexists [_]; split; [reflexivity | simpl; lia])
      | by (eexists [_; _]; rewrite <- app_assoc; split; [reflexivity | simpl; lia]) ]
  | split; [ by intros ? ? | repeat split; reflexivity ] ].

(** X16: whatever the user answers and whatever fails, [launch_selected]
    starts at most two processes and only adds to the process log; the only
    exception it lets out is the [IndexError] of a selected row beyond the
    hosts read from disk, and then nothing has changed; it never touches
    the heartbeat sessions, events, threads or announces. *)
Theorem launch_selected_bounds (env : Browser.answers) (w : Browser.window) :
  (∃ started,
     Browser.processes (Browser.launch_selected env w).2 = Browser.processes w ++ started
     ∧ (length started ≤ 2)%nat)
  ∧ (∀ e, (Browser.launch_selected env w).1 = Raise e →
          e = IndexError
          ∧ (Browser.launch_selected env w).2 = w
          ∧ (length (Browser.load_hosts w) ≤ Z.to_nat (Browser.my_row env))%nat)
  ∧ Browser.hb_threads (Browser.launch_selected env w).2 = Browser.hb_threads w
  ∧ Browser.events (Browser.launch_selected env w).2 = Browser.events w
  ∧ Browser.threads (Browser.launch_selected env w).2 = Browser.threads w
  ∧ Browser.posts (Browser.launch_selected env w).2 = Browser.posts w.
Proof.
  unfold Browser.launch_selected.
  destruct (0 <=? Browser.my_row env)%Z.
  - destruct (Browser.load_hosts w !! Z.to_nat (Browser.my_row env)) as [cfg|] eqn:Hcfg.
    + assert (∃ o w', Browser._ensure_host_exe env cfg w = (o, w')
                      ∧ Browser.processes w' = Browser.processes w
                      ∧ Browser.hb_threads w' = Browser.hb_threads w
                      ∧ Browser.events w' = Browser.events w
                      ∧ Browser.threads w' = Browser.threads w
                      ∧ Browser.posts w' = Browser.posts w)
        as (o & w' & -> & Hp & Hh & He & Ht & Hpo).
      { unfold Browser._ensure_host_exe, Browser.choose_exe_path.
        repeat case_match; simplify_eq; eexists _, _; by repeat split. }
      clear Hcfg. destruct o as [exe|]; [|launch_leaf].
      destruct (Browser.get_text env) as [pw ok]. unfold Browser.Popen.
      destruct (ok && String.eqb pw (Host.password cfg)).
      * destruct (Browser.popen_error env (Browser.server_argv exe cfg)); [launch_leaf|].
        simpl. destruct (Browser.popen_error env _); launch_leaf.
      * destruct (Browser.popen_error env _); launch_leaf.
    + simpl. split; [exists []; split; [by rewrite app_nil_r | simpl; lia]|].
      split; [|by repeat split].
      intros e [= <-]. split; [done|]. split; [done|]. by apply lookup_ge_None.
  - destruct (Browser.available_row env <? 0)%Z; [launch_leaf|].
    destruct (Browser.after_first " - " (Browser.available_text env)) as [endp|];
      [|launch_leaf].
    unfold Browser.choose_exe_path.
    destruct (negb (Browser.truthy (Browser.open_file env))); [launch_leaf|].
    destruct (negb (Browser.path_exists env (Browser.open_file env))); [launch_leaf|].
    unfold Browser.Popen. destruct (Browser.popen_error env _); launch_leaf.
Qed.

Lemma set_exe_path_same (cfg : Host.t) : Host.set_exe_path (Host.exe_path cfg) cfg = cfg.
Proof. by destruct cfg. Qed.

Lemma assign_exe_other (id exe : string) (hosts : list Host.t) :
  id ∉ Host.id <$> hosts → Browser.assign_exe id exe hosts = hosts.
Proof.
  induction hosts as [|h hosts IH]; simpl; [done|]. intros Hnot.
  apply not_elem_of_cons in Hnot as [Hne Hnot].
  apply not_eq_sym, String.eqb_neq in Hne. rewrite Hne. by rewrite IH.
Qed.

Lemma assign_exe_insert (exe : string) (hosts : list Host.t) (i : nat) (cfg : Host.t) :
  NoDup (Host.id <$> hosts) → hosts !! i = Some cfg →
  Browser.assign_exe (Host.id cfg) exe hosts = <[i := Host.set_exe_path exe cfg]> hosts.
Proof.
  revert i. induction hosts as [|h hosts IH]; intros i Hnd Hi; [done|].
  apply NoDup_cons in Hnd as [Hnot Hnd]. destruct i as [|i]; simpl in *.
  - injection Hi as ->. by rewrite String.eqb_refl.
  - assert (Host.id h ≠ Host.id cfg) as Hne.
    { intros Heq. apply Hnot. rewrite Heq. apply list_elem_of_fmap.
      exists cfg. split; [done|]. by eapply list_elem_of_lookup_2. }
    apply String.eqb_neq in Hne. rewrite Hne. by rewrite (IH i).
Qed.

(** X17: a resolved executable is remembered: when [_ensure_host_exe]
    yields a path for a host of a hosts file without repeated ids, the file
    afterwards holds that host with this path and otherwise unchanged,
    every other host is as before, and resolving again for the stored host
    yields the same path with no dialog and no change. *)
Theorem ensure_host_exe_remembers
        (env : Browser.answers) (w : Browser.window) (cfg : Host.t) (i : nat)
        (exe : string) :
  NoDup (Host.id <$> Browser.load_hosts w) →
  Browser.load_hosts w !! i = Some cfg →
  (Browser._ensure_host_exe env cfg w).1 = Some exe →
  let w' := (Browser._ensure_host_exe env cfg w).2 in
  Browser.load_hosts w' = <[i := Host.set_exe_path exe cfg]> (Browser.load_hosts w)
  ∧ Browser.load_hosts w' !! i = Some (Host.set_exe_path exe cfg)
  ∧ Browser.path_exists env exe = true
  ∧ Browser._ensure_host_exe env (Host.set_exe_path exe cfg) w' = (Some exe, w').
Proof.
  intros Hnd Hi Hexe.
  assert (i < length (Browser.load_hosts w)) as Hlt by (by eapply lookup_lt_Some).
  pose proof (ensure_host_exe_some env cfg w exe Hexe) as (_ & Htr & Hex).
  assert (Browser._ensure_host_exe env (Host.set_exe_path exe cfg)
            (Browser._ensure_host_exe env cfg w).2
          = (Some exe, (Browser._ensure_host_exe env cfg w).2)) as Hagain.
  { unfold Browser._ensure_host_exe at 1. simpl. by rewrite Htr, Hex. }
  simpl. split; [|split; [|split; [done|exact Hagain]]].
  - clear Hagain. unfold Browser._ensure_host_exe in *.
    destruct (Browser.truthy _ && Browser.path_exists _ _) eqn:E; simpl in *.
    + injection Hexe as <-. rewrite set_exe_path_same. by rewrite list_insert_id.
    + pose proof (choose_exe_path_some env w) as Hc.
      destruct (Browser.choose_exe_path env w) as [[p|] w1]; simpl in *; [|done].
      injection Hexe as <-. destruct (Hc p eq_refl) as (-> & _). simpl.
      by apply assign_exe_insert.
  - clear Hagain. unfold Browser._ensure_host_exe in *.
    destruct (Browser.truthy _ && Browser.path_exists _ _) eqn:E; simpl in *.
    + injection Hexe as <-. by rewrite set_exe_path_same.
    + pose proof (choose_exe_path_some env w) as Hc.
      destruct (Browser.choose_exe_path env w) as [[p|] w1]; simpl in *; [|done].
      injection Hexe as <-. destruct (Hc p eq_refl) as (-> & _). simpl.
      rewrite (assign_exe_insert _ _ i cfg Hnd Hi). by apply list_lookup_insert_eq.
Qed.

Lemma ensure_host_exe_remembers_witness :
  Browser.load_hosts
    (Browser._ensure_host_exe (picking "D:\g.exe") second_host
       (Browser.initial 0 [second_host])).2 !! 0
  = Some (Host.set_exe_path "D:\g.exe" second_host).
Proof.
  refine (proj1 (proj2 (ensure_host_exe_remembers (picking "D:\g.exe")
                          (Browser.initial 0 [second_host]) second_host 0 "D:\g.exe"
                          _ _ _))); try reflexivity.
  simpl. apply NoDup_singleton.
Defined.

(** *** Joining a listed server *)

Lemma after_first_unfold (sep s : string) :
  Browser.after_first sep s
  = if String.prefix sep s
    then Some (String.substring (String.length sep)
                 (String.length s - String.length sep) s)
    else match s with
         | EmptyString => None
         | String _ s' => Browser.after_first sep s'
         end.
Proof. by destruct s. Qed.

Lemma append_cons (c : Ascii.ascii) (s r : string) : String c s +:+ r = String c (s +:+ r).
Proof. done. Qed.

Lemma append_empty (r : string) : "" +:+ r = r.
Proof. done. Qed.

Lemma prefix_cons (a b : Ascii.ascii) (s r : string) :
  String.prefix (String a s) (String b r)
  = if Ascii.ascii_dec a b then String.prefix s r else false.
Proof. done. Qed.

Lemma substring_all (s : string) : String.substring 0 (String.length s) s = s.
Proof. induction s as [|c s IH]; simpl; [done|]. by rewrite IH. Qed.

Lemma prefix_split (sep s : string) :
  String.prefix sep s = true →
  s = sep +:+ String.substring (String.length sep)
                (String.length s - String.length sep) s.
Proof.
  revert s. induction sep as [|c sep IH]; intros s; simpl.
  - intros _. by rewrite Nat.sub_0_r, substring_all.
  - destruct s as [|c' s]; [done|]. simpl.
    destruct (Ascii.ascii_dec c c') as [->|]; [|done].
    intros H. rewrite append_cons. f_equal. by apply IH.
Qed.

Lemma prefix_append (sep r : string) : String.prefix sep (sep +:+ r) = true.
Proof.
  induction sep as [|c sep IH]; [by destruct r|].
  rewrite append_cons. simpl. by destruct (Ascii.ascii_dec c c).
Qed.

Lemma substring_append (sep r : string) :
  String.substring (String.length sep)
    (String.length (sep +:+ r) - String.length sep) (sep +:+ r) = r.
Proof.
  induction sep as [|c sep IH].
  - rewrite append_empty. simpl. by rewrite Nat.sub_0_r, substring_all.
  - rewrite append_cons. simpl. exact IH.
Qed.

Lemma after_first_here (sep r : string) : Browser.after_first sep (sep +:+ r) = Some r.
Proof. by rewrite after_first_unfold, prefix_append, substring_append. Qed.

Lemma after_first_dashless (name r : string) :
  has_char "-"%char name = false →
  Browser.after_first " - " (name +:+ " - " +:+ r) = Some r.
Proof.
  induction name as [|c name IH]; intros Hno.
  - rewrite append_empty. apply after_first_here.
  - simpl in Hno. apply orb_false_iff in Hno as [Hc Hno].
    rewrite after_first_unfold.
    rewrite append_cons.
    replace (String.prefix " - " (String c (name +:+ " - " +:+ r))) with false.
    + by apply IH.
    + rewrite prefix_cons. destruct (Ascii.ascii_dec " "%char c) as [<-|]; [|done].
      destruct name as [|c' name].
      * rewrite append_empty, append_cons, prefix_cons.
        by destruct (Ascii.ascii_dec "-"%char " "%char).
      * rewrite append_cons, prefix_cons.
        simpl in Hno. apply orb_false_iff in Hno as [Hc' _].
        destruct (Ascii.ascii_dec "-"%char c') as [<-|]; [|done]. done.
Qed.

Lemma after_first_sound (sep s r : string) :
  Browser.after_first sep s = Some r → ∃ pre, s = pre +:+ sep +:+ r.
Proof.
  revert r. induction s as [|c s IH]; intros r; rewrite after_first_unfold.
  - destruct (String.prefix sep "") eqn:E; [|done].
    intros [= <-]. exists "". by apply prefix_split.
  - destruct (String.prefix sep (String c s)) eqn:E.
    + intros [= <-]. exists "". by apply prefix_split.
    + intros H. destruct (IH r H) as [pre ->]. exists (String c pre).
      by rewrite append_cons.
Qed.

Lemma after_first_none (sep s : string) :
  Browser.after_first sep s = None → ∀ pre r, s ≠ pre +:+ sep +:+ r.
Proof.
  induction s as [|c s IH]; rewrite after_first_unfold.
  - destruct (String.prefix sep "") eqn:E; [done|]. intros _ pre r Heq.
    destruct pre; [|by rewrite append_cons in Heq].
    rewrite append_empty in Heq. rewrite Heq, prefix_append in E. done.
  - destruct (String.prefix sep (String c s)) eqn:E; [done|]. intros H pre r Heq.
    destruct pre as [|c' pre].
    + rewrite append_empty in Heq. rewrite Heq, prefix_append in E. done.
    + rewrite append_cons in Heq. injection Heq as -> ->. by apply (IH H pre r).
Qed.

(** X18: the endpoint [launch_selected] cuts out of a list row is what
    follows the first [" - "] of the row: when it finds one, the row is some
    text, [" - "] and the result; when it finds none, the row contains no
    [" - "]; and for a row "name - endpoint" whose name has no dash it is
    exactly the endpoint. *)
Theorem after_first_cuts_at_first_separator (sep s : string) :
  (∀ r, Browser.after_first sep s = Some r → ∃ pre, s = pre +:+ sep +:+ r)
  ∧ (Browser.after_first sep s = None → ∀ pre r, s ≠ pre +:+ sep +:+ r)
  ∧ (∀ name r, sep = " - " → has_char "-"%char name = false → s = name +:+ sep +:+ r →
               Browser.after_first sep s = Some r).
Proof.
  split; [|split].
  - intros r. apply after_first_sound.
  - apply after_first_none.
  - intros name r -> Hno ->. by apply after_first_dashless.
Qed.

(** X19: joining from "Available Servers": with no row of "My Servers"
    selected, a selected row "name - endpoint" whose name has no dash and a
    chosen executable start exactly one process, the executable with that
    endpoint as its only argument (or show the launcher's error); a row
    without [" - "] starts nothing and shows the "Parse Error" box. *)
Theorem join_listed_server
        (env : Browser.answers) (w : Browser.window) (name endp exe : string) :
  (Browser.my_row env < 0)%Z → (0 ≤ Browser.available_row env)%Z →
  (Browser.available_text env = name +:+ " - " +:+ endp →
   has_char "-"%char name = false →
   (Browser.choose_exe_path env w).1 = Some exe →
   Browser.launch_selected env w
   = match Browser.popen_error env [exe; endp] with
     | None => (Ok (), Browser.started [exe; endp] w)
     | Some e => (Ok (), Browser.show Browser.Critical "Launch Error" e w)
     end)
  ∧ ((∀ pre r, Browser.available_text env ≠ pre +:+ " - " +:+ r) →
     Browser.launch_selected env w
     = (Ok (), Browser.show Browser.Critical "Parse Error"
                 "Could not parse selected server endpoint." w)).
Proof.
  intros Hmy Hav. unfold Browser.launch_selected.
  rewrite (proj2 (Z.leb_gt _ _) Hmy), (proj2 (Z.ltb_ge _ _) Hav). split.
  - intros Htext Hno Hexe. rewrite Htext, (after_first_dashless name endp Hno).
    destruct (choose_exe_path_some env w exe Hexe) as (Hw & _).
    destruct (Browser.choose_exe_path env w) as [o w1]. simpl in Hexe, Hw. subst o w1.
    unfold Browser.Popen. by destruct (Browser.popen_error env [exe; endp]).
  - intros Hnone.
    destruct (Browser.after_first " - " (Browser.available_text env)) as [r|] eqn:E;
      [|done].
    destruct (after_first_sound _ _ _ E) as [pre Hpre]. by destruct (Hnone pre r).
Qed.

Lemma join_listed_server_witness :
  Browser.launch_selected (joining "Alpha - 1.2.3.4:7777" "C:\game.exe")
    (Browser.initial 0 [])
  = (Ok (), Browser.started ["C:\game.exe"; "1.2.3.4:7777"] (Browser.initial 0 [])).
Proof.
  refine (proj1 (join_listed_server (joining "Alpha - 1.2.3.4:7777" "C:\game.exe")
                   (Browser.initial 0 []) "Alpha" "1.2.3.4:7777" "C:\game.exe" _ _)
            _ _ _); try reflexivity; simpl; lia.
Defined.

(** ** My Servers *)

Lemma truthy_spec (s : string) : Browser.truthy s = true ↔ s ≠ "".
Proof.
  unfold Browser.truthy. destruct (String.eqb_spec s ""); simpl; split; congruence.
Qed.

Lemma show_hosts (i : Browser.icon) (t x : string) (w : Browser.window) :
  Browser.hosts_db (Browser.show i t x w) = Browser.hosts_db w.
Proof. done. Qed.

(** What [choose_exe_path] leaves of the window. *)
Lemma choose_exe_path_window (env : Browser.answers) (w : Browser.window) :
  (Browser.choose_exe_path env w).2 = w
  ∨ ∃ x, (Browser.choose_exe_path env w).1 = None
         ∧ (Browser.choose_exe_path env w).2 = Browser.show Browser.Critical "Error" x w.
Proof.
  unfold Browser.choose_exe_path. repeat case_match; simpl; eauto.
Qed.

Section Builtins.

Variable strip lower : string → string.
Variable int : string → option Z.

Lemma ask_eq (d : Crud.dialogs) (n count : nat) :
  Crud.ask strip d n count
  = if forallb (λ i, (Crud.prompt_text d i).2
                     && Browser.truthy (strip (Crud.prompt_text d i).1)) (seq n count)
    then Some ((λ i, strip (Crud.prompt_text d i).1) <$> seq n count)
    else None.
Proof.
  revert n. induction count as [|count IH]; intros n; simpl; [done|].
  destruct (Crud.prompt_text d n) as [t ok]. simpl.
  destruct ok; simpl; [|done].
  destruct (Browser.truthy (strip t)); simpl; [|done].
  rewrite IH. by destruct (forallb _ _).
Qed.

Lemma filled_spec (d : Crud.dialogs) (count : nat) :
  forallb (λ i, (Crud.prompt_text d i).2
                && Browser.truthy (strip (Crud.prompt_text d i).1)) (seq 0 count) = true
  ↔ ∀ n, (n < count)%nat →
         (Crud.prompt_text d n).2 = true ∧ strip (Crud.prompt_text d n).1 ≠ "".
Proof.
  rewrite forallb_forall. split.
  - intros H n Hn. specialize (H n). rewrite in_seq in H.
    specialize (H ltac:(lia)). apply andb_true_iff in H as [? ?].
    by rewrite <- truthy_spec.
  - intros H n Hn. apply in_seq in Hn. destruct (H n ltac:(lia)) as [-> ?].
    simpl. by apply truthy_spec.
Qed.

Lemma from_prompt_accepted (d : Crud.dialogs) (w : Browser.window) (port : Z) :
  accepted strip int d → int (strip (Crud.prompt_text d 3).1) = Some port →
  Crud.from_prompt strip int d w = (Some (prompted strip d port), w).
Proof.
  intros (Hfill & Hpw & _ & Hfile & Hex) Hport.
  unfold Crud.from_prompt. rewrite ask_eq.
  rewrite (proj2 (filled_spec d 5) Hfill). simpl.
  destruct (Crud.password_text d) as [pw ok] eqn:Epw. simpl in Hpw. subst ok. simpl.
  rewrite Hport. unfold Browser.choose_exe_path.
  rewrite (proj2 (truthy_spec _) Hfile), Hex. simpl.
  unfold prompted. by rewrite Epw.
Qed.

Lemma from_prompt_some (d : Crud.dialogs) (w w' : Browser.window) (h : Host.t) :
  Crud.from_prompt strip int d w = (Some h, w') →
  accepted strip int d
  ∧ int (strip (Crud.prompt_text d 3).1) = Some (Host.port h)
  ∧ h = prompted strip d (Host.port h) ∧ w' = w.
Proof.
  unfold Crud.from_prompt. rewrite ask_eq.
  destruct (forallb _ _) eqn:Hfill; [|done]. simpl.
  pose proof (proj1 (filled_spec d 5) Hfill) as Hall. clear Hfill.
  destruct (Crud.password_text d) as [pw ok] eqn:Epw.
  destruct ok; simpl; [|done].
  destruct (int (strip (Crud.prompt_text d 3).1)) as [port|] eqn:Hport; [|done].
  unfold Browser.choose_exe_path.
  destruct (Browser.truthy (Browser.open_file (Crud.files d))) eqn:Hfile; simpl; [|done].
  destruct (Browser.path_exists (Crud.files d) _) eqn:Hex; simpl; [|done].
  intros [= <- <-]. simpl. apply truthy_spec in Hfile.
  split; [|split; [done|split; [|done]]].
  - unfold accepted. rewrite Epw, Hport. split; [exact Hall|]. by repeat split; eauto.
  - unfold prompted. by rewrite Epw.
Qed.

(** [from_prompt] changes nothing of the window but the boxes shown. *)
Lemma from_prompt_frame (d : Crud.dialogs) (w : Browser.window) :
  (Crud.from_prompt strip int d w).2 = w
  ∨ ∃ x, (Crud.from_prompt strip int d w).1 = None
         ∧ (Crud.from_prompt strip int d w).2 = Browser.show Browser.Critical "Error" x w.
Proof.
  unfold Crud.from_prompt.
  destruct (Crud.ask strip d 0 5) as [[|? [|? [|? [|? [|? [|? ?]]]]]]|]; simpl; eauto.
  destruct (Crud.password_text d) as [pw ok]. destruct ok; simpl; eauto.
  destruct (int _); simpl; [|eauto].
  destruct (choose_exe_path_window (Crud.files d) w) as [H|(x & H1 & H2)];
    destruct (Browser.choose_exe_path (Crud.files d) w) as [[exe|] w']; simpl in *;
    subst; eauto; done.
Qed.

End Builtins.

(** X20: [Host.from_prompt] returns a configuration exactly when the five
    prompts are confirmed with a text that is not blank, the password dialog
    is confirmed, [int] reads the stripped port text and the file picked
    exists; the configuration then holds the stripped texts, the port read,
    the password as typed, the file picked and a fresh identity, and the
    window is as before. *)
Theorem from_prompt_accepts_filled_dialogs
        (strip : string → string) (int : string → option Z)
        (d : Crud.dialogs) (w : Browser.window) :
  (is_Some (Crud.from_prompt strip int d w).1 ↔ accepted strip int d)
  ∧ ∀ h, (Crud.from_prompt strip int d w).1 = Some h →
         int (strip (Crud.prompt_text d 3).1) = Some (Host.port h)
         ∧ h = Host.Build (Crud.uuid4 d)
                 (strip (Crud.prompt_text d 0).1) (strip (Crud.prompt_text d 1).1)
                 (strip (Crud.prompt_text d 2).1) (Host.port h)
                 (strip (Crud.prompt_text d 4).1)
                 (Crud.password_text d).1 (Browser.open_file (Crud.files d))
         ∧ (Crud.from_prompt strip int d w).2 = w.
Proof.
  split; [split|].
  - intros [h Hh].
    destruct (Crud.from_prompt strip int d w) as [o w'] eqn:E. simpl in Hh. subst o.
    by apply from_prompt_some in E as (? & _).
  - intros Hacc. pose proof Hacc as (_ & _ & [port Hport] & _).
    by rewrite (from_prompt_accepted strip int d w port Hacc Hport).
  - intros h Hh.
    destruct (Crud.from_prompt strip int d w) as [o w'] eqn:E. simpl in Hh. subst o.
    by apply from_prompt_some in E as (_ & ? & ? & ?).
Qed.

(** *** Adding a configuration *)

Lemma same_address_spec (new_host h : Host.t) :
  Crud.same_address new_host h = true ↔ address h = address new_host.
Proof.
  unfold Crud.same_address, address. rewrite andb_true_iff, Z.eqb_eq.
  destruct (String.eqb_spec (Host.public_ip h) (Host.public_ip new_host));
    split; [intros [_ ->]; by f_equal | intros [= ? ?]; done | intros [? _]; done
           | intros [= ? ?]; done].
Qed.

Lemma existsb_same_address (new_host : Host.t) (hosts : list Host.t) :
  existsb (Crud.same_address new_host) hosts = true
  ↔ address new_host ∈ address <$> hosts.
Proof.
  rewrite existsb_exists, list_elem_of_fmap. split.
  - intros (h & Hin & Hs). apply same_address_spec in Hs.
    exists h. split; [done|]. by apply list_elem_of_In.
  - intros (h & Heq & Hin). exists h. split; [by apply list_elem_of_In|].
    by apply same_address_spec.
Qed.

Section Pages.

Variable strip lower : string → string.
Variable int : string → option Z.

Lemma add_server_cases (d : Crud.dialogs) (p : Crud.page) :
  (Browser.hosts_db (Crud.window (Crud.add_server strip int d p))
   = Browser.hosts_db (Crud.window p)
   ∧ Crud.my_list (Crud.add_server strip int d p) = Crud.my_list p
   ∧ same_sessions (Crud.window p) (Crud.window (Crud.add_server strip int d p))
   ∧ ∀ h, (Crud.from_prompt strip int d (Crud.window p)).1 = Some h →
          address h ∈ address <$> Browser.hosts_db (Crud.window p)
          ∧ Crud.add_server strip int d p
            = Crud.Page (Browser.show Browser.Warning "Duplicate"
                           "A server with the same public IP and port already exists."
                           (Crud.window p))
                        (Crud.my_list p))
  ∨ ∃ h, (Crud.from_prompt strip int d (Crud.window p)).1 = Some h
         ∧ (address h ∉ address <$> Browser.hosts_db (Crud.window p))
         ∧ Crud.add_server strip int d p
           = Crud._refresh_mine
               (Crud.Page (Browser.save_hosts (Browser.hosts_db (Crud.window p) ++ [h])
                             (Crud.window p))
                          (Crud.my_list p)).
Proof.
  unfold Crud.add_server.
  destruct (Crud.from_prompt strip int d (Crud.window p)) as [[h|] w'] eqn:E.
  - apply from_prompt_some in E as (_ & _ & _ & ->). unfold Browser.load_hosts.
    destruct (existsb _ _) eqn:Ex.
    + left. simpl. split; [done|]. split; [done|]. split; [by repeat split|].
      intros ? [= <-]. split; [|done]. by apply existsb_same_address.
    + right. exists h. split; [done|]. split; [|done].
      intros Hin. apply existsb_same_address in Hin. congruence.
  - left. simpl.
    destruct (from_prompt_frame strip int d (Crud.window p)) as [H|(x & _ & H)];
      rewrite E in H; simpl in H; subst w'; by repeat split.
Qed.

End Pages.

(** X21: [add_server] keeps the stored configurations at distinct addresses
    (public IP and port): a new configuration whose address is already
    stored is rejected with the "Duplicate" box and nothing else changes;
    otherwise it is appended after the stored ones, which stay as they
    are, and the rows are redrawn from the new list. *)
Theorem add_server_keeps_addresses_distinct
        (strip : string → string) (int : string → option Z)
        (d : Crud.dialogs) (p : Crud.page) :
  addresses_distinct (Browser.hosts_db (Crud.window p)) →
  addresses_distinct (Browser.hosts_db (Crud.window (Crud.add_server strip int d p)))
  ∧ Browser.hosts_db (Crud.window p)
      `prefix_of` Browser.hosts_db (Crud.window (Crud.add_server strip int d p))
  ∧ ∀ h, (Crud.from_prompt strip int d (Crud.window p)).1 = Some h →
         if decide (address h ∈ address <$> Browser.hosts_db (Crud.window p))
         then Browser.hosts_db (Crud.window (Crud.add_server strip int d p))
              = Browser.hosts_db (Crud.window p)
              ∧ Browser.boxes (Crud.window (Crud.add_server strip int d p))
                = Browser.boxes (Crud.window p) ++ [duplicate_box]
              ∧ Crud.my_list (Crud.add_server strip int d p) = Crud.my_list p
         else Browser.hosts_db (Crud.window (Crud.add_server strip int d p))
              = Browser.hosts_db (Crud.window p) ++ [h]
              ∧ Browser.boxes (Crud.window (Crud.add_server strip int d p))
                = Browser.boxes (Crud.window p)
              ∧ Crud.my_list (Crud.add_server strip int d p)
                = Crud.row <$> (Browser.hosts_db (Crud.window p) ++ [h]).
Proof.
  intros Hd.
  destruct (add_server_cases strip int d p)
    as [(Hh & Hl & _ & Hdup)|(h & Hfp & Hnew & Heq)].
  - rewrite Hh. split; [done|]. split; [done|].
    intros h Hfp. destruct (Hdup h Hfp) as [Hin Heq].
    rewrite decide_True by done. by rewrite Heq.
  - rewrite Heq. simpl. split; [|split].
    + unfold addresses_distinct. rewrite fmap_app. apply NoDup_app.
      split; [done|]. split; [|apply NoDup_singleton].
      intros a Ha Hb. simpl in Hb. apply list_elem_of_singleton in Hb. by subst.
    + by apply prefix_app_r.
    + intros h' Hh'. rewrite Hfp in Hh'. injection Hh' as <-.
      by rewrite decide_False by done.
Qed.

Lemma add_server_keeps_addresses_distinct_witness :
  addresses_distinct [sample_host]
  ∧ Browser.hosts_db
      (Crud.window
         (Crud.add_server (λ s, s) decimal (filling (-1) "" "5.6.7.8" "7777")
            (Crud.opened (Browser.initial 0 [sample_host]))))
    = [sample_host;
       Host.Build "h9" "Gamma" "5.6.7.8" "192.168.0.9" 7777 "Depot" "pw" "C:\new.exe"]
  ∧ Browser.hosts_db
      (Crud.window
         (Crud.add_server (λ s, s) decimal (filling (-1) "" "1.2.3.4" "7777")
            (Crud.opened (Browser.initial 0 [sample_host]))))
    = [sample_host].
Proof.
  assert (addresses_distinct [sample_host]) as Hd.
  { apply NoDup_singleton. }
  split; [exact Hd|].
  pose proof (add_server_keeps_addresses_distinct (λ s, s) decimal
                (filling (-1) "" "5.6.7.8" "7777")
                (Crud.opened (Browser.initial 0 [sample_host])) Hd) as (_ & _ & H1).
  pose proof (add_server_keeps_addresses_distinct (λ s, s) decimal
                (filling (-1) "" "1.2.3.4" "7777")
                (Crud.opened (Browser.initial 0 [sample_host])) Hd) as (_ & _ & H2).
  split; [exact (proj1 (H1 _ eq_refl)) | exact (proj1 (H2 _ eq_refl))].
Defined.

(** *** Rows and stored configurations *)

Lemma shown_row (h : Host.t) : shown (Crud.row h) h.
Proof. exists (Host.exe_path h). by rewrite set_exe_path_same. Qed.

Lemma shown_set_exe_path (r exe : string) (h : Host.t) :
  shown r h → shown r (Host.set_exe_path exe h).
Proof. intros [e ->]. by exists e. Qed.

Lemma in_step_refresh (w : Browser.window) (l : list string) :
  in_step (Crud._refresh_mine (Crud.Page w l)).
Proof.
  unfold in_step, Crud._refresh_mine, Browser.load_hosts. simpl.
  apply Forall2_fmap_l, Forall_Forall2_diag, Forall_forall. intros h _. apply shown_row.
Qed.

Lemma shown_assign_exe (l : list string) (id exe : string) (hosts : list Host.t) :
  Forall2 shown l hosts → Forall2 shown l (Browser.assign_exe id exe hosts).
Proof.
  induction 1 as [|r h l hosts Hr Hl IH]; simpl; [constructor|].
  destruct (String.eqb (Host.id h) id); constructor; auto using shown_set_exe_path.
Qed.

(** What [launch_selected] and [manual_start_heartbeat] leave of the stored
    configurations, and when they raise. *)
Lemma launch_selected_hosts (env : Browser.answers) (w : Browser.window) :
  (Browser.hosts_db (Browser.launch_selected env w).2 = Browser.hosts_db w
   ∨ ∃ id exe, Browser.hosts_db (Browser.launch_selected env w).2
               = Browser.assign_exe id exe (Browser.hosts_db w))
  ∧ ((Browser.launch_selected env w).1 = Ok ()
     ∨ (0 ≤ Browser.my_row env)%Z
       ∧ Browser.hosts_db w !! Z.to_nat (Browser.my_row env) = None).
Proof.
  unfold Browser.launch_selected, Browser.load_hosts.
  destruct (0 <=? Browser.my_row env)%Z eqn:Hidx.
  - apply Z.leb_le in Hidx.
    destruct (Browser.hosts_db w !! Z.to_nat (Browser.my_row env)) as [cfg|] eqn:Hcfg;
      [|split; [by left | by right]].
    assert (∃ o w', Browser._ensure_host_exe env cfg w = (o, w')
                    ∧ (Browser.hosts_db w' = Browser.hosts_db w
                       ∨ ∃ id exe, Browser.hosts_db w'
                                   = Browser.assign_exe id exe (Browser.hosts_db w)))
      as (o & w' & -> & Hh).
    { unfold Browser._ensure_host_exe, Browser.choose_exe_path, Browser.load_hosts.
      repeat case_match; simplify_eq; eexists _, _; (split; [done|]); simpl; eauto. }
    unfold Browser.Popen.
    repeat case_match; simplify_eq; simpl; (split; [exact Hh | by left]).
  - unfold Browser.choose_exe_path, Browser.Popen.
    repeat case_match; simplify_eq; simpl; (split; by left).
Qed.

Lemma start_heartbeat_hosts (idx : Z) (w : Browser.window) :
  Browser.hosts_db (Browser.manual_start_heartbeat idx w).2 = Browser.hosts_db w
  ∧ ((Browser.manual_start_heartbeat idx w).1 = Ok ()
     ∨ (0 ≤ idx)%Z ∧ Browser.hosts_db w !! Z.to_nat idx = None).
Proof.
  unfold Browser.manual_start_heartbeat, Browser.load_hosts.
  destruct (idx <? 0)%Z eqn:Hidx; [split; [done | by left]|]. apply Z.ltb_ge in Hidx.
  destruct (Browser.hosts_db w !! Z.to_nat idx) as [host|]; [|split; [done | by right]].
  destruct (Browser.already_running _ _); (split; [done | by left]).
Qed.

Lemma show_same_sessions (i : Browser.icon) (t x : string) (w : Browser.window) :
  same_sessions w (Browser.show i t x w).
Proof. by repeat split. Qed.

Lemma save_same_sessions (hosts : list Host.t) (w : Browser.window) :
  same_sessions w (Browser.save_hosts hosts w).
Proof. by repeat split. Qed.

Section Rows.

Variable strip lower : string → string.
Variable int : string → option Z.

(** The paths of [edit_or_remove]: the sessions are left alone; either the
    stored configurations and the rows stay, or the rows are redrawn from
    what was stored; only a selected row without a configuration raises. *)
Lemma edit_or_remove_cases (d : Crud.dialogs) (p : Crud.page) :
  same_sessions (Crud.window p) (Crud.window (Crud.edit_or_remove strip lower int d p).2)
  ∧ (Browser.hosts_db (Crud.window (Crud.edit_or_remove strip lower int d p).2)
     = Browser.hosts_db (Crud.window p)
     ∧ Crud.my_list (Crud.edit_or_remove strip lower int d p).2 = Crud.my_list p
     ∨ ∃ w l, (Crud.edit_or_remove strip lower int d p).2
              = Crud._refresh_mine (Crud.Page w l))
  ∧ ((Crud.edit_or_remove strip lower int d p).1 = Ok ()
     ∨ (0 ≤ Browser.my_row (Crud.files d))%Z
       ∧ Browser.hosts_db (Crud.window p) !! Z.to_nat (Browser.my_row (Crud.files d))
         = None).
Proof.
  unfold Crud.edit_or_remove, Browser.load_hosts.
  destruct (Browser.my_row (Crud.files d) <? 0)%Z eqn:Hidx.
  { simpl. split; [apply show_same_sessions|]. split; by left. }
  apply Z.ltb_ge in Hidx.
  destruct (Browser.hosts_db (Crud.window p) !! _) as [host|] eqn:Hhost;
    [|simpl; split; [by repeat split|]; split; [by left | by right]].
  destruct (Crud.action_text d) as [action ok]. destruct ok; simpl;
    [|split; [by repeat split|]; split; by left].
  destruct (String.eqb _ "remove").
  { simpl. split; [by repeat split|]. split; [right; eauto | by left]. }
  destruct (String.eqb _ "path").
  { destruct (choose_exe_path_window (Crud.files d) (Crud.window p))
      as [H|(x & H1 & H2)];
      destruct (Browser.choose_exe_path (Crud.files d) (Crud.window p)) as [[exe|] w'];
      simpl in *; subst; try done;
      (split; [by repeat split|]); (split; [|by left]); eauto. }
  destruct (String.eqb _ "edit"); simpl;
    [|split; [by repeat split|]; split; by left].
  destruct (from_prompt_frame strip int d (Crud.window p)) as [H|(x & H1 & H2)];
    destruct (Crud.from_prompt strip int d (Crud.window p)) as [[edited|] w'];
    simpl in *; subst; try done;
    (split; [by repeat split|]); (split; [|by left]); eauto.
Qed.

Lemma press_in_step (c : Crud.click) (p : Crud.page) :
  in_step p → in_step (Crud.press strip lower int c p).2.
Proof.
  intros Hp. destruct c as [d|d|env|idx|]; simpl.
  - destruct (add_server_cases strip int d p) as [(Hh & Hl & _)|(h & _ & _ & ->)];
      [|apply in_step_refresh].
    unfold in_step. by rewrite Hh, Hl.
  - destruct (edit_or_remove_cases d p) as (_ & [[Hh Hl]|(w & l & ->)] & _);
      [|apply in_step_refresh].
    unfold in_step. by rewrite Hh, Hl.
  - destruct (launch_selected_hosts env (Crud.window p)) as [[Hh|(id & exe & Hh)] _];
      destruct (Browser.launch_selected env (Crud.window p)) as [r w]; simpl in *;
      unfold in_step; simpl; rewrite Hh; [done|]. by apply shown_assign_exe.
  - destruct (start_heartbeat_hosts idx (Crud.window p)) as [Hh _].
    destruct (Browser.manual_start_heartbeat idx (Crud.window p)) as [r w]; simpl in *.
    unfold in_step. simpl. by rewrite Hh.
  - unfold in_step. simpl.
    destruct (stop_hosts (Crud.window p)) as [Hh _]. unfold Browser.load_hosts in Hh.
    by rewrite Hh.
Qed.

Lemma press_ok (c : Crud.click) (p : Crud.page) :
  in_step p →
  (∀ idx, Crud.current_row c = Some idx → (idx < Z.of_nat (length (Crud.my_list p)))%Z) →
  (Crud.press strip lower int c p).1 = Ok ().
Proof.
  intros Hp Hrow. pose proof (Forall2_length _ _ _ Hp) as Hlen.
  assert (∀ idx, Crud.current_row c = Some idx → (0 ≤ idx)%Z →
                 Browser.hosts_db (Crud.window p) !! Z.to_nat idx = None → False)
    as Hno.
  { intros idx Hc H0 Hnone. apply lookup_ge_None in Hnone.
    specialize (Hrow idx Hc). lia. }
  destruct c as [d|d|env|idx|]; simpl in *; [done| | | |done].
  - destruct (edit_or_remove_cases d p) as (_ & _ & [H|[H0 Hn]]); [done|].
    destruct (Hno _ eq_refl H0 Hn).
  - destruct (launch_selected_hosts env (Crud.window p)) as [_ [H|[H0 Hn]]];
      [|destruct (Hno _ eq_refl H0 Hn)].
    by destruct (Browser.launch_selected env (Crud.window p)).
  - destruct (start_heartbeat_hosts idx (Crud.window p)) as [_ [H|[H0 Hn]]];
      [|destruct (Hno _ eq_refl H0 Hn)].
    by destruct (Browser.manual_start_heartbeat idx (Crud.window p)).
Qed.

Lemma session_in_step (cs : list Crud.click) (p : Crud.page) :
  in_step p → selectable strip lower int cs p →
  Forall (λ r, r = Ok ()) (Crud.outcomes strip lower int cs p)
  ∧ in_step (Crud.after strip lower int cs p).
Proof.
  revert p. induction cs as [|c cs IH]; intros p Hp Hsel; simpl; [by split|].
  destruct Hsel as [Hrow Hsel].
  destruct (IH _ (press_in_step c p Hp) Hsel) as [Hall Hstep].
  split; [|done]. constructor; [by apply press_ok | done].
Qed.

End Rows.

(** X22: from the page as [__init__] draws it, through any sequence of add,
    edit/remove, launch, start-heartbeat and stop-all clicks in which every
    selected row is one of the rows displayed, no handler raises
    ([hosts[idx]] always finds a configuration), and afterwards every row
    still shows the stored configuration at its position, the note on the
    executable apart: as many rows as configurations. *)
Theorem selected_row_always_has_host
        (strip lower : string → string) (int : string → option Z)
        (cs : list Crud.click) (w : Browser.window) :
  selectable strip lower int cs (Crud.opened w) →
  Forall (λ r, r = Ok ()) (Crud.outcomes strip lower int cs (Crud.opened w))
  ∧ in_step (Crud.after strip lower int cs (Crud.opened w))
  ∧ length (Crud.my_list (Crud.after strip lower int cs (Crud.opened w)))
    = length (Browser.hosts_db (Crud.window (Crud.after strip lower int cs (Crud.opened w)))).
Proof.
  intros Hsel.
  destruct (session_in_step strip lower int cs (Crud.opened w)
              (in_step_refresh w []) Hsel) as [Hall Hstep].
  split; [done|]. split; [done|]. exact (Forall2_length _ _ _ Hstep).
Qed.

Lemma selected_row_always_has_host_witness :
  Forall (λ r, r = Ok ())
    (Crud.outcomes (λ s, s) (λ s, s) decimal
       [Crud.Add (filling (-1) "" "5.6.7.8" "7777"); Crud.Start 1;
        Crud.Edit (filling 0 "remove" "" ""); Crud.Launch (typing "abc"); Crud.Stop]
       (Crud.opened (Browser.initial 0 [sample_host])))
  ∧ Crud.my_list
      (Crud.after (λ s, s) (λ s, s) decimal
         [Crud.Add (filling (-1) "" "5.6.7.8" "7777"); Crud.Start 1;
          Crud.Edit (filling 0 "remove" "" ""); Crud.Launch (typing "abc"); Crud.Stop]
         (Crud.opened (Browser.initial 0 [sample_host])))
    = ["Gamma - 5.6.7.8:7777 (map=Depot) (EXE set)"].
Proof.
  assert (selectable (λ s, s) (λ s, s) decimal
            [Crud.Add (filling (-1) "" "5.6.7.8" "7777"); Crud.Start 1;
             Crud.Edit (filling 0 "remove" "" ""); Crud.Launch (typing "abc"); Crud.Stop]
            (Crud.opened (Browser.initial 0 [sample_host]))) as Hsel.
  { repeat split; intros idx [= <-]; vm_compute; reflexivity. }
  split; [|vm_compute; reflexivity].
  exact (proj1 (selected_row_always_has_host _ _ _ _ _ Hsel)).
Defined.

(** *** Editing and removing *)

Section Editing.

Variable strip lower : string → string.
Variable int : string → option Z.

(** What [edit_or_remove] stores for a selected configuration. *)
Lemma edit_or_remove_hosts (d : Crud.dialogs) (p : Crud.page) (host : Host.t) :
  (0 ≤ Browser.my_row (Crud.files d))%Z →
  Browser.hosts_db (Crud.window p) !! Z.to_nat (Browser.my_row (Crud.files d))
  = Some host →
  Browser.hosts_db (Crud.window (Crud.edit_or_remove strip lower int d p).2)
  = Browser.hosts_db (Crud.window p)
  ∨ lower (strip (Crud.action_text d).1) = "remove"
    ∧ Browser.hosts_db (Crud.window (Crud.edit_or_remove strip lower int d p).2)
      = delete (Z.to_nat (Browser.my_row (Crud.files d)))
               (Browser.hosts_db (Crud.window p))
  ∨ ∃ host', Host.id host' = Host.id host
             ∧ Browser.hosts_db (Crud.window (Crud.edit_or_remove strip lower int d p).2)
               = <[Z.to_nat (Browser.my_row (Crud.files d)) := host']>
                   (Browser.hosts_db (Crud.window p)).
Proof.
  intros Hidx Hhost. unfold Crud.edit_or_remove, Browser.load_hosts.
  rewrite (proj2 (Z.ltb_ge _ _) Hidx), Hhost.
  destruct (Crud.action_text d) as [action ok]. destruct ok; simpl; [|by left].
  destruct (String.eqb_spec (lower (strip action)) "remove") as [Hrm|_].
  { right. left. by split. }
  destruct (String.eqb _ "path").
  { destruct (choose_exe_path_window (Crud.files d) (Crud.window p))
      as [H|(x & H1 & H2)];
      destruct (Browser.choose_exe_path (Crud.files d) (Crud.window p)) as [[exe|] w'];
      simpl in *; subst; try done; try (by left).
    right. right. by exists (Host.set_exe_path exe host). }
  destruct (String.eqb _ "edit"); simpl; [|by left].
  destruct (from_prompt_frame strip int d (Crud.window p)) as [H|(x & H1 & H2)];
    destruct (Crud.from_prompt strip int d (Crud.window p)) as [[edited|] w'];
    simpl in *; subst; try done; try (by left).
  right. right. by exists (Crud.set_id (Host.id host) edited).
Qed.

End Editing.

(** X23: a configuration is edited or removed without its heartbeat being
    told: [add_server] and [edit_or_remove] leave the session table, the
    events, the threads with the configuration each was started with, the
    announces, the clock, the processes and the status colour as they are,
    so a loop running for a removed or edited configuration goes on
    announcing what it was started with. *)
Theorem editing_leaves_heartbeats_running
        (strip lower : string → string) (int : string → option Z)
        (d : Crud.dialogs) (p : Crud.page) :
  same_sessions (Crud.window p) (Crud.window (Crud.add_server strip int d p))
  ∧ same_sessions (Crud.window p)
      (Crud.window (Crud.edit_or_remove strip lower int d p).2)
  ∧ ∀ id, running_loops id (Crud.window (Crud.add_server strip int d p))
          = running_loops id (Crud.window p)
          ∧ running_loops id (Crud.window (Crud.edit_or_remove strip lower int d p).2)
            = running_loops id (Crud.window p).
Proof.
  assert (same_sessions (Crud.window p) (Crud.window (Crud.add_server strip int d p)))
    as Ha.
  { destruct (add_server_cases strip int d p) as [(_ & _ & H & _)|(h & _ & _ & ->)];
      [done|]. simpl. apply save_same_sessions. }
  pose proof (edit_or_remove_cases strip lower int d p) as (He & _).
  split; [done|]. split; [done|]. intros id.
  destruct Ha as ((_ & Ha1 & Ha2 & _) & _), He as ((_ & He1 & He2 & _) & _).
  split; by apply running_loops_core.
Qed.

(** X24: while a heartbeat is running for the selected configuration,
    whatever is typed into [edit_or_remove] short of "remove" leaves a
    configuration of the same identity at the selected row, so that starting
    the heartbeat of that row again is answered with "Already Running" and
    starts no second loop. *)
Theorem edited_server_keeps_its_heartbeat
        (strip lower : string → string) (int : string → option Z)
        (d : Crud.dialogs) (p : Crud.page) (host : Host.t) :
  (0 ≤ Browser.my_row (Crud.files d))%Z →
  Browser.hosts_db (Crud.window p) !! Z.to_nat (Browser.my_row (Crud.files d))
  = Some host →
  Browser.already_running (Host.id host) (Crud.window p) = true →
  lower (strip (Crud.action_text d).1) ≠ "remove" →
  (∃ host', Browser.hosts_db (Crud.window (Crud.edit_or_remove strip lower int d p).2)
              !! Z.to_nat (Browser.my_row (Crud.files d)) = Some host'
            ∧ Host.id host' = Host.id host)
  ∧ Browser.manual_start_heartbeat (Browser.my_row (Crud.files d))
      (Crud.window (Crud.edit_or_remove strip lower int d p).2)
    = (Ok (), Browser.show Browser.Information "Already Running"
                "Heartbeat already running for this server."
                (Crud.window (Crud.edit_or_remove strip lower int d p).2))
  ∧ Browser.threads (Crud.window (Crud.edit_or_remove strip lower int d p).2)
    = Browser.threads (Crud.window p).
Proof.
  intros Hidx Hhost Hrun Hrm.
  pose proof (edit_or_remove_cases strip lower int d p)
    as (((Hhb & Hev & Hth & _) & _) & _).
  assert (∃ host', Browser.hosts_db
                     (Crud.window (Crud.edit_or_remove strip lower int d p).2)
                     !! Z.to_nat (Browser.my_row (Crud.files d)) = Some host'
                   ∧ Host.id host' = Host.id host) as (host' & Hhost' & Hid).
  { destruct (edit_or_remove_hosts strip lower int d p host Hidx Hhost)
      as [->|[[? _]|(host' & Hid & ->)]]; [by exists host|done|].
    exists host'. split; [|done]. apply list_lookup_insert_eq.
    by apply lookup_lt_Some in Hhost. }
  split; [by exists host'|]. split; [|done].
  unfold Browser.manual_start_heartbeat, Browser.load_hosts.
  rewrite (proj2 (Z.ltb_ge _ _) Hidx), Hhost', Hid.
  assert (Browser.already_running (Host.id host)
            (Crud.window (Crud.edit_or_remove strip lower int d p).2) = true) as ->; [|done].
  revert Hrun. unfold Browser.already_running, Browser.is_set. by rewrite Hhb, Hev.
Qed.

Lemma edited_server_keeps_its_heartbeat_witness :
  Browser.boxes
    (Browser.manual_start_heartbeat 0
       (Crud.window
          (Crud.edit_or_remove (λ s, s) (λ s, s) decimal
             (filling 0 "edit" "5.6.7.8" "7000")
             (Crud.opened
                (Browser.manual_start_heartbeat 0
                   (Browser.initial 0 [sample_host])).2)).2)).2
  = [already_running_box].
Proof.
  pose proof (edited_server_keeps_its_heartbeat (λ s, s) (λ s, s) decimal
                (filling 0 "edit" "5.6.7.8" "7000")
                (Crud.opened
                   (Browser.manual_start_heartbeat 0 (Browser.initial 0 [sample_host])).2)
                sample_host ltac:(simpl; lia) eq_refl eq_refl ltac:(discriminate))
    as (_ & H & _).
  simpl in H. by rewrite H.
Defined.

(** X25: [edit_or_remove] does not look for duplicates: when the user edits
    a configuration and types the public IP and the port of another stored
    one, the edit is stored without any box and two configurations have the
    same address, which [add_server] would have refused. *)
Theorem edit_skips_duplicate_check
        (strip lower : string → string) (int : string → option Z)
        (d : Crud.dialogs) (p : Crud.page) (i j : nat) (hi hj : Host.t) :
  Browser.my_row (Crud.files d) = Z.of_nat i →
  (Crud.action_text d).2 = true →
  lower (strip (Crud.action_text d).1) = "edit" →
  Browser.hosts_db (Crud.window p) !! i = Some hi →
  Browser.hosts_db (Crud.window p) !! j = Some hj →
  i ≠ j →
  accepted strip int d →
  strip (Crud.prompt_text d 1).1 = Host.public_ip hj →
  int (strip (Crud.prompt_text d 3).1) = Some (Host.port hj) →
  (∃ h, Browser.hosts_db (Crud.window (Crud.edit_or_remove strip lower int d p).2) !! i
        = Some h
        ∧ address h = address hj ∧ Host.id h = Host.id hi)
  ∧ Browser.hosts_db (Crud.window (Crud.edit_or_remove strip lower int d p).2) !! j
    = Some hj
  ∧ ¬ addresses_distinct
        (Browser.hosts_db (Crud.window (Crud.edit_or_remove strip lower int d p).2))
  ∧ Browser.boxes (Crud.window (Crud.edit_or_remove strip lower int d p).2)
    = Browser.boxes (Crud.window p).
Proof.
  intros Hrow Hok Hedit Hi Hj Hij Hacc Hip Hport.
  assert (Crud.edit_or_remove strip lower int d p
          = (Ok (), Crud._refresh_mine
                      (Crud.Page
                         (Browser.save_hosts
                            (<[i := Crud.set_id (Host.id hi)
                                      (prompted strip d (Host.port hj))]>
                               (Browser.hosts_db (Crud.window p)))
                            (Crud.window p))
                         (Crud.my_list p)))) as ->.
  { unfold Crud.edit_or_remove, Browser.load_hosts.
    rewrite Hrow, Nat2Z.id, (proj2 (Z.ltb_ge _ _)) by lia. rewrite Hi.
    destruct (Crud.action_text d) as [action ok]. simpl in Hok, Hedit. subst ok.
    simpl. rewrite Hedit. simpl.
    by rewrite (from_prompt_accepted strip int d (Crud.window p) _ Hacc Hport). }
  simpl.
  assert (<[i := Crud.set_id (Host.id hi) (prompted strip d (Host.port hj))]>
            (Browser.hosts_db (Crud.window p)) !! i
          = Some (Crud.set_id (Host.id hi) (prompted strip d (Host.port hj)))) as Hi'.
  { apply list_lookup_insert_eq. by apply lookup_lt_Some in Hi. }
  assert (<[i := Crud.set_id (Host.id hi) (prompted strip d (Host.port hj))]>
            (Browser.hosts_db (Crud.window p)) !! j = Some hj) as Hj'.
  { by rewrite list_lookup_insert_ne. }
  assert (address (Crud.set_id (Host.id hi) (prompted strip d (Host.port hj)))
          = address hj) as Haddr.
  { unfold address. simpl. by rewrite Hip. }
  split; [eexists; split; [exact Hi' | by split]|].
  split; [done|]. split; [|done].
  intros Hd. apply Hij.
  apply (NoDup_lookup _ i j (address hj) Hd); rewrite list_lookup_fmap.
  - by rewrite Hi', <- Haddr.
  - by rewrite Hj'.
Qed.

Lemma edit_skips_duplicate_check_witness :
  addresses_distinct [sample_host; second_host]
  ∧ ¬ addresses_distinct
        (Browser.hosts_db
           (Crud.window
              (Crud.edit_or_remove (λ s, s) (λ s, s) decimal
                 (filling 1 "edit" "1.2.3.4" "7777")
                 (Crud.opened (Browser.initial 0 [sample_host; second_host]))).2)).
Proof.
  split.
  { apply NoDup_cons. split; [|apply NoDup_singleton].
    intros H. apply list_elem_of_singleton in H. discriminate. }
  assert (accepted (λ s, s) decimal (filling 1 "edit" "1.2.3.4" "7777")) as Hacc.
  { split; [|by repeat split; eauto].
    intros n Hn. split; [done|].
    destruct n as [|[|[|[|[|n]]]]]; simpl; discriminate. }
  exact (proj1 (proj2 (proj2
           (edit_skips_duplicate_check (λ s, s) (λ s, s) decimal
              (filling 1 "edit" "1.2.3.4" "7777")
              (Crud.opened (Browser.initial 0 [sample_host; second_host]))
              1 0 second_host sample_host
              eq_refl eq_refl eq_refl eq_refl eq_refl ltac:(discriminate)
              Hacc eq_refl eq_refl)))).
Defined.
